(** * FreshTrack backend: grocery synchronisation and cache-aside lookups

    A shallow embedding of the request handlers of [app/api/v1/endpoints]
    and of the services of [app/services], followed by the properties the
    specification states about them.

    - [Py]       the Python values the handlers compute with: exceptions,
                 [str] methods, decoded JSON values;
    - [Grocery]  the [grocery_items] table, the pydantic schemas and the
                 handlers of [endpoints/groceries.py];
    - [Gateway]  the Redis cache and the upstream HTTP provider as the
                 services see them;
    - [Barcode]  [services/barcode_service.py] and [endpoints/barcode.py];
    - [Recipes]  [SpoonacularService.search_recipes];
    - [Items]    the other handlers of [endpoints/groceries.py];
    - [RecipeService], [RecipeEndpoints]  the other methods of
                 [SpoonacularService] and the ingredient parameter of
                 [endpoints/recipes.py]. *)

From Stdlib Require Import Floats ZArith Lia Ascii.
From stdpp Require Import gmap strings list fin_maps pretty sorting.

Open Scope Z_scope.
Set Warnings "-register-all".

(** ** Python values *)
Module Py.

(** The exceptions the modelled code can raise.  [HTTPException] carries the
    status code; [RequestValidationError] is FastAPI's rejection (422) of a
    body that fails its pydantic schema; [IntegrityError] and [DBAPIError]
    are those of [sqlalchemy.exc], the second being the one a statement
    raises when the driver or the store refuses one of its values. *)
Inductive exn :=
  | HTTPException (status_code : Z)
  | RequestValidationError
  | ValidationError
  | JSONDecodeError
  | AttributeError
  | TypeError
  | KeyError
  | HTTPError
  | RedisError
  | IntegrityError
  | DBAPIError.

Inductive result (A : Type) :=
  | Ok (a : A)
  | Raise (e : exn).
Arguments Ok {A} a.
Arguments Raise {A} e.

#[global] Instance result_ret : MRet result := λ A x, Ok x.
#[global] Instance result_bind : MBind result := λ A B f m,
  match m with Ok a => f a | Raise e => Raise e end.

(** Exceptions that come from handling a decoded payload. *)
Definition payload_error (ex : exn) : Prop :=
  ex = JSONDecodeError ∨ ex = AttributeError ∨ ex = TypeError.

Definition is_ok {A} (r : result A) : bool :=
  match r with Ok _ => true | Raise _ => false end.

(** *** [str]

    A [str] is modelled by [string], one [ascii] per code point, so the
    embedding covers text in the Latin-1 range (code points 0..255).  The
    character classes below are Python's, restricted to that range. *)

Definition ord (c : ascii) : N := N_of_ascii c.

Definition between (lo hi n : N) : bool := ((lo <=? n) && (n <=? hi))%N.

(** [str.isspace] on one character: TAB..CR, FS..US, SPACE, NEL, NBSP. *)
Definition isspace_char (c : ascii) : bool :=
  let n := ord c in
  between 9 13 n || between 28 32 n || (n =? 133)%N || (n =? 160)%N.

(** [str.isdigit] on one character: the decimal digits and the superscripts
    two, three and one (U+00B2, U+00B3, U+00B9). *)
Definition isdigit_char (c : ascii) : bool :=
  let n := ord c in
  between 48 57 n || (n =? 178)%N || (n =? 179)%N || (n =? 185)%N.

(** The characters matched by [\d]: the decimal digits only. *)
Definition decimal_char (c : ascii) : bool := between 48 57 (ord c).

Fixpoint all_chars (p : ascii → bool) (s : string) : bool :=
  match s with
  | EmptyString => true
  | String c s' => p c && all_chars p s'
  end.

Definition is_empty (s : string) : bool :=
  match s with EmptyString => true | String _ _ => false end.

(** [s.isdigit()]: every character is a digit and there is at least one. *)
Definition isdigit (s : string) : bool := negb (is_empty s) && all_chars isdigit_char s.

Fixpoint lstrip (s : string) : string :=
  match s with
  | EmptyString => EmptyString
  | String c s' => if isspace_char c then lstrip s' else s
  end.

Fixpoint rstrip (s : string) : string :=
  match s with
  | EmptyString => EmptyString
  | String c s' =>
      let r := rstrip s' in
      if isspace_char c && is_empty r then EmptyString else String c r
  end.

(** [s.strip()] *)
Definition strip (s : string) : string := rstrip (lstrip s).

Definition lower_char (c : ascii) : ascii :=
  let n := ord c in
  if between 65 90 n || between 192 214 n || between 216 222 n
  then ascii_of_N (n + 32) else c.

(** [s.lower()] *)
Fixpoint lower (s : string) : string :=
  match s with
  | EmptyString => EmptyString
  | String c s' => String (lower_char c) (lower s')
  end.

(** [needle in hay] for two strings. *)
Fixpoint contains (needle hay : string) : bool :=
  String.prefix needle hay ||
  match hay with
  | EmptyString => false
  | String _ hay' => contains needle hay'
  end.

(** [sep.join(parts)] *)
Fixpoint join (sep : string) (parts : list string) : string :=
  match parts with
  | [] => ""
  | [p] => p
  | p :: rest => p +:+ sep +:+ join sep rest
  end.

(** *** Decoded JSON

    What [json.loads] and [response.json()] return.  A [JObj] lists the
    entries of the decoded [dict] in insertion order, each key once. *)
Inductive json :=
  | JNull
  | JBool (b : bool)
  | JInt (z : Z)
  | JFloat (f : float)
  | JStr (s : string)
  | JArr (l : list json)
  | JObj (kvs : list (string * json)).

Fixpoint assoc {A} (k : string) (kvs : list (string * A)) : option A :=
  match kvs with
  | [] => None
  | (k', v) :: rest => if String.eqb k k' then Some v else assoc k rest
  end.

(** Truth value of a decoded value ([if x:], [not x]). *)
Definition truthy (j : json) : bool :=
  match j with
  | JNull => false
  | JBool b => b
  | JInt z => negb (z =? 0)
  | JFloat f => negb (PrimFloat.eqb f 0%float)
  | JStr s => negb (is_empty s)
  | JArr l => match l with [] => false | _ => true end
  | JObj kvs => match kvs with [] => false | _ => true end
  end.

(** [x.get(key, default)]: only a [dict] has the method. *)
Definition get (x : json) (key : string) (default : json) : result json :=
  match x with
  | JObj kvs => Ok (from_option id default (assoc key kvs))
  | _ => Raise AttributeError
  end.

(** [x == 1] for a decoded value: [1], [1.0] and [True] compare equal. *)
Definition eq_one (x : json) : bool :=
  match x with
  | JInt z => z =? 1
  | JFloat f => PrimFloat.eqb f 1%float
  | JBool b => b
  | _ => false
  end.

(** [for v in x]: the elements of a list, the keys of a dict, the characters
    of a string; anything else is not iterable. *)
Definition iterate (x : json) : result (list json) :=
  match x with
  | JArr l => Ok l
  | JObj kvs => Ok (JStr <$> kvs.*1)
  | JStr s => Ok ((λ c, JStr (String c EmptyString)) <$> String.list_ascii_of_string s)
  | _ => Raise TypeError
  end.

(** A text held by Redis or received as an HTTP body, seen through
    [json.loads]: either a document that decodes to [j] (among them
    [json.dumps j]), or a string that is no JSON document. *)
Inductive text :=
  | Document (j : json)
  | NotJson (raw : string).

Definition json_dumps (j : json) : text := Document j.

Definition json_loads (t : text) : result json :=
  match t with
  | Document j => Ok j
  | NotJson _ => Raise JSONDecodeError
  end.

(** Truth value of a text: only the empty string is false. *)
Definition nonempty (t : text) : bool :=
  match t with
  | Document _ => true
  | NotJson raw => negb (is_empty raw)
  end.

End Py.
Export Py.

(** ** The cache store and the upstream provider *)
Module Gateway.

(** What a service call does to the outside world, in order. *)
Inductive event :=
  | RedisGet (key : string)
  | RedisSetex (key : string) (ttl : Z) (value : text)
  | HttpGet (url : string) (params : list (string * json)).

(** A Redis key with its value and the time (in seconds) at which it
    expires. *)
Record entry := { value : text; expires_at : Z }.

Record world := {
  cache : gmap string entry;
  trace : list event;
}.

Record response := { status_code : Z; body : text }.

(** The outcome of [http_client.get]: [httpx] raises a subclass of
    [httpx.HTTPError] (timeout, connection failure, ...), or a response
    arrives. *)
Inductive reply :=
  | Failure
  | Reply (r : response).

(** The environment of one service call: the clock, whether the Redis
    commands of this call go through (a command on an unreachable or
    uninitialised client raises), and the provider's answer to a request. *)
Record env := {
  now : Z;
  redis_get_ok : bool;
  redis_setex_ok : bool;
  upstream : string → list (string * json) → reply;
}.

(** Computations that act on the world and may raise. *)
Definition M (A : Type) : Type := world → result A * world.

Definition ret {A} (x : A) : M A := λ w, (Ok x, w).

Definition bind {A B} (m : M A) (f : A → M B) : M B := λ w,
  match m w with
  | (Ok a, w') => f a w'
  | (Raise e, w') => (Raise e, w')
  end.

Notation "x <~ m ; k" := (bind m (λ x, k))
  (at level 20, m at level 100, k at level 200, only parsing).

Definition raise {A} (e : exn) : M A := λ w, (Raise e, w).

Definition lift {A} (r : result A) : M A := λ w, (r, w).

Definition log (ev : event) : M unit :=
  λ w, (Ok tt, {| cache := cache w; trace := trace w ++ [ev] |}).

(** [try: body except ...: handler]; the handler re-raises what its
    [except] clause does not name. *)
Definition try_except {A} (body : M A) (handler : exn → M A) : M A := λ w,
  match body w with
  | (Ok a, w') => (Ok a, w')
  | (Raise e, w') => handler e w'
  end.

(** The live value of a key at time [t]. *)
Definition live (t : Z) (c : gmap string entry) (key : string) : option text :=
  match c !! key with
  | Some en => if t <? expires_at en then Some (value en) else None
  | None => None
  end.

(** [await redis_client.get(key)] *)
Definition redis_get (e : env) (key : string) : M (option text) :=
  _ <~ log (RedisGet key);
  if redis_get_ok e then (λ w, (Ok (live (now e) (cache w) key), w))
  else raise RedisError.

(** [await redis_client.setex(key, ttl, value)] *)
Definition redis_setex (e : env) (key : string) (ttl : Z) (v : text) : M unit :=
  _ <~ log (RedisSetex key ttl v);
  if redis_setex_ok e then
    (λ w, (Ok tt, {| cache := <[key := {| value := v; expires_at := now e + ttl |}]> (cache w);
                     trace := trace w |}))
  else raise RedisError.

(** [await http_client.get(url, params=params)] *)
Definition http_get (e : env) (url : string) (params : list (string * json)) : M response :=
  _ <~ log (HttpGet url params);
  match upstream e url params with
  | Failure => raise HTTPError
  | Reply r => ret r
  end.

(** [except httpx.HTTPError: return v] for a block that yields [Some] of its
    value; [None] stands for the [return] taken in the handler. *)
Definition except_HTTPError {A} (body : M A) : M (option A) :=
  try_except (a <~ body; ret (Some a))
    (λ ex, match ex with HTTPError => ret None | _ => raise ex end).

(** [except Exception: pass] *)
Definition except_pass {A} (body : M A) (fallback : A) : M A :=
  try_except body (λ _, ret fallback).

(** The world after one more event. *)
Definition logged (ev : event) (w : world) : world :=
  {| cache := cache w; trace := trace w ++ [ev] |}.

(** The cache gives nothing for [key]: the command fails, the key is absent
    or expired, its value is the empty string, or its value does not
    decode. *)
Definition cache_unusable (e : env) (w : world) (key : string) : Prop :=
  redis_get_ok e = false
  ∨ live (now e) (cache w) key = None
  ∨ ∃ raw, live (now e) (cache w) key = Some (NotJson raw).

(** The cache read that opens every service call:
    [[
      try:
          cached = await self.redis_client.get(cache_key)
          if cached:
              return json.loads(cached)
      except Exception:
          pass
    ]]
    [Some data] when the block returns [data], [None] when control falls
    through to the upstream query. *)
Definition read_cache (e : env) (key : string) : M (option json) :=
  except_pass
    (cached <~ redis_get e key;
     match cached with
     | Some t =>
         if nonempty t then data <~ lift (json_loads t); ret (Some data)
         else ret None
     | None => ret None
     end)
    None.

End Gateway.
Export Gateway.

(** ** Barcode lookup: [services/barcode_service.py], [endpoints/barcode.py] *)
Module Barcode.

(** The [mapping] dict of [_map_category], in insertion order (the order in
    which [mapping.items()] yields its entries). *)
Definition mapping : list (string * string) :=
  [ ("dairy", "Dairy"); ("milk", "Dairy"); ("cheese", "Dairy");
    ("yogurt", "Dairy"); ("butter", "Dairy");
    ("meat", "Meat"); ("beef", "Meat"); ("pork", "Meat");
    ("chicken", "Meat"); ("turkey", "Meat"); ("sausage", "Meat");
    ("fish", "Seafood"); ("seafood", "Seafood"); ("shrimp", "Seafood");
    ("tuna", "Seafood"); ("salmon", "Seafood");
    ("fruit", "Produce"); ("vegetable", "Produce"); ("salad", "Produce");
    ("bread", "Bakery"); ("pastry", "Bakery"); ("cake", "Bakery");
    ("frozen", "Frozen"); ("ice-cream", "Frozen");
    ("beverage", "Beverages"); ("drink", "Beverages"); ("juice", "Beverages");
    ("water", "Beverages"); ("soda", "Beverages"); ("coffee", "Beverages");
    ("tea", "Beverages");
    ("sauce", "Condiments"); ("condiment", "Condiments");
    ("ketchup", "Condiments"); ("mustard", "Condiments");
    ("mayonnaise", "Condiments");
    ("snack", "Snacks"); ("chip", "Snacks"); ("cookie", "Snacks");
    ("cracker", "Snacks"); ("candy", "Snacks"); ("chocolate", "Snacks");
    ("cereal", "Pantry"); ("pasta", "Pantry"); ("rice", "Pantry");
    ("canned", "Pantry"); ("flour", "Pantry"); ("sugar", "Pantry");
    ("oil", "Pantry") ].

(** The inner loop: the category of the first entry whose keyword occurs in
    [tag_lower], if there is one. *)
Fixpoint scan_mapping (entries : list (string * string)) (tag_lower : string) : option string :=
  match entries with
  | [] => None
  | (keyword, category) :: rest =>
      if contains keyword tag_lower then Some category
      else scan_mapping rest tag_lower
  end.

(** The outer loop over the tags.  [tag.lower()] raises on an element that
    is not a [str], when the loop reaches it. *)
Fixpoint scan_tags (tags : list json) : result string :=
  match tags with
  | [] => Ok "Other"
  | tag :: rest =>
      match tag with
      | JStr s =>
          match scan_mapping mapping (lower s) with
          | Some category => Ok category
          | None => scan_tags rest
          end
      | _ => Raise AttributeError
      end
  end.

(** [_map_category(categories_tags)] on whatever the product carries under
    [categories_tags]. *)
Definition _map_category (categories_tags : json) : result string :=
  tags ← iterate categories_tags;
  scan_tags tags.

(** [v.strip()] on a decoded value. *)
Definition str_strip (v : json) : result string :=
  match v with
  | JStr s => Ok (strip s)
  | _ => Raise AttributeError
  end.

(** [_parse_product(product, barcode)]; [JNull] is Python's [None]. *)
Definition _parse_product (product : json) (barcode : string) : result json :=
  name_v ← get product "product_name" (JStr "");
  name ← str_strip name_v;
  if is_empty name then Ok JNull else
  categories_tags ← get product "categories_tags" (JArr []);
  suggested_category ← _map_category categories_tags;
  brand ← get product "brands" (JStr "");
  categories ← get product "categories" (JStr "");
  quantity ← get product "quantity" (JStr "");
  image_front_url ← get product "image_front_url" (JStr "");
  ingredients_text ← get product "ingredients_text" (JStr "");
  nutriscore_grade ← get product "nutriscore_grade" (JStr "");
  Ok (JObj [ ("barcode", JStr barcode);
             ("name", JStr name);
             ("brand", brand);
             ("categories", categories);
             ("suggested_category", JStr suggested_category);
             ("quantity_string", quantity);
             ("image_url", image_front_url);
             ("ingredients_text", ingredients_text);
             ("nutriscore_grade", nutriscore_grade) ]).

Definition product_url (barcode : string) : string :=
  "https://world.openfoodfacts.org/api/v2/product/" +:+ barcode.

(** [_query_open_food_facts(barcode)].  Only the [get] is inside the [try];
    the [User-Agent] header is not part of the model. *)
Definition _query_open_food_facts (e : env) (barcode : string) : M json :=
  let url := product_url barcode in
  got <~ except_HTTPError (http_get e url []);
  match got with
  | None => ret JNull
  | Some response =>
      if negb (status_code response =? 200) then ret JNull else
      data <~ lift (json_loads (body response));
      status <~ lift (get data "status" JNull);
      if negb (eq_one status) then ret JNull else
      product <~ lift (get data "product" (JObj []));
      lift (_parse_product product barcode)
  end.

Definition cache_key (barcode : string) : string := "barcode:" +:+ barcode.

(** Step 3 of [lookup]: seven days for a product, one hour for a miss. *)
Definition write_cache (e : env) (key : string) (product : json) : M unit :=
  except_pass
    (if truthy product
     then redis_setex e key 604800 (json_dumps product)
     else redis_setex e key 3600 (json_dumps JNull))
    tt.

(** [BarcodeService.lookup(barcode)] *)
Definition lookup (e : env) (barcode : string) : M json :=
  let key := cache_key barcode in
  hit <~ read_cache e key;
  match hit with
  | Some data => ret data
  | None =>
      product <~ _query_open_food_facts e barcode;
      _ <~ write_cache e key product;
      ret product
  end.

(** [schemas/barcode.py] *)
Record BarcodeProductResponse := {
  barcode : string;
  name : string;
  brand : option string;
  categories : option string;
  suggested_category : string;
  quantity_string : option string;
  image_url : option string;
  ingredients_text : option string;
  nutriscore_grade : option string;
  source : string;
}.

(** pydantic's reading of a keyword argument for a [str] field, an
    [Optional[str]] field and a [str] field with a default. *)
Definition str_field (kw : list (string * json)) (k : string) : result string :=
  match assoc k kw with
  | Some (JStr s) => Ok s
  | _ => Raise ValidationError
  end.

Definition optional_str_field (kw : list (string * json)) (k : string) : result (option string) :=
  match assoc k kw with
  | None | Some JNull => Ok None
  | Some (JStr s) => Ok (Some s)
  | Some _ => Raise ValidationError
  end.

Definition default_str_field (kw : list (string * json)) (k default : string) : result string :=
  match assoc k kw with
  | None => Ok default
  | Some (JStr s) => Ok s
  | Some _ => Raise ValidationError
  end.

(** [BarcodeProductResponse( **result, source="open_food_facts")] *)
Definition make_response (result : json) : Py.result BarcodeProductResponse :=
  match result with
  | JObj kw =>
      match assoc "source" kw with
      | Some _ => Raise TypeError
      | None =>
          b ← str_field kw "barcode";
          n ← str_field kw "name";
          br ← optional_str_field kw "brand";
          c ← optional_str_field kw "categories";
          sc ← default_str_field kw "suggested_category" "Other";
          q ← optional_str_field kw "quantity_string";
          i ← optional_str_field kw "image_url";
          it ← optional_str_field kw "ingredients_text";
          ng ← optional_str_field kw "nutriscore_grade";
          Ok {| barcode := b; name := n; brand := br; categories := c;
                suggested_category := sc; quantity_string := q; image_url := i;
                ingredients_text := it; nutriscore_grade := ng;
                source := "open_food_facts" |}
      end
  | _ => Raise TypeError
  end.

(** The format test of the endpoint on the stripped input. *)
Definition valid_format (cleaned : string) : bool :=
  isdigit cleaned && bool_decide (String.length cleaned ∈ [8; 12; 13; 14]%nat).

(** [lookup_barcode(barcode)], the handler of [GET /barcode/{barcode}]. *)
Definition lookup_barcode (e : env) (barcode : string) : M BarcodeProductResponse :=
  let cleaned := strip barcode in
  if negb (valid_format cleaned) then raise (HTTPException 400) else
  result <~ lookup e cleaned;
  name <~ (if truthy result then lift (get result "name" JNull) else ret JNull);
  if negb (truthy result) || negb (truthy name) then raise (HTTPException 404) else
  lift (make_response result).

End Barcode.

(** ** Recipe search: [SpoonacularService.search_recipes] *)
Module Recipes.

Definition BASE_URL : string := "https://api.spoonacular.com".

(** [sorted(xs)] on strings. *)
Definition str_le (a b : string) : Prop := String.leb a b = true.

#[global] Instance str_le_dec : RelDecision str_le.
Proof. intros a b. unfold str_le. apply _. Defined.

Definition sorted (xs : list string) : list string := merge_sort str_le xs.

(** [s or ''] *)
Definition or_empty (s : option string) : string := default "" s.

(** Truth value of an optional string, list or int argument. *)
Definition given_str (s : option string) : bool :=
  match s with Some s => negb (is_empty s) | None => false end.

Definition given_list (l : option (list string)) : bool :=
  match l with Some (_ :: _) => true | _ => false end.

Definition given_int (n : option Z) : bool :=
  match n with Some n => negb (n =? 0) | None => false end.

Definition search_cache_key (query : option string) (ingredients : option (list string))
    (diet : option string) (max_ready_time : option Z) (number offset : Z) : string :=
  let cache_parts :=
    [ "q:" +:+ or_empty query;
      "i:" +:+ (if given_list ingredients then join "," (sorted (default [] ingredients)) else "");
      "d:" +:+ or_empty diet;
      "t:" +:+ (if given_int max_ready_time then pretty (default 0 max_ready_time) else "");
      "n:" +:+ pretty number;
      "o:" +:+ pretty offset ] in
  "recipes:search:" +:+ join ":" cache_parts.

Definition search_params (api_key : option string) (query : option string)
    (ingredients : option (list string)) (diet : option string)
    (max_ready_time : option Z) (number offset : Z) : list (string * json) :=
  [ ("apiKey", from_option JStr JNull api_key);
    ("number", JInt (Z.min number 100));
    ("offset", JInt offset);
    ("addRecipeInformation", JBool true);
    ("fillIngredients", JBool true) ]
  ++ (if given_str query then [("query", JStr (or_empty query))] else [])
  ++ (if given_list ingredients
      then [("includeIngredients", JStr (join "," (default [] ingredients)))] else [])
  ++ (if given_str diet then [("diet", JStr (or_empty diet))] else [])
  ++ (if given_int max_ready_time
      then [("maxReadyTime", JInt (default 0 max_ready_time))] else []).

(** [response.raise_for_status()]: [httpx.HTTPStatusError], a subclass of
    [httpx.HTTPError], unless the status is a 2xx. *)
Definition raise_for_status (r : response) : M unit :=
  if (200 <=? status_code r) && (status_code r <=? 299) then ret tt
  else raise HTTPError.

(** [_parse_recipe_summary(data)] *)
Definition _parse_recipe_summary (data : json) : result json :=
  id ← get data "id" JNull;
  title ← get data "title" (JStr "");
  image ← get data "image" (JStr "");
  ready ← get data "readyInMinutes" JNull;
  servings ← get data "servings" JNull;
  source_url ← get data "sourceUrl" (JStr "");
  diets ← get data "diets" (JArr []);
  dish_types ← get data "dishTypes" (JArr []);
  vegetarian ← get data "vegetarian" (JBool false);
  vegan ← get data "vegan" (JBool false);
  gluten_free ← get data "glutenFree" (JBool false);
  dairy_free ← get data "dairyFree" (JBool false);
  health_score ← get data "healthScore" JNull;
  Ok (JObj [ ("id", id); ("title", title); ("image", image);
             ("ready_in_minutes", ready); ("servings", servings);
             ("source_url", source_url); ("diets", diets);
             ("dish_types", dish_types); ("vegetarian", vegetarian);
             ("vegan", vegan); ("gluten_free", gluten_free);
             ("dairy_free", dairy_free); ("health_score", health_score) ]).

(** The comprehension and the dict literal that build [result]. *)
Definition parse_results (data : json) : result json :=
  listed ← get data "results" (JArr []);
  rs ← iterate listed;
  parsed ← mapM _parse_recipe_summary rs;
  total ← get data "totalResults" (JInt 0);
  Ok (JObj [ ("results", JArr parsed); ("totalResults", total) ]).

(** The request inside the second [try] block. *)
Definition fetch (e : env) (params : list (string * json)) : M json :=
  response <~ http_get e (BASE_URL +:+ "/recipes/complexSearch") params;
  _ <~ raise_for_status response;
  lift (json_loads (body response)).

Definition empty_result : json := JObj [ ("results", JArr []); ("totalResults", JInt 0) ].

(** What a search computes from the provider alone: the second [try] block
    with its handler, and the parse of what it fetched. *)
Definition search_uncached (e : env) (params : list (string * json)) : M json :=
  got <~ except_HTTPError (fetch e params);
  match got with
  | None => ret empty_result
  | Some data => lift (parse_results data)
  end.

(** [search_recipes(query, ingredients, diet, max_ready_time, number, offset)];
    [api_key] is [settings.SPOONACULAR_API_KEY]. *)
Definition search_recipes (e : env) (api_key : option string) (query : option string)
    (ingredients : option (list string)) (diet : option string)
    (max_ready_time : option Z) (number offset : Z) : M json :=
  let cache_key := search_cache_key query ingredients diet max_ready_time number offset in
  hit <~ read_cache e cache_key;
  match hit with
  | Some data => ret data
  | None =>
      let params := search_params api_key query ingredients diet max_ready_time number offset in
      got <~ except_HTTPError (fetch e params);
      match got with
      | None => ret empty_result
      | Some data =>
          result <~ lift (parse_results data);
          _ <~ except_pass (redis_setex e cache_key 3600 (json_dumps result)) tt;
          ret result
      end
  end.

End Recipes.

(** ** Groceries: [db/models/grocery.py], [schemas/grocery.py],
    [endpoints/groceries.py] *)
Module Grocery.

(** A [datetime], as a point on the time line: a value with its UTC offset,
    which is what the [DateTime(timezone=True)] columns hold and return.
    The schemas also take a datetime written without offset; such a value
    has no counterpart here, so the embedding covers the requests whose
    datetimes carry their offset. *)
Definition datetime : Type := Z.

Module FoodCategory.
Inductive t :=
  | DAIRY | MEAT | SEAFOOD | PRODUCE | BAKERY | FROZEN
  | PANTRY | BEVERAGES | CONDIMENTS | SNACKS | OTHER.

Definition value (c : t) : string :=
  match c with
  | DAIRY => "Dairy" | MEAT => "Meat" | SEAFOOD => "Seafood"
  | PRODUCE => "Produce" | BAKERY => "Bakery" | FROZEN => "Frozen"
  | PANTRY => "Pantry" | BEVERAGES => "Beverages"
  | CONDIMENTS => "Condiments" | SNACKS => "Snacks" | OTHER => "Other"
  end.

Definition members : list t :=
  [DAIRY; MEAT; SEAFOOD; PRODUCE; BAKERY; FROZEN;
   PANTRY; BEVERAGES; CONDIMENTS; SNACKS; OTHER].

(** pydantic's reading of a string as a member of the enumeration. *)
Definition of_value (s : string) : option t :=
  List.find (λ c, String.eqb (value c) s) members.
End FoodCategory.

Module StorageLocation.
Inductive t := REFRIGERATOR | FREEZER | PANTRY | COUNTER.

Definition value (l : t) : string :=
  match l with
  | REFRIGERATOR => "Refrigerator" | FREEZER => "Freezer"
  | PANTRY => "Pantry" | COUNTER => "Counter"
  end.

Definition members : list t := [REFRIGERATOR; FREEZER; PANTRY; COUNTER].

Definition of_value (s : string) : option t :=
  List.find (λ l, String.eqb (value l) s) members.
End StorageLocation.

(** A row of [grocery_items] without its primary key [id], which is the key
    under which the table holds the row. *)
Module GroceryItem.
Record t := {
  user_id : string;
  name : string;
  category : string;
  storage_location : string;
  quantity : float;
  unit : string;
  purchase_date : datetime;
  expiration_date : option datetime;
  predicted_expiration_date : option datetime;
  confidence_score : option float;
  barcode : option string;
  external_product_id : option string;
  notes : option string;
  image_url : option string;
  is_consumed : bool;
  consumed_date : option datetime;
  created_at : datetime;
  updated_at : datetime;
}.
End GroceryItem.

(** The table: [id] is its primary key, so it holds at most one row per id,
    whoever owns it. *)
Abbreviation table := (gmap string GroceryItem.t).

(** The width of the [id] column, [String(36)]. *)
Definition id_width : nat := 36.

(** [GroceryItemCreate] as it arrives in a request body, before validation:
    the enumerations are still strings, and [quantity] and [unit] may be
    absent. *)
Module ItemBody.
Record t := {
  name : string;
  category : string;
  storage_location : string;
  quantity : option float;
  unit : option string;
  purchase_date : datetime;
  expiration_date : option datetime;
  predicted_expiration_date : option datetime;
  confidence_score : option float;
  barcode : option string;
  notes : option string;
  id : option string;
}.
End ItemBody.

(** A validated [GroceryItemCreate]. *)
Module GroceryItemCreate.
Record t := {
  name : string;
  category : FoodCategory.t;
  storage_location : StorageLocation.t;
  quantity : float;
  unit : string;
  purchase_date : datetime;
  expiration_date : option datetime;
  predicted_expiration_date : option datetime;
  confidence_score : option float;
  barcode : option string;
  notes : option string;
  id : option string;
}.
End GroceryItemCreate.

(** A validated [GroceryItemUpdate].  Each field is [None] when the body
    does not mention it, [Some None] when the body sets it to [null] and
    [Some (Some v)] when the body gives it the value [v]; this is what
    [model_dump(exclude_unset=True)] tells apart. *)
Module GroceryItemUpdate.
Record t := {
  name : option (option string);
  category : option (option FoodCategory.t);
  storage_location : option (option StorageLocation.t);
  quantity : option (option float);
  unit : option (option string);
  purchase_date : option (option datetime);
  expiration_date : option (option datetime);
  predicted_expiration_date : option (option datetime);
  confidence_score : option (option float);
  barcode : option (option string);
  notes : option (option string);
  is_consumed : option (option bool);
  consumed_date : option (option datetime);
}.
End GroceryItemUpdate.

Module GroceryItemResponse.
Record t := {
  name : string;
  category : string;
  storage_location : string;
  quantity : float;
  unit : string;
  purchase_date : datetime;
  expiration_date : option datetime;
  predicted_expiration_date : option datetime;
  confidence_score : option float;
  barcode : option string;
  notes : option string;
  id : string;
  user_id : string;
  is_consumed : bool;
  consumed_date : option datetime;
  created_at : datetime;
  updated_at : datetime;
}.
End GroceryItemResponse.

Module SyncBody.
Record t := {
  items : list ItemBody.t;
  deleted_ids : list string;
  last_sync_at : option datetime;
}.
End SyncBody.

Module GrocerySyncRequest.
Record t := {
  items : list GroceryItemCreate.t;
  deleted_ids : list string;
  last_sync_at : option datetime;
}.
End GrocerySyncRequest.

Module GrocerySyncResponse.
Record t := {
  items : list GroceryItemResponse.t;
  deleted_ids : list string;
  sync_timestamp : datetime;
}.
End GrocerySyncResponse.

(** *** Validation of request bodies ([GroceryItemBase], [GroceryItemCreate]) *)

Definition max_length (n : nat) (s : string) : bool := (String.length s <=? n)%nat.

Definition optional {A} (p : A → bool) (o : option A) : bool :=
  match o with Some a => p a | None => true end.

(** The [Field] constraints: [name] has 1 to 255 characters, [quantity > 0],
    [unit] has at most 20 characters, [0 <= confidence_score <= 1],
    [barcode] has at most 50 characters. *)
Definition validate_item (b : ItemBody.t) : option GroceryItemCreate.t :=
  let quantity := default 1%float (ItemBody.quantity b) in
  let unit := default "piece" (ItemBody.unit b) in
  c ← FoodCategory.of_value (ItemBody.category b);
  l ← StorageLocation.of_value (ItemBody.storage_location b);
  if (1 <=? String.length (ItemBody.name b))%nat
     && max_length 255 (ItemBody.name b)
     && optional (PrimFloat.ltb 0%float) (ItemBody.quantity b)
     && optional (max_length 20) (ItemBody.unit b)
     && optional (λ s, PrimFloat.leb 0%float s && PrimFloat.leb s 1%float)
          (ItemBody.confidence_score b)
     && optional (max_length 50) (ItemBody.barcode b)
  then Some {|
    GroceryItemCreate.name := ItemBody.name b;
    GroceryItemCreate.category := c;
    GroceryItemCreate.storage_location := l;
    GroceryItemCreate.quantity := quantity;
    GroceryItemCreate.unit := unit;
    GroceryItemCreate.purchase_date := ItemBody.purchase_date b;
    GroceryItemCreate.expiration_date := ItemBody.expiration_date b;
    GroceryItemCreate.predicted_expiration_date := ItemBody.predicted_expiration_date b;
    GroceryItemCreate.confidence_score := ItemBody.confidence_score b;
    GroceryItemCreate.barcode := ItemBody.barcode b;
    GroceryItemCreate.notes := ItemBody.notes b;
    GroceryItemCreate.id := ItemBody.id b;
  |}
  else None.

(** [GrocerySyncRequest]: every element of [items] has to validate. *)
Definition validate_sync (b : SyncBody.t) : option GrocerySyncRequest.t :=
  items ← mapM validate_item (SyncBody.items b);
  Some {|
    GrocerySyncRequest.items := items;
    GrocerySyncRequest.deleted_ids := SyncBody.deleted_ids b;
    GrocerySyncRequest.last_sync_at := SyncBody.last_sync_at b;
  |}.

(** [grocery_to_response(item)].  The rows the handlers write satisfy the
    constraints [GroceryItemResponse] inherits from [GroceryItemBase], so
    the construction of the response model is taken to succeed; the
    enumerations are left as the strings the columns hold. *)
Definition grocery_to_response (id : string) (item : GroceryItem.t) : GroceryItemResponse.t := {|
  GroceryItemResponse.id := id;
  GroceryItemResponse.user_id := GroceryItem.user_id item;
  GroceryItemResponse.name := GroceryItem.name item;
  GroceryItemResponse.category := GroceryItem.category item;
  GroceryItemResponse.storage_location := GroceryItem.storage_location item;
  GroceryItemResponse.quantity := GroceryItem.quantity item;
  GroceryItemResponse.unit := GroceryItem.unit item;
  GroceryItemResponse.purchase_date := GroceryItem.purchase_date item;
  GroceryItemResponse.expiration_date := GroceryItem.expiration_date item;
  GroceryItemResponse.predicted_expiration_date := GroceryItem.predicted_expiration_date item;
  GroceryItemResponse.confidence_score := GroceryItem.confidence_score item;
  GroceryItemResponse.barcode := GroceryItem.barcode item;
  GroceryItemResponse.notes := GroceryItem.notes item;
  GroceryItemResponse.is_consumed := GroceryItem.is_consumed item;
  GroceryItemResponse.consumed_date := GroceryItem.consumed_date item;
  GroceryItemResponse.created_at := GroceryItem.created_at item;
  GroceryItemResponse.updated_at := GroceryItem.updated_at item;
|}.

(** *** Column comparison

    The unit of work writes a row back, and [onupdate=func.now()] sets
    [updated_at], only when an attribute differs from the loaded value. *)

Definition eq_opt {A} (eqb : A → A → bool) (x y : option A) : bool :=
  match x, y with
  | Some a, Some b => eqb a b
  | None, None => true
  | _, _ => false
  end.

Definition same_columns (a b : GroceryItem.t) : bool :=
  String.eqb (GroceryItem.name a) (GroceryItem.name b)
  && String.eqb (GroceryItem.category a) (GroceryItem.category b)
  && String.eqb (GroceryItem.storage_location a) (GroceryItem.storage_location b)
  && PrimFloat.eqb (GroceryItem.quantity a) (GroceryItem.quantity b)
  && String.eqb (GroceryItem.unit a) (GroceryItem.unit b)
  && (GroceryItem.purchase_date a =? GroceryItem.purchase_date b)
  && eq_opt Z.eqb (GroceryItem.expiration_date a) (GroceryItem.expiration_date b)
  && eq_opt Z.eqb (GroceryItem.predicted_expiration_date a)
       (GroceryItem.predicted_expiration_date b)
  && eq_opt PrimFloat.eqb (GroceryItem.confidence_score a) (GroceryItem.confidence_score b)
  && eq_opt String.eqb (GroceryItem.barcode a) (GroceryItem.barcode b)
  && eq_opt String.eqb (GroceryItem.notes a) (GroceryItem.notes b)
  && Bool.eqb (GroceryItem.is_consumed a) (GroceryItem.is_consumed b)
  && eq_opt Z.eqb (GroceryItem.consumed_date a) (GroceryItem.consumed_date b).

(** The row written at flush for a loaded row [old] whose attributes now
    read [new]. *)
Definition flushed (db_now : datetime) (old new : GroceryItem.t) : GroceryItem.t :=
  if same_columns old new then old
  else {|
    GroceryItem.user_id := GroceryItem.user_id new;
    GroceryItem.name := GroceryItem.name new;
    GroceryItem.category := GroceryItem.category new;
    GroceryItem.storage_location := GroceryItem.storage_location new;
    GroceryItem.quantity := GroceryItem.quantity new;
    GroceryItem.unit := GroceryItem.unit new;
    GroceryItem.purchase_date := GroceryItem.purchase_date new;
    GroceryItem.expiration_date := GroceryItem.expiration_date new;
    GroceryItem.predicted_expiration_date := GroceryItem.predicted_expiration_date new;
    GroceryItem.confidence_score := GroceryItem.confidence_score new;
    GroceryItem.barcode := GroceryItem.barcode new;
    GroceryItem.external_product_id := GroceryItem.external_product_id new;
    GroceryItem.notes := GroceryItem.notes new;
    GroceryItem.image_url := GroceryItem.image_url new;
    GroceryItem.is_consumed := GroceryItem.is_consumed new;
    GroceryItem.consumed_date := GroceryItem.consumed_date new;
    GroceryItem.created_at := GroceryItem.created_at new;
    GroceryItem.updated_at := db_now;
  |}.

(** *** What the store takes

    PostgreSQL, the store of [settings.DATABASE_URL], refuses a text that
    carries the character NUL, and a text longer than its [String(n)]
    column.  The statement then raises [sqlalchemy.exc.DBAPIError]. *)

Definition has_nul (s : string) : bool :=
  negb (all_chars (λ c, negb (ord c =? 0)%N) s).

(** A text for a column of the given width; [Text] has none. *)
Definition takes (width : option nat) (s : string) : bool :=
  negb (has_nul s) && optional (λ n, max_length n s) width.

(** The text columns of [GroceryItem], with their widths. *)
Definition row_taken (item_id : string) (row : GroceryItem.t) : bool :=
  takes (Some id_width) item_id
  && takes (Some 36%nat) (GroceryItem.user_id row)
  && takes (Some 255%nat) (GroceryItem.name row)
  && takes (Some 50%nat) (GroceryItem.category row)
  && takes (Some 50%nat) (GroceryItem.storage_location row)
  && takes (Some 20%nat) (GroceryItem.unit row)
  && optional (takes (Some 50%nat)) (GroceryItem.barcode row)
  && optional (takes (Some 255%nat)) (GroceryItem.external_product_id row)
  && optional (takes None) (GroceryItem.notes row)
  && optional (takes (Some 500%nat)) (GroceryItem.image_url row).

(** The text a sync item brings to the statements of its step: its id to
    the select, its other text to the INSERT or UPDATE of its row. *)
Definition item_taken (item_data : GroceryItemCreate.t) : bool :=
  optional (λ s, negb (has_nul s)) (GroceryItemCreate.id item_data)
  && takes (Some 255%nat) (GroceryItemCreate.name item_data)
  && takes (Some 20%nat) (GroceryItemCreate.unit item_data)
  && optional (takes (Some 50%nat)) (GroceryItemCreate.barcode item_data)
  && optional (takes None) (GroceryItemCreate.notes item_data).

(** The parameters of the DELETE of a sync. *)
Definition deleted_taken (deleted_ids : list string) : bool :=
  forallb (λ s, negb (has_nul s)) deleted_ids.

(** A condition on the value an entry of a PATCH body assigns: an absent
    field and a [null] assign no text. *)
Definition assigned {A} (p : A → bool) (entry : option (option A)) : bool :=
  match entry with Some (Some v) => p v | _ => true end.

(** The text a PATCH body brings to the UPDATE of its row. *)
Definition patch_taken (item_data : GroceryItemUpdate.t) : bool :=
  assigned (takes (Some 255%nat)) (GroceryItemUpdate.name item_data)
  && assigned (takes (Some 20%nat)) (GroceryItemUpdate.unit item_data)
  && assigned (takes (Some 50%nat)) (GroceryItemUpdate.barcode item_data)
  && assigned (takes None) (GroceryItemUpdate.notes item_data).

(** *** Attribute assignment

    [row <| field := v |>], one function per column a handler assigns. *)
Module Set_.
Import GroceryItem.
Definition name (v : string) (r : t) : t :=
  let 'Build_t u _ c s q un pd ed ped cs b ep no iu ic cd ca ua := r in
  Build_t u v c s q un pd ed ped cs b ep no iu ic cd ca ua.
Definition category (v : string) (r : t) : t :=
  let 'Build_t u n _ s q un pd ed ped cs b ep no iu ic cd ca ua := r in
  Build_t u n v s q un pd ed ped cs b ep no iu ic cd ca ua.
Definition storage_location (v : string) (r : t) : t :=
  let 'Build_t u n c _ q un pd ed ped cs b ep no iu ic cd ca ua := r in
  Build_t u n c v q un pd ed ped cs b ep no iu ic cd ca ua.
Definition quantity (v : float) (r : t) : t :=
  let 'Build_t u n c s _ un pd ed ped cs b ep no iu ic cd ca ua := r in
  Build_t u n c s v un pd ed ped cs b ep no iu ic cd ca ua.
Definition unit (v : string) (r : t) : t :=
  let 'Build_t u n c s q _ pd ed ped cs b ep no iu ic cd ca ua := r in
  Build_t u n c s q v pd ed ped cs b ep no iu ic cd ca ua.
Definition purchase_date (v : datetime) (r : t) : t :=
  let 'Build_t u n c s q un _ ed ped cs b ep no iu ic cd ca ua := r in
  Build_t u n c s q un v ed ped cs b ep no iu ic cd ca ua.
Definition expiration_date (v : option datetime) (r : t) : t :=
  let 'Build_t u n c s q un pd _ ped cs b ep no iu ic cd ca ua := r in
  Build_t u n c s q un pd v ped cs b ep no iu ic cd ca ua.
Definition predicted_expiration_date (v : option datetime) (r : t) : t :=
  let 'Build_t u n c s q un pd ed _ cs b ep no iu ic cd ca ua := r in
  Build_t u n c s q un pd ed v cs b ep no iu ic cd ca ua.
Definition confidence_score (v : option float) (r : t) : t :=
  let 'Build_t u n c s q un pd ed ped _ b ep no iu ic cd ca ua := r in
  Build_t u n c s q un pd ed ped v b ep no iu ic cd ca ua.
Definition barcode (v : option string) (r : t) : t :=
  let 'Build_t u n c s q un pd ed ped cs _ ep no iu ic cd ca ua := r in
  Build_t u n c s q un pd ed ped cs v ep no iu ic cd ca ua.
Definition notes (v : option string) (r : t) : t :=
  let 'Build_t u n c s q un pd ed ped cs b ep _ iu ic cd ca ua := r in
  Build_t u n c s q un pd ed ped cs b ep v iu ic cd ca ua.
Definition is_consumed (v : bool) (r : t) : t :=
  let 'Build_t u n c s q un pd ed ped cs b ep no iu _ cd ca ua := r in
  Build_t u n c s q un pd ed ped cs b ep no iu v cd ca ua.
Definition consumed_date (v : option datetime) (r : t) : t :=
  let 'Build_t u n c s q un pd ed ped cs b ep no iu ic _ ca ua := r in
  Build_t u n c s q un pd ed ped cs b ep no iu ic v ca ua.
End Set_.

(** *** The handlers

    [current_user] is the id of the user the authentication dependency
    yields; [db_now] is [func.now()] in the handler's transaction.  A handler
    returns its outcome and the table as committed: an exception leaves it
    before [db.commit()], so the table is then the one it started from. *)
Section Handlers.
Variable current_user : string.
Variable db_now : datetime.

(** [select(GroceryItem).where(GroceryItem.id == item_id,
    GroceryItem.user_id == current_user.id)], [scalar_one_or_none()]. *)
Definition select_item (tbl : table) (item_id : string) : option GroceryItem.t :=
  match tbl !! item_id with
  | Some row =>
      if String.eqb (GroceryItem.user_id row) current_user then Some row else None
  | None => None
  end.

(** [select(GroceryItem).where(GroceryItem.user_id == current_user.id)],
    turned into responses.  [sync_groceries] builds them from the objects
    of its session after the commit, without a refresh: an object the loop
    has assigned to reads as it was assigned.  With the datetimes of the
    model the attributes assigned are the ones the row holds, and the
    responses are given as those of the rows. *)
Definition select_all (tbl : table) : list GroceryItemResponse.t :=
  (λ kv, grocery_to_response kv.1 kv.2) <$>
    map_to_list (filter (λ kv, GroceryItem.user_id kv.2 = current_user) tbl).

(** The INSERT of a pending row: the store has to take its text
    ([row_taken]), and the primary key has to be free.  The error surfaces
    at the flush, before the next query or at [db.commit()]: either way it
    leaves the handler uncommitted. *)
Definition insert_row (tbl : table) (item_id : string) (row : GroceryItem.t) : result table :=
  if negb (row_taken item_id row) then Raise DBAPIError
  else match tbl !! item_id with
       | Some _ => Raise IntegrityError
       | None => Ok (<[item_id := row]> tbl)
       end.

(** [delete(GroceryItem).where(GroceryItem.id.in_(deleted_ids),
    GroceryItem.user_id == current_user.id)] *)
Definition delete_items (tbl : table) (deleted_ids : list string) : table :=
  filter (λ kv, ¬ (kv.1 ∈ deleted_ids ∧ GroceryItem.user_id kv.2 = current_user)) tbl.

(** "Process deleted items from client": the statement is issued only [if
    sync_request.deleted_ids].  This is its effect on the table; the ids are
    its parameters, and [sync_groceries] fails on the statement when the
    store refuses one of them ([deleted_taken]). *)
Definition process_deleted (tbl : table) (deleted_ids : list string) : table :=
  match deleted_ids with
  | [] => tbl
  | _ => delete_items tbl deleted_ids
  end.

(** The row of [GroceryItem(id=item_id, user_id=current_user.id, ...)] once
    inserted: columns the constructor does not name take their defaults. *)
Definition new_item (item_data : GroceryItemCreate.t) : GroceryItem.t := {|
  GroceryItem.user_id := current_user;
  GroceryItem.name := GroceryItemCreate.name item_data;
  GroceryItem.category := FoodCategory.value (GroceryItemCreate.category item_data);
  GroceryItem.storage_location :=
    StorageLocation.value (GroceryItemCreate.storage_location item_data);
  GroceryItem.quantity := GroceryItemCreate.quantity item_data;
  GroceryItem.unit := GroceryItemCreate.unit item_data;
  GroceryItem.purchase_date := GroceryItemCreate.purchase_date item_data;
  GroceryItem.expiration_date := GroceryItemCreate.expiration_date item_data;
  GroceryItem.predicted_expiration_date :=
    GroceryItemCreate.predicted_expiration_date item_data;
  GroceryItem.confidence_score := GroceryItemCreate.confidence_score item_data;
  GroceryItem.barcode := GroceryItemCreate.barcode item_data;
  GroceryItem.external_product_id := None;
  GroceryItem.notes := GroceryItemCreate.notes item_data;
  GroceryItem.image_url := None;
  GroceryItem.is_consumed := false;
  GroceryItem.consumed_date := None;
  GroceryItem.created_at := db_now;
  GroceryItem.updated_at := db_now;
|}.

(** The eleven assignments of the "update existing item" branch. *)
Definition overwrite (existing_item : GroceryItem.t) (item_data : GroceryItemCreate.t)
    : GroceryItem.t :=
  Set_.notes (GroceryItemCreate.notes item_data)
  (Set_.barcode (GroceryItemCreate.barcode item_data)
  (Set_.confidence_score (GroceryItemCreate.confidence_score item_data)
  (Set_.predicted_expiration_date (GroceryItemCreate.predicted_expiration_date item_data)
  (Set_.expiration_date (GroceryItemCreate.expiration_date item_data)
  (Set_.purchase_date (GroceryItemCreate.purchase_date item_data)
  (Set_.unit (GroceryItemCreate.unit item_data)
  (Set_.quantity (GroceryItemCreate.quantity item_data)
  (Set_.storage_location
     (StorageLocation.value (GroceryItemCreate.storage_location item_data))
  (Set_.category (FoodCategory.value (GroceryItemCreate.category item_data))
  (Set_.name (GroceryItemCreate.name item_data) existing_item)))))))))).

(** [uuid4 k] is the string of the [k]-th [uuid.uuid4()] of the call. *)
Section Sync.
Variable uuid4 : nat → string.

(** [item_data.id or str(uuid.uuid4())], with the number of identifiers
    drawn so far. *)
Definition item_id_of (item_data : GroceryItemCreate.t) (drawn : nat) : string * nat :=
  match GroceryItemCreate.id item_data with
  | Some s => if is_empty s then (uuid4 drawn, S drawn) else (s, drawn)
  | None => (uuid4 drawn, S drawn)
  end.

(** The body of the loop over [sync_request.items].  The session
    flushes before each query (autoflush, the default of a session; the
    session factory of [app/db] is not among the sources), so a row added
    for an earlier item is found by the query of a later one, as the
    specification's tie-break "last one in the list wins" has it. *)
Definition sync_item (st : table * nat) (item_data : GroceryItemCreate.t)
    : result (table * nat) :=
  let '(item_id, drawn) := item_id_of item_data st.2 in
  match select_item st.1 item_id with
  | Some existing_item =>
      Ok (<[item_id := flushed db_now existing_item (overwrite existing_item item_data)]> st.1,
          drawn)
  | None =>
      tbl ← insert_row st.1 item_id (new_item item_data);
      Ok (tbl, drawn)
  end.

(** An iteration of the loop as the store sees it.  The statements of an
    item carry its text: the select its id, and the INSERT or UPDATE of the
    row the iteration leaves pending, flushed before the next query or at
    [db.commit()], the rest.  Text the store refuses fails the call there,
    before any statement of a later item; the refusal of a value comes
    before the check of the key. *)
Definition sync_step (st : table * nat) (item_data : GroceryItemCreate.t)
    : result (table * nat) :=
  if item_taken item_data then sync_item st item_data else Raise DBAPIError.

Fixpoint sync_items (st : table * nat) (items : list GroceryItemCreate.t)
    : result (table * nat) :=
  match items with
  | [] => Ok st
  | item_data :: rest => st' ← sync_step st item_data; sync_items st' rest
  end.

(** The ids of the rows the loop writes, item by item. *)
Fixpoint item_ids (items : list GroceryItemCreate.t) (drawn : nat) : list string :=
  match items with
  | [] => []
  | item_data :: rest =>
      let '(item_id, drawn') := item_id_of item_data drawn in
      item_id :: item_ids rest drawn'
  end.

(** [sync_groceries(sync_request)] on a validated request. *)
Definition sync_groceries (sync_timestamp : datetime) (tbl : table)
    (sync_request : GrocerySyncRequest.t) : result GrocerySyncResponse.t * table :=
  let server_deleted_ids : list string := [] in
  if negb (deleted_taken (GrocerySyncRequest.deleted_ids sync_request))
  then (Raise DBAPIError, tbl)
  else
    let deleted := process_deleted tbl (GrocerySyncRequest.deleted_ids sync_request) in
    match sync_items (deleted, 0%nat) (GrocerySyncRequest.items sync_request) with
    | Raise e => (Raise e, tbl)
    | Ok (merged, _) =>
        (Ok {| GrocerySyncResponse.items := select_all merged;
               GrocerySyncResponse.deleted_ids := server_deleted_ids;
               GrocerySyncResponse.sync_timestamp := sync_timestamp |},
         merged)
    end.

(** [POST /groceries/sync]: the body is validated against
    [GrocerySyncRequest] before the handler runs. *)
Definition post_sync (sync_timestamp : datetime) (tbl : table) (body : SyncBody.t)
    : result GrocerySyncResponse.t * table :=
  match validate_sync body with
  | None => (Raise RequestValidationError, tbl)
  | Some sync_request => sync_groceries sync_timestamp tbl sync_request
  end.
End Sync.

(** The object [update_grocery] assigns to: its attributes, and whether a
    column declared NOT NULL has been assigned [None] (the attribute then
    keeps its place in [attrs]; the flush fails on it). *)
Record pending := { attrs : GroceryItem.t; null_in_required : bool }.

(** [setattr(item, field, value)] for an entry of [update_data], on a
    column that is NOT NULL and on a nullable one. *)
Definition set_required {A} (set : A → GroceryItem.t → GroceryItem.t)
    (entry : option (option A)) (o : pending) : pending :=
  match entry with
  | None => o
  | Some None => {| attrs := attrs o; null_in_required := true |}
  | Some (Some v) => {| attrs := set v (attrs o); null_in_required := null_in_required o |}
  end.

Definition set_nullable {A} (set : option A → GroceryItem.t → GroceryItem.t)
    (entry : option (option A)) (o : pending) : pending :=
  match entry with
  | None => o
  | Some v => {| attrs := set v (attrs o); null_in_required := null_in_required o |}
  end.

(** The loop over [item_data.model_dump(exclude_unset=True)], in the order
    of the fields of [GroceryItemUpdate]. *)
Definition apply_update (item_data : GroceryItemUpdate.t) (o : pending) : pending :=
  set_nullable Set_.consumed_date (GroceryItemUpdate.consumed_date item_data)
  (set_required Set_.is_consumed (GroceryItemUpdate.is_consumed item_data)
  (set_nullable Set_.notes (GroceryItemUpdate.notes item_data)
  (set_nullable Set_.barcode (GroceryItemUpdate.barcode item_data)
  (set_nullable Set_.confidence_score (GroceryItemUpdate.confidence_score item_data)
  (set_nullable Set_.predicted_expiration_date
     (GroceryItemUpdate.predicted_expiration_date item_data)
  (set_nullable Set_.expiration_date (GroceryItemUpdate.expiration_date item_data)
  (set_required Set_.purchase_date (GroceryItemUpdate.purchase_date item_data)
  (set_required Set_.unit (GroceryItemUpdate.unit item_data)
  (set_required Set_.quantity (GroceryItemUpdate.quantity item_data)
  (set_required (λ l, Set_.storage_location (StorageLocation.value l))
     (GroceryItemUpdate.storage_location item_data)
  (set_required (λ c, Set_.category (FoodCategory.value c))
     (GroceryItemUpdate.category item_data)
  (set_required Set_.name (GroceryItemUpdate.name item_data) o)))))))))))).

(** [update_grocery(item_id, item_data)], the handler of
    [PATCH /groceries/{item_id}], on a validated body.  The UPDATE is
    flushed at [db.commit()]: text the store refuses fails it before the
    NOT NULL constraints are checked.  The response is built from the row
    as refreshed. *)
Definition update_grocery (tbl : table) (item_id : string) (item_data : GroceryItemUpdate.t)
    : result GroceryItemResponse.t * table :=
  match select_item tbl item_id with
  | None => (Raise (HTTPException 404), tbl)
  | Some item =>
      if negb (patch_taken item_data) then (Raise DBAPIError, tbl)
      else
        let o := apply_update item_data {| attrs := item; null_in_required := false |} in
        if null_in_required o then (Raise IntegrityError, tbl)
        else
          let row := flushed db_now item (attrs o) in
          (Ok (grocery_to_response item_id row), <[item_id := row]> tbl)
  end.
End Handlers.

End Grocery.

(** ** The item handlers of [endpoints/groceries.py]

    [get_groceries], [create_grocery], [get_grocery], [delete_grocery] and
    [mark_consumed], beside the [update_grocery] and [sync_groceries] of
    [Grocery], over the same table. *)
Module Items.
Import Grocery.

(** The order of [order_by(GroceryItem.purchase_date.desc())]: the purchase
    of [a] is not before that of [b]. *)
Definition purchased_desc (a b : string * GroceryItem.t) : Prop :=
  GroceryItem.purchase_date b.2 ≤ GroceryItem.purchase_date a.2.

#[global] Instance purchased_desc_dec : RelDecision purchased_desc.
Proof. intros a b. unfold purchased_desc. apply _. Defined.

Section Handlers.
Variable current_user : string.
Variable db_now : datetime.

(** The [where] clauses of [get_groceries]: the caller's rows, without the
    consumed ones unless [include_consumed], and of the given category and
    storage location when the parameter is given and not empty ([if
    category:], [if storage_location:]). *)
Definition selected (category storage_location : option string) (include_consumed : bool)
    (row : GroceryItem.t) : bool :=
  String.eqb (GroceryItem.user_id row) current_user
  && (include_consumed || negb (GroceryItem.is_consumed row))
  && (if Recipes.given_str category
      then String.eqb (GroceryItem.category row) (Recipes.or_empty category) else true)
  && (if Recipes.given_str storage_location
      then String.eqb (GroceryItem.storage_location row) (Recipes.or_empty storage_location)
      else true).

(** [get_groceries(category, storage_location, include_consumed, skip,
    limit)], the handler of [GET /groceries].  [Query(0, ge=0)] and
    [Query(100, ge=1, le=500)] reject a [skip] or [limit] out of bounds
    before the handler runs.  The query leaves the order among rows of the
    same [purchase_date] to the database; here they come as the sort of the
    table's listing leaves them. *)
Definition get_groceries (tbl : table) (category storage_location : option string)
    (include_consumed : bool) (skip limit : Z) : result (list GroceryItemResponse.t) :=
  if negb (0 <=? skip) || negb ((1 <=? limit) && (limit <=? 500))
  then Raise RequestValidationError
  else
    let rows :=
      map_to_list
        (filter (λ kv, selected category storage_location include_consumed kv.2 = true) tbl) in
    let ordered := merge_sort purchased_desc rows in
    let items := take (Z.to_nat limit) (drop (Z.to_nat skip) ordered) in
    Ok ((λ kv, grocery_to_response kv.1 kv.2) <$> items).

(** [get_grocery(item_id)], the handler of [GET /groceries/{item_id}]. *)
Definition get_grocery (tbl : table) (item_id : string) : result GroceryItemResponse.t :=
  match select_item current_user tbl item_id with
  | None => Raise (HTTPException 404)
  | Some item => Ok (grocery_to_response item_id item)
  end.

(** [create_grocery(item_data)] on a validated body: the id is
    [item_data.id or str(uuid.uuid4())], the row is added and committed, and
    the response is built from the row as refreshed. *)
Definition create_grocery (uuid4 : nat → string) (tbl : table) (item_data : GroceryItemCreate.t)
    : result GroceryItemResponse.t * table :=
  let item_id := (item_id_of uuid4 item_data 0).1 in
  let item := new_item current_user db_now item_data in
  match insert_row tbl item_id item with
  | Raise e => (Raise e, tbl)
  | Ok tbl' => (Ok (grocery_to_response item_id item), tbl')
  end.

(** [POST /groceries]: the body is validated against [GroceryItemCreate]
    before the handler runs. *)
Definition post_grocery (uuid4 : nat → string) (tbl : table) (body : ItemBody.t)
    : result GroceryItemResponse.t * table :=
  match validate_item body with
  | None => (Raise RequestValidationError, tbl)
  | Some item_data => create_grocery uuid4 tbl item_data
  end.

(** [delete_grocery(item_id)], the handler of [DELETE /groceries/{item_id}].
    The [consumption_records] the delete cascades to are not part of the
    model. *)
Definition delete_grocery (tbl : table) (item_id : string) : result unit * table :=
  match select_item current_user tbl item_id with
  | None => (Raise (HTTPException 404), tbl)
  | Some _ => (Ok tt, delete item_id tbl)
  end.

(** [mark_consumed(item_id)], the handler of
    [POST /groceries/{item_id}/consume]; [now_utc] is the handler's
    [datetime.now(timezone.utc)]. *)
Definition mark_consumed (now_utc : datetime) (tbl : table) (item_id : string)
    : result GroceryItemResponse.t * table :=
  match select_item current_user tbl item_id with
  | None => (Raise (HTTPException 404), tbl)
  | Some item =>
      let row :=
        flushed db_now item
          (Set_.consumed_date (Some now_utc) (Set_.is_consumed true item)) in
      (Ok (grocery_to_response item_id row), <[item_id := row]> tbl)
  end.
End Handlers.

(** The body [{"is_consumed": true, "consumed_date": now_utc}] of a PATCH. *)
Definition consumption (now_utc : datetime) : GroceryItemUpdate.t := {|
  GroceryItemUpdate.name := None;
  GroceryItemUpdate.category := None;
  GroceryItemUpdate.storage_location := None;
  GroceryItemUpdate.quantity := None;
  GroceryItemUpdate.unit := None;
  GroceryItemUpdate.purchase_date := None;
  GroceryItemUpdate.expiration_date := None;
  GroceryItemUpdate.predicted_expiration_date := None;
  GroceryItemUpdate.confidence_score := None;
  GroceryItemUpdate.barcode := None;
  GroceryItemUpdate.notes := None;
  GroceryItemUpdate.is_consumed := Some (Some true);
  GroceryItemUpdate.consumed_date := Some (Some now_utc);
|}.

(** The [Field] constraints and the enumerations of [GroceryItemBase], which
    [GroceryItemResponse] inherits, read on a row: what the construction of
    a response from the row checks. *)
Definition response_constraints (row : GroceryItem.t) : bool :=
  (1 <=? String.length (GroceryItem.name row))%nat
  && max_length 255 (GroceryItem.name row)
  && bool_decide (is_Some (FoodCategory.of_value (GroceryItem.category row)))
  && bool_decide (is_Some (StorageLocation.of_value (GroceryItem.storage_location row)))
  && PrimFloat.ltb 0%float (GroceryItem.quantity row)
  && max_length 20 (GroceryItem.unit row)
  && optional (λ s, PrimFloat.leb 0%float s && PrimFloat.leb s 1%float)
       (GroceryItem.confidence_score row)
  && optional (max_length 50) (GroceryItem.barcode row).

(** A [Field] constraint of [GroceryItemUpdate] on an entry of the body: it
    bears on a value, not on an absent field or on [null]. *)
Definition given {A} (p : A → bool) (entry : option (option A)) : bool :=
  match entry with Some (Some v) => p v | _ => true end.

(** The [Field] constraints of [GroceryItemUpdate]. *)
Definition update_constraints (item_data : GroceryItemUpdate.t) : bool :=
  given (λ s, (1 <=? String.length s)%nat && max_length 255 s) (GroceryItemUpdate.name item_data)
  && given (PrimFloat.ltb 0%float) (GroceryItemUpdate.quantity item_data)
  && given (max_length 20) (GroceryItemUpdate.unit item_data)
  && given (λ s, PrimFloat.leb 0%float s && PrimFloat.leb s 1%float)
       (GroceryItemUpdate.confidence_score item_data)
  && given (max_length 50) (GroceryItemUpdate.barcode item_data).

(** [PATCH /groceries/{item_id}]: the body is validated against
    [GroceryItemUpdate] before the handler runs. *)
Definition patch_grocery (current_user : string) (db_now : datetime) (tbl : table)
    (item_id : string) (item_data : GroceryItemUpdate.t)
    : result GroceryItemResponse.t * table :=
  if update_constraints item_data
  then update_grocery current_user db_now tbl item_id item_data
  else (Raise RequestValidationError, tbl).

(** The nullable columns a PATCH body names hold what it gives them, [null]
    included; [confidence_score] up to the equality of floats, which is what
    the flush compares with. *)
Definition nullable_fields_set (item_data : GroceryItemUpdate.t) (row : GroceryItem.t) : Prop :=
  (∀ v, GroceryItemUpdate.expiration_date item_data = Some v →
     GroceryItem.expiration_date row = v)
  ∧ (∀ v, GroceryItemUpdate.predicted_expiration_date item_data = Some v →
     GroceryItem.predicted_expiration_date row = v)
  ∧ (∀ v, GroceryItemUpdate.confidence_score item_data = Some v →
     eq_opt PrimFloat.eqb (GroceryItem.confidence_score row) v = true)
  ∧ (∀ v, GroceryItemUpdate.barcode item_data = Some v → GroceryItem.barcode row = v)
  ∧ (∀ v, GroceryItemUpdate.notes item_data = Some v → GroceryItem.notes row = v)
  ∧ (∀ v, GroceryItemUpdate.consumed_date item_data = Some v →
     GroceryItem.consumed_date row = v).

(** The body [{}] of a PATCH: no field is set. *)
Definition nothing : GroceryItemUpdate.t := {|
  GroceryItemUpdate.name := None;
  GroceryItemUpdate.category := None;
  GroceryItemUpdate.storage_location := None;
  GroceryItemUpdate.quantity := None;
  GroceryItemUpdate.unit := None;
  GroceryItemUpdate.purchase_date := None;
  GroceryItemUpdate.expiration_date := None;
  GroceryItemUpdate.predicted_expiration_date := None;
  GroceryItemUpdate.confidence_score := None;
  GroceryItemUpdate.barcode := None;
  GroceryItemUpdate.notes := None;
  GroceryItemUpdate.is_consumed := None;
  GroceryItemUpdate.consumed_date := None;
|}.

(** A PATCH body that sets to [null] a field whose column is NOT NULL. *)
Definition nulls_a_required_column (item_data : GroceryItemUpdate.t) : Prop :=
  GroceryItemUpdate.name item_data = Some None
  ∨ GroceryItemUpdate.category item_data = Some None
  ∨ GroceryItemUpdate.storage_location item_data = Some None
  ∨ GroceryItemUpdate.quantity item_data = Some None
  ∨ GroceryItemUpdate.unit item_data = Some None
  ∨ GroceryItemUpdate.purchase_date item_data = Some None
  ∨ GroceryItemUpdate.is_consumed item_data = Some None.

(** An item that carries the id [x]. *)
Definition identified (item_data : GroceryItemCreate.t) (x : string) : Prop :=
  GroceryItemCreate.id item_data = Some x ∧ x ≠ "".

(** The row already holds what the item submits: the eleven assignments of
    the "update existing item" branch leave every column as the comparison
    at flush sees it. *)
Definition up_to_date (row : GroceryItem.t) (item_data : GroceryItemCreate.t) : Prop :=
  same_columns row (overwrite row item_data) = true.

(** The row [r] with [updated_at] at [t], and two rows that differ in
    [updated_at] at most: what an UPDATE that gives every column it names
    the value the column has leaves of a row. *)
Definition restamped (t : datetime) (r : GroceryItem.t) : GroceryItem.t :=
  let 'GroceryItem.Build_t u n c s q un pd ed ped cs b ep no iu ic cd ca _ := r in
  GroceryItem.Build_t u n c s q un pd ed ped cs b ep no iu ic cd ca t.

Definition same_but_updated_at (a b : GroceryItem.t) : Prop :=
  ∃ t, b = restamped t a.

(** A table every row of which passes the construction of its response. *)
Definition well_formed (tbl : table) : Prop :=
  ∀ k row, tbl !! k = Some row → response_constraints row = true.

End Items.

(** ** The other methods of [SpoonacularService] *)
Module RecipeService.
Import Recipes.

(** The provider declines a request: it fails in transport, or the status
    of the response is not a 2xx. *)
Definition declined (e : env) (url : string) (params : list (string * json)) : Prop :=
  upstream e url params = Failure
  ∨ ∃ r, upstream e url params = Reply r ∧ (status_code r < 200 ∨ 299 < status_code r).

(** The provider answers a request with a 2xx. *)
Definition answered (e : env) (url : string) (params : list (string * json)) : Prop :=
  ∃ r, upstream e url params = Reply r ∧ 200 ≤ status_code r ≤ 299.

(** The request inside the second [try] block of [search_by_ingredients]. *)
Definition fetch_by_ingredients (e : env) (params : list (string * json)) : M json :=
  response <~ http_get e (BASE_URL +:+ "/recipes/findByIngredients") params;
  _ <~ raise_for_status response;
  lift (json_loads (body response)).

(** [{"name": i.get("name", ""), "image": i.get("image", "")}] *)
Definition ingredient_info (i : json) : result json :=
  name ← get i "name" (JStr "");
  image ← get i "image" (JStr "");
  Ok (JObj [ ("name", name); ("image", image) ]).

(** The comprehension over [data.get("usedIngredients", [])] and over
    [data.get("missedIngredients", [])]. *)
Definition ingredient_infos (listed : json) : result json :=
  elements ← iterate listed;
  infos ← mapM ingredient_info elements;
  Ok (JArr infos).

(** [_parse_ingredient_search_result(data)] *)
Definition _parse_ingredient_search_result (data : json) : result json :=
  id ← get data "id" JNull;
  title ← get data "title" (JStr "");
  image ← get data "image" (JStr "");
  used_count ← get data "usedIngredientCount" (JInt 0);
  missed_count ← get data "missedIngredientCount" (JInt 0);
  used ← get data "usedIngredients" (JArr []);
  used_ingredients ← ingredient_infos used;
  missed ← get data "missedIngredients" (JArr []);
  missed_ingredients ← ingredient_infos missed;
  Ok (JObj [ ("id", id); ("title", title); ("image", image);
             ("used_ingredient_count", used_count);
             ("missed_ingredient_count", missed_count);
             ("used_ingredients", used_ingredients);
             ("missed_ingredients", missed_ingredients) ]).

Definition by_ingredients_cache_key (ingredients : list string) (number ranking : Z) : string :=
  "recipes:byingredients:" +:+ join "," (sorted ingredients)
  +:+ ":" +:+ pretty number +:+ ":" +:+ pretty ranking.

Definition by_ingredients_params (api_key : option string) (ingredients : list string)
    (number ranking : Z) : list (string * json) :=
  [ ("apiKey", from_option JStr JNull api_key);
    ("ingredients", JStr (join "," ingredients));
    ("number", JInt (Z.min number 100));
    ("ranking", JInt ranking);
    ("ignorePantry", JBool true) ].

(** [search_by_ingredients(ingredients, number, ranking)] *)
Definition search_by_ingredients (e : env) (api_key : option string)
    (ingredients : list string) (number ranking : Z) : M json :=
  let cache_key := by_ingredients_cache_key ingredients number ranking in
  hit <~ read_cache e cache_key;
  match hit with
  | Some data => ret data
  | None =>
      let params := by_ingredients_params api_key ingredients number ranking in
      got <~ except_HTTPError (fetch_by_ingredients e params);
      match got with
      | None => ret (JArr [])
      | Some data =>
          elements <~ lift (iterate data);
          results <~ lift (mapM _parse_ingredient_search_result elements);
          _ <~ except_pass (redis_setex e cache_key 3600 (json_dumps (JArr results))) tt;
          ret (JArr results)
      end
  end.

(** [analyzed[0]] for a value that is true: the first element of a list,
    the first character of a string; a dict has no key [0], and nothing else
    can be subscripted. *)
Definition first_item (analyzed : json) : result json :=
  match analyzed with
  | JArr (x :: _) => Ok x
  | JStr (String c _) => Ok (JStr (String c ""))
  | JObj _ => Raise KeyError
  | _ => Raise TypeError
  end.

(** [[i.get("name", "") for i in listed]] *)
Definition names (listed : json) : result json :=
  elements ← iterate listed;
  found ← mapM (λ i, get i "name" (JStr "")) elements;
  Ok (JArr found).

(** The dict appended to [instructions] for a step. *)
Definition instruction (step : json) : result json :=
  number ← get step "number" JNull;
  text ← get step "step" (JStr "");
  listed ← get step "ingredients" (JArr []);
  ingredients ← names listed;
  used ← get step "equipment" (JArr []);
  equipment ← names used;
  Ok (JObj [ ("number", number); ("step", text);
             ("ingredients", ingredients); ("equipment", equipment) ]).

Definition detail_cache_key (recipe_id : Z) : string := "recipes:detail:" +:+ pretty recipe_id.

Definition detail_url (recipe_id : Z) : string :=
  BASE_URL +:+ "/recipes/" +:+ pretty recipe_id +:+ "/information".

Definition detail_params (api_key : option string) : list (string * json) :=
  [ ("apiKey", from_option JStr JNull api_key); ("includeNutrition", JBool false) ].

(** The second [try] block of [get_recipe_details]: [None] stands for the
    [return None] on a 404. *)
Definition fetch_detail (e : env) (api_key : option string) (recipe_id : Z) : M (option json) :=
  response <~ http_get e (detail_url recipe_id) (detail_params api_key);
  if status_code response =? 404 then ret None else
  _ <~ raise_for_status response;
  data <~ lift (json_loads (body response));
  ret (Some data).

(** [str_of v] is the text an f-string gives for [v]; for a [str] it is the
    [str] itself. *)
Section Detail.
Variable str_of : json → string.

(** The [image] entry of an ingredient: the conditional expression tests
    [ing.get("image")] and then formats [ing.get('image', '')]. *)
Definition ingredient_image (ing : json) : result json :=
  image ← get ing "image" JNull;
  if truthy image then
    shown ← get ing "image" (JStr "");
    Ok (JStr ("https://spoonacular.com/cdn/ingredients_100x100/" +:+ str_of shown))
  else Ok JNull.

(** The dict appended to [ingredients] for an element of
    [extendedIngredients]. *)
Definition extended_ingredient (ing : json) : result json :=
  id ← get ing "id" JNull;
  name ← get ing "name" (JStr "");
  original ← get ing "original" (JStr "");
  amount ← get ing "amount" JNull;
  unit ← get ing "unit" (JStr "");
  image ← ingredient_image ing;
  Ok (JObj [ ("id", id); ("name", name); ("original", original);
             ("amount", amount); ("unit", unit); ("image", image) ]).

(** [_parse_recipe_detail(data)] *)
Definition _parse_recipe_detail (data : json) : result json :=
  extended ← get data "extendedIngredients" (JArr []);
  elements ← iterate extended;
  ingredients ← mapM extended_ingredient elements;
  analyzed ← get data "analyzedInstructions" (JArr []);
  instructions ←
    (if truthy analyzed then
       first ← first_item analyzed;
       listed ← get first "steps" (JArr []);
       steps ← iterate listed;
       mapM instruction steps
     else Ok []);
  id ← get data "id" JNull;
  title ← get data "title" (JStr "");
  image ← get data "image" (JStr "");
  ready ← get data "readyInMinutes" JNull;
  servings ← get data "servings" JNull;
  source_url ← get data "sourceUrl" (JStr "");
  source_name ← get data "sourceName" (JStr "");
  summary ← get data "summary" (JStr "");
  diets ← get data "diets" (JArr []);
  dish_types ← get data "dishTypes" (JArr []);
  cuisines ← get data "cuisines" (JArr []);
  vegetarian ← get data "vegetarian" (JBool false);
  vegan ← get data "vegan" (JBool false);
  gluten_free ← get data "glutenFree" (JBool false);
  dairy_free ← get data "dairyFree" (JBool false);
  health_score ← get data "healthScore" JNull;
  instructions_text ← get data "instructions" (JStr "");
  Ok (JObj [ ("id", id); ("title", title); ("image", image);
             ("ready_in_minutes", ready); ("servings", servings);
             ("source_url", source_url); ("source_name", source_name);
             ("summary", summary); ("diets", diets); ("dish_types", dish_types);
             ("cuisines", cuisines); ("vegetarian", vegetarian); ("vegan", vegan);
             ("gluten_free", gluten_free); ("dairy_free", dairy_free);
             ("health_score", health_score);
             ("ingredients", JArr ingredients);
             ("instructions", JArr instructions);
             ("instructions_text", instructions_text) ]).

(** [get_recipe_details(recipe_id)]; [JNull] is Python's [None]. *)
Definition get_recipe_details (e : env) (api_key : option string) (recipe_id : Z) : M json :=
  let cache_key := detail_cache_key recipe_id in
  hit <~ read_cache e cache_key;
  match hit with
  | Some data => ret data
  | None =>
      got <~ except_HTTPError (fetch_detail e api_key recipe_id);
      match got with
      | None | Some None => ret JNull
      | Some (Some data) =>
          result <~ lift (_parse_recipe_detail data);
          _ <~ except_pass (redis_setex e cache_key 86400 (json_dumps result)) tt;
          ret result
      end
  end.
End Detail.

End RecipeService.

(** ** [endpoints/recipes.py]: the ingredient parameter *)
Module RecipeEndpoints.

(** [s.split(sep)] for a separator of one character: the pieces between
    the occurrences of [sep], at least one piece. *)
Fixpoint split (sep : ascii) (s : string) : list string :=
  match s with
  | EmptyString => [EmptyString]
  | String c s' =>
      if Ascii.eqb c sep then EmptyString :: split sep s'
      else match split sep s' with
           | piece :: pieces => String c piece :: pieces
           | [] => [String c EmptyString]
           end
  end.

(** Characters other than the separator, and characters that are the
    separator or white space. *)
Definition no_comma (c : ascii) : bool := negb (Ascii.eqb c ",").

Definition comma_or_space (c : ascii) : bool := Ascii.eqb c "," || isspace_char c.

(** [[i.strip() for i in ingredients.split(",") if i.strip()]] *)
Definition ingredient_list (ingredients : string) : list string :=
  strip <$> List.filter (λ i, negb (is_empty (strip i))) (split "," ingredients).

(** [ranking = 1 if maximize_used else 2] *)
Definition ranking_of (maximize_used : bool) : Z := if maximize_used then 1 else 2.

End RecipeEndpoints.

(** ** The specification's wording, as definitions to compare with *)
Module Spec.

(** A string matching [^\d{8}$|^\d{12}$|^\d{13}$|^\d{14}$]: decimal digits
    only, 8, 12, 13 or 14 of them. *)
Definition matches_pattern (s : string) : bool :=
  all_chars decimal_char s && bool_decide (String.length s ∈ [8; 12; 13; 14]%nat).

(** "whose lowercase form contains any mapped keyword" *)
Definition mentions_keyword (tag : string) : bool :=
  existsb (λ entry, contains entry.1 (lower tag)) Barcode.mapping.

(** "The first tag (in upstream-provided order) whose lowercase form
    contains any mapped keyword determines the category; if no tag matches,
    the category is Other": the determining tag gives the category of the
    first table entry whose keyword it contains. *)
Definition category_of_tags (tags : list string) : string :=
  match List.find mentions_keyword tags with
  | Some tag =>
      match List.find (λ entry, contains entry.1 (lower tag)) Barcode.mapping with
      | Some entry => entry.2
      | None => "Other"
      end
  | None => "Other"
  end.

(** Two floats with the same value: identical, or equal as Python's [==]
    has it (which identifies the two zeros). *)
Definition same_float (x y : float) : Prop := x = y ∨ PrimFloat.eqb x y = true.

Definition same_optional_float (x y : option float) : Prop :=
  x = y ∨ ∃ a b, x = Some a ∧ y = Some b ∧ PrimFloat.eqb a b = true.

(** "Every mutable field [is overwritten] with the submitted value": the
    row holds, column by column, what the item submits. *)
Definition holds_submitted (row : Grocery.GroceryItem.t) (item : Grocery.GroceryItemCreate.t)
    : Prop :=
  Grocery.GroceryItem.name row = Grocery.GroceryItemCreate.name item
  ∧ Grocery.GroceryItem.category row =
      Grocery.FoodCategory.value (Grocery.GroceryItemCreate.category item)
  ∧ Grocery.GroceryItem.storage_location row =
      Grocery.StorageLocation.value (Grocery.GroceryItemCreate.storage_location item)
  ∧ same_float (Grocery.GroceryItem.quantity row) (Grocery.GroceryItemCreate.quantity item)
  ∧ Grocery.GroceryItem.unit row = Grocery.GroceryItemCreate.unit item
  ∧ Grocery.GroceryItem.purchase_date row = Grocery.GroceryItemCreate.purchase_date item
  ∧ Grocery.GroceryItem.expiration_date row = Grocery.GroceryItemCreate.expiration_date item
  ∧ Grocery.GroceryItem.predicted_expiration_date row =
      Grocery.GroceryItemCreate.predicted_expiration_date item
  ∧ same_optional_float (Grocery.GroceryItem.confidence_score row)
      (Grocery.GroceryItemCreate.confidence_score item)
  ∧ Grocery.GroceryItem.barcode row = Grocery.GroceryItemCreate.barcode item
  ∧ Grocery.GroceryItem.notes row = Grocery.GroceryItemCreate.notes item.

(** The columns no sync item can carry keep the values of [old]. *)
Definition keeps_unsubmitted (old row : Grocery.GroceryItem.t) : Prop :=
  Grocery.GroceryItem.user_id row = Grocery.GroceryItem.user_id old
  ∧ Grocery.GroceryItem.created_at row = Grocery.GroceryItem.created_at old
  ∧ Grocery.GroceryItem.is_consumed row = Grocery.GroceryItem.is_consumed old
  ∧ Grocery.GroceryItem.consumed_date row = Grocery.GroceryItem.consumed_date old
  ∧ Grocery.GroceryItem.external_product_id row = Grocery.GroceryItem.external_product_id old
  ∧ Grocery.GroceryItem.image_url row = Grocery.GroceryItem.image_url old.

(** A row as an INSERT of the handler leaves it: owned by [user], created
    at [t], with the defaults of the columns the handler does not name. *)
Definition newly_created (user : string) (t : Grocery.datetime) (row : Grocery.GroceryItem.t)
    : Prop :=
  Grocery.GroceryItem.user_id row = user
  ∧ Grocery.GroceryItem.created_at row = t
  ∧ Grocery.GroceryItem.is_consumed row = false
  ∧ Grocery.GroceryItem.consumed_date row = None
  ∧ Grocery.GroceryItem.external_product_id row = None
  ∧ Grocery.GroceryItem.image_url row = None.

(** "Every field omitted from the request retains its prior stored value",
    for the fields a [GroceryItemUpdate] can name. *)
Definition omitted_fields_kept (item_data : Grocery.GroceryItemUpdate.t)
    (old row : Grocery.GroceryItem.t) : Prop :=
  (Grocery.GroceryItemUpdate.name item_data = None →
     Grocery.GroceryItem.name row = Grocery.GroceryItem.name old)
  ∧ (Grocery.GroceryItemUpdate.category item_data = None →
     Grocery.GroceryItem.category row = Grocery.GroceryItem.category old)
  ∧ (Grocery.GroceryItemUpdate.storage_location item_data = None →
     Grocery.GroceryItem.storage_location row = Grocery.GroceryItem.storage_location old)
  ∧ (Grocery.GroceryItemUpdate.quantity item_data = None →
     Grocery.GroceryItem.quantity row = Grocery.GroceryItem.quantity old)
  ∧ (Grocery.GroceryItemUpdate.unit item_data = None →
     Grocery.GroceryItem.unit row = Grocery.GroceryItem.unit old)
  ∧ (Grocery.GroceryItemUpdate.purchase_date item_data = None →
     Grocery.GroceryItem.purchase_date row = Grocery.GroceryItem.purchase_date old)
  ∧ (Grocery.GroceryItemUpdate.expiration_date item_data = None →
     Grocery.GroceryItem.expiration_date row = Grocery.GroceryItem.expiration_date old)
  ∧ (Grocery.GroceryItemUpdate.predicted_expiration_date item_data = None →
     Grocery.GroceryItem.predicted_expiration_date row =
     Grocery.GroceryItem.predicted_expiration_date old)
  ∧ (Grocery.GroceryItemUpdate.confidence_score item_data = None →
     Grocery.GroceryItem.confidence_score row = Grocery.GroceryItem.confidence_score old)
  ∧ (Grocery.GroceryItemUpdate.barcode item_data = None →
     Grocery.GroceryItem.barcode row = Grocery.GroceryItem.barcode old)
  ∧ (Grocery.GroceryItemUpdate.notes item_data = None →
     Grocery.GroceryItem.notes row = Grocery.GroceryItem.notes old)
  ∧ (Grocery.GroceryItemUpdate.is_consumed item_data = None →
     Grocery.GroceryItem.is_consumed row = Grocery.GroceryItem.is_consumed old)
  ∧ (Grocery.GroceryItemUpdate.consumed_date item_data = None →
     Grocery.GroceryItem.consumed_date row = Grocery.GroceryItem.consumed_date old).

(** The columns no [GroceryItemUpdate] can name, [updated_at] apart. *)
Definition unnamed_columns_kept (old row : Grocery.GroceryItem.t) : Prop :=
  Grocery.GroceryItem.user_id row = Grocery.GroceryItem.user_id old
  ∧ Grocery.GroceryItem.created_at row = Grocery.GroceryItem.created_at old
  ∧ Grocery.GroceryItem.external_product_id row = Grocery.GroceryItem.external_product_id old
  ∧ Grocery.GroceryItem.image_url row = Grocery.GroceryItem.image_url old.

End Spec.

(** ** Concrete environments used to exercise the statements *)
Module Sample.

Definition empty_world : world := {| cache := ∅; trace := [] |}.

(** A provider that answers every request with [r]. *)
Definition answering (r : reply) (t : Z) : env :=
  {| now := t; redis_get_ok := true; redis_setex_ok := true; upstream := λ _ _, r |}.

(** The same with Redis unreachable. *)
Definition answering_without_redis (r : reply) (t : Z) : env :=
  {| now := t; redis_get_ok := false; redis_setex_ok := false; upstream := λ _ _, r |}.

Definition milk_payload : json :=
  JObj [ ("status", JInt 1);
         ("product", JObj [ ("product_name", JStr " Milk ");
                            ("categories_tags", JArr [JStr "en:Milks"]) ]) ].

Definition found : reply := Reply {| status_code := 200; body := Document milk_payload |}.

Definition not_json : reply := Reply {| status_code := 200; body := NotJson "<html>" |}.

Definition unavailable : reply := Reply {| status_code := 503; body := NotJson "" |}.

Definition unknown_product : reply :=
  Reply {| status_code := 200; body := Document (JObj [("status", JInt 0)]) |}.

(** Identifiers standing for the strings of successive [uuid.uuid4()]. *)
Definition uuids (k : nat) : string := "uuid-" +:+ pretty k.

(** A valid item, and the body it validates from (with the category and the
    id to be chosen). *)
Definition milk (id : option string) : Grocery.GroceryItemCreate.t := {|
  Grocery.GroceryItemCreate.name := "Milk";
  Grocery.GroceryItemCreate.category := Grocery.FoodCategory.DAIRY;
  Grocery.GroceryItemCreate.storage_location := Grocery.StorageLocation.REFRIGERATOR;
  Grocery.GroceryItemCreate.quantity := 1%float;
  Grocery.GroceryItemCreate.unit := "gallon";
  Grocery.GroceryItemCreate.purchase_date := 10;
  Grocery.GroceryItemCreate.expiration_date := None;
  Grocery.GroceryItemCreate.predicted_expiration_date := None;
  Grocery.GroceryItemCreate.confidence_score := None;
  Grocery.GroceryItemCreate.barcode := None;
  Grocery.GroceryItemCreate.notes := None;
  Grocery.GroceryItemCreate.id := id;
|}.

Definition milk_body (category : string) (id : option string) : Grocery.ItemBody.t := {|
  Grocery.ItemBody.name := "Milk";
  Grocery.ItemBody.category := category;
  Grocery.ItemBody.storage_location := "Refrigerator";
  Grocery.ItemBody.quantity := Some 1%float;
  Grocery.ItemBody.unit := Some "gallon";
  Grocery.ItemBody.purchase_date := 10;
  Grocery.ItemBody.expiration_date := None;
  Grocery.ItemBody.predicted_expiration_date := None;
  Grocery.ItemBody.confidence_score := None;
  Grocery.ItemBody.barcode := None;
  Grocery.ItemBody.notes := None;
  Grocery.ItemBody.id := id;
|}.

(** A stored, consumed row of [owner], created at 1 and last updated at 2. *)
Definition eggs (owner : string) : Grocery.GroceryItem.t := {|
  Grocery.GroceryItem.user_id := owner;
  Grocery.GroceryItem.name := "Eggs";
  Grocery.GroceryItem.category := "Dairy";
  Grocery.GroceryItem.storage_location := "Refrigerator";
  Grocery.GroceryItem.quantity := 12%float;
  Grocery.GroceryItem.unit := "piece";
  Grocery.GroceryItem.purchase_date := 3;
  Grocery.GroceryItem.expiration_date := None;
  Grocery.GroceryItem.predicted_expiration_date := None;
  Grocery.GroceryItem.confidence_score := None;
  Grocery.GroceryItem.barcode := None;
  Grocery.GroceryItem.external_product_id := None;
  Grocery.GroceryItem.notes := None;
  Grocery.GroceryItem.image_url := None;
  Grocery.GroceryItem.is_consumed := true;
  Grocery.GroceryItem.consumed_date := Some 4;
  Grocery.GroceryItem.created_at := 1;
  Grocery.GroceryItem.updated_at := 2;
|}.

(** A table with one row of alice and one of bob. *)
Definition pantry : Grocery.table := <["x1" := eggs "alice"]> (<["b1" := eggs "bob"]> ∅).

Definition request (items : list Grocery.GroceryItemCreate.t) (deleted_ids : list string)
    : Grocery.GrocerySyncRequest.t := {|
  Grocery.GrocerySyncRequest.items := items;
  Grocery.GrocerySyncRequest.deleted_ids := deleted_ids;
  Grocery.GrocerySyncRequest.last_sync_at := None;
|}.

Definition body (items : list Grocery.ItemBody.t) (deleted_ids : list string)
    : Grocery.SyncBody.t := {|
  Grocery.SyncBody.items := items;
  Grocery.SyncBody.deleted_ids := deleted_ids;
  Grocery.SyncBody.last_sync_at := None;
|}.

(** A sync by alice at transaction time 50. *)
Definition alice_syncs (tbl : Grocery.table) (sync_request : Grocery.GrocerySyncRequest.t)
    : result Grocery.GrocerySyncResponse.t * Grocery.table :=
  Grocery.sync_groceries "alice" 50 uuids 49 tbl sync_request.

(** The response of an outcome, and the ids it lists. *)
Definition response_of (r : result Grocery.GrocerySyncResponse.t) : Grocery.GrocerySyncResponse.t :=
  match r with
  | Ok resp => resp
  | Raise _ => {| Grocery.GrocerySyncResponse.items := [];
                  Grocery.GrocerySyncResponse.deleted_ids := [];
                  Grocery.GrocerySyncResponse.sync_timestamp := 0 |}
  end.

Definition response_ids (r : result Grocery.GrocerySyncResponse.t) : list string :=
  Grocery.GroceryItemResponse.id <$> Grocery.GrocerySyncResponse.items (response_of r).

(** A PATCH body that mentions [name] only. *)
Definition rename (name : string) : Grocery.GroceryItemUpdate.t := {|
  Grocery.GroceryItemUpdate.name := Some (Some name);
  Grocery.GroceryItemUpdate.category := None;
  Grocery.GroceryItemUpdate.storage_location := None;
  Grocery.GroceryItemUpdate.quantity := None;
  Grocery.GroceryItemUpdate.unit := None;
  Grocery.GroceryItemUpdate.purchase_date := None;
  Grocery.GroceryItemUpdate.expiration_date := None;
  Grocery.GroceryItemUpdate.predicted_expiration_date := None;
  Grocery.GroceryItemUpdate.confidence_score := None;
  Grocery.GroceryItemUpdate.barcode := None;
  Grocery.GroceryItemUpdate.notes := None;
  Grocery.GroceryItemUpdate.is_consumed := None;
  Grocery.GroceryItemUpdate.consumed_date := None;
|}.

End Sample.

(** ** Further concrete values *)
Module Cases.

(** Two rows that are not consumed, bought at 10 and at 20. *)
Definition carton (owner : string) : Grocery.GroceryItem.t := {|
  Grocery.GroceryItem.user_id := owner;
  Grocery.GroceryItem.name := "Milk";
  Grocery.GroceryItem.category := "Dairy";
  Grocery.GroceryItem.storage_location := "Refrigerator";
  Grocery.GroceryItem.quantity := 1%float;
  Grocery.GroceryItem.unit := "gallon";
  Grocery.GroceryItem.purchase_date := 10;
  Grocery.GroceryItem.expiration_date := Some 30;
  Grocery.GroceryItem.predicted_expiration_date := None;
  Grocery.GroceryItem.confidence_score := Some 0.5%float;
  Grocery.GroceryItem.barcode := Some "12345678";
  Grocery.GroceryItem.external_product_id := None;
  Grocery.GroceryItem.notes := None;
  Grocery.GroceryItem.image_url := None;
  Grocery.GroceryItem.is_consumed := false;
  Grocery.GroceryItem.consumed_date := None;
  Grocery.GroceryItem.created_at := 11;
  Grocery.GroceryItem.updated_at := 11;
|}.

Definition yogurt (owner : string) : Grocery.GroceryItem.t := {|
  Grocery.GroceryItem.user_id := owner;
  Grocery.GroceryItem.name := "Yogurt";
  Grocery.GroceryItem.category := "Dairy";
  Grocery.GroceryItem.storage_location := "Refrigerator";
  Grocery.GroceryItem.quantity := 4%float;
  Grocery.GroceryItem.unit := "piece";
  Grocery.GroceryItem.purchase_date := 20;
  Grocery.GroceryItem.expiration_date := None;
  Grocery.GroceryItem.predicted_expiration_date := None;
  Grocery.GroceryItem.confidence_score := None;
  Grocery.GroceryItem.barcode := None;
  Grocery.GroceryItem.external_product_id := None;
  Grocery.GroceryItem.notes := None;
  Grocery.GroceryItem.image_url := None;
  Grocery.GroceryItem.is_consumed := false;
  Grocery.GroceryItem.consumed_date := None;
  Grocery.GroceryItem.created_at := 21;
  Grocery.GroceryItem.updated_at := 21;
|}.

(** A table with two rows of alice and one of bob. *)
Definition fridge : Grocery.table :=
  <["m1" := carton "alice"]> (<["y1" := yogurt "alice"]> (<["b1" := Sample.eggs "bob"]> ∅)).

(** The PATCH body [{"name": null}]. *)
Definition unname : Grocery.GroceryItemUpdate.t := {|
  Grocery.GroceryItemUpdate.name := Some None;
  Grocery.GroceryItemUpdate.category := None;
  Grocery.GroceryItemUpdate.storage_location := None;
  Grocery.GroceryItemUpdate.quantity := None;
  Grocery.GroceryItemUpdate.unit := None;
  Grocery.GroceryItemUpdate.purchase_date := None;
  Grocery.GroceryItemUpdate.expiration_date := None;
  Grocery.GroceryItemUpdate.predicted_expiration_date := None;
  Grocery.GroceryItemUpdate.confidence_score := None;
  Grocery.GroceryItemUpdate.barcode := None;
  Grocery.GroceryItemUpdate.notes := None;
  Grocery.GroceryItemUpdate.is_consumed := None;
  Grocery.GroceryItemUpdate.consumed_date := None;
|}.

(** What an outcome carries, when it is not an exception. *)
Definition listed (r : result (list Grocery.GroceryItemResponse.t))
    : list Grocery.GroceryItemResponse.t :=
  match r with Ok items => items | Raise _ => [] end.

Definition item_of (r : result Grocery.GroceryItemResponse.t) : Grocery.GroceryItemResponse.t :=
  match r with
  | Ok item => item
  | Raise _ => Grocery.grocery_to_response "" (carton "")
  end.

Definition value_of (r : result json) : json :=
  match r with Ok j => j | Raise _ => JNull end.

(** The response for the product of [Sample.found]. *)
Definition milk_product : Barcode.BarcodeProductResponse := {|
  Barcode.barcode := "12345678";
  Barcode.name := "Milk";
  Barcode.brand := Some "";
  Barcode.categories := Some "";
  Barcode.suggested_category := "Dairy";
  Barcode.quantity_string := Some "";
  Barcode.image_url := Some "";
  Barcode.ingredients_text := Some "";
  Barcode.nutriscore_grade := Some "";
  Barcode.source := "open_food_facts";
|}.

(** Answers of the recipe provider: to a search, and to a request for the
    details of a recipe. *)
Definition soups : reply :=
  Reply {| status_code := 200;
           body := Document
             (JObj [ ("results", JArr [JObj [("id", JInt 7); ("title", JStr "Leek soup")]]);
                     ("totalResults", JInt 1) ]) |}.

Definition soup : reply :=
  Reply {| status_code := 200;
           body := Document
             (JObj [ ("id", JInt 7); ("title", JStr "Leek soup");
                     ("extendedIngredients",
                        JArr [JObj [("name", JStr "leek"); ("image", JStr "leek.png")]]);
                     ("analyzedInstructions",
                        JArr [JObj [("steps",
                          JArr [JObj [("number", JInt 1); ("step", JStr "Boil.")]])]]) ]) |}.

(** The text of an f-string for the values of these answers, which are
    [str]s. *)
Definition str_of (v : json) : string :=
  match v with JStr s => s | _ => "" end.

End Cases.

(** * Properties *)

(** ** Category mapping *)
Module CategoryFacts.
Import Barcode.

Lemma scan_mapping_find entries tag_lower :
  scan_mapping entries tag_lower =
    snd <$> List.find (λ entry, contains entry.1 tag_lower) entries.
Proof.
  induction entries as [|[keyword category] rest IH]; simpl; [done|].
  destruct (contains keyword tag_lower); [done|]. apply IH.
Qed.

Lemma mentions_keyword_scan tag :
  Spec.mentions_keyword tag = bool_decide (is_Some (scan_mapping mapping (lower tag))).
Proof.
  unfold Spec.mentions_keyword. generalize mapping as entries. intros entries.
  induction entries as [|[keyword category] rest IH]; simpl; [done|].
  destruct (contains keyword (lower tag)); simpl; [done|apply IH].
Qed.

Lemma scan_tags_spec (tags : list string) :
  scan_tags (JStr <$> tags) = Ok (Spec.category_of_tags tags).
Proof.
  unfold Spec.category_of_tags.
  induction tags as [|tag rest IH]; [done|].
  rewrite fmap_cons. cbn [scan_tags List.find].
  rewrite mentions_keyword_scan, scan_mapping_find.
  destruct (List.find _ mapping) as [entry|] eqn:Hfind.
  - rewrite bool_decide_eq_true_2 by (rewrite fmap_is_Some; eauto).
    by rewrite Hfind.
  - rewrite bool_decide_eq_false_2 by (rewrite fmap_is_Some; intros [? ?]; done).
    apply IH.
Qed.

(** C6.  [_map_category] on a list of tags returns the category that the
    first tag mentioning a keyword of the table determines (substring test
    on the lowercased tag), and "Other" when no tag mentions one; on
    ["en:yogurts", "en:dairy"] it returns "Dairy" and on
    ["en:unknown-thing"] it returns "Other". *)
Theorem map_category_first_matching_tag (tags : list string) :
  _map_category (JArr (JStr <$> tags)) = Ok (Spec.category_of_tags tags)
  ∧ _map_category (JArr [JStr "en:yogurts"; JStr "en:dairy"]) = Ok "Dairy"
  ∧ _map_category (JArr [JStr "en:unknown-thing"]) = Ok "Other".
Proof.
  split; [|split; reflexivity].
  unfold _map_category. simpl. apply scan_tags_spec.
Qed.

End CategoryFacts.

(** ** The cache gateway *)
Module GatewayFacts.
Import Barcode Recipes.

(** Unfolds the monad of service calls. *)
Ltac run :=
  cbv beta iota zeta delta
    [bind ret raise lift log try_except except_pass except_HTTPError
     read_cache redis_get redis_setex http_get write_cache fst snd];
  cbn [cache trace].

Lemma read_cache_unusable e w key :
  cache_unusable e w key → read_cache e key w = (Ok None, logged (RedisGet key) w).
Proof.
  intros Hc. run.
  destruct (redis_get_ok e) eqn:Hok; [|reflexivity]. cbn [cache].
  destruct Hc as [Hc|[Hc|[raw Hc]]]; [congruence| |]; rewrite Hc; [reflexivity|].
  simpl. destruct (is_empty raw); reflexivity.
Qed.

Lemma read_cache_hit e w key j :
  redis_get_ok e = true →
  live (now e) (cache w) key = Some (Document j) →
  read_cache e key w = (Ok (Some j), logged (RedisGet key) w).
Proof.
  intros Hok Hlive. run. rewrite Hok. cbn [cache]. rewrite Hlive. reflexivity.
Qed.

(** The read never raises, and its only effect is the logged command. *)
Lemma read_cache_total e w key :
  ∃ hit, read_cache e key w = (Ok hit, logged (RedisGet key) w).
Proof.
  run. destruct (redis_get_ok e); [|by eexists]. cbn [cache].
  destruct (live (now e) (cache w) key) as [[j|raw]|]; simpl; [by eexists| |by eexists].
  destruct (is_empty raw); by eexists.
Qed.

(** The query of the provider: its outcome depends on the provider's answer
    only, and its only effect is the logged request. *)
Lemma query_world e barcode w :
  (_query_open_food_facts e barcode w).2 = logged (HttpGet (product_url barcode) []) w.
Proof.
  unfold _query_open_food_facts. run.
  destruct (upstream e _ _) as [|r]; [reflexivity|].
  destruct (status_code r =? 200); simpl; [|reflexivity].
  destruct (json_loads (body r)) as [data|]; [|reflexivity].
  destruct (get data "status" JNull) as [st|]; [|reflexivity].
  destruct (eq_one st); simpl; [|reflexivity].
  destruct (get data "product" (JObj [])); reflexivity.
Qed.

Lemma query_result_any_world e barcode w w' :
  (_query_open_food_facts e barcode w).1 = (_query_open_food_facts e barcode w').1.
Proof.
  unfold _query_open_food_facts. run.
  destruct (upstream e _ _) as [|r]; [reflexivity|].
  destruct (status_code r =? 200); simpl; [|reflexivity].
  destruct (json_loads (body r)) as [data|]; [|reflexivity].
  destruct (get data "status" JNull) as [st|]; [|reflexivity].
  destruct (eq_one st); simpl; [|reflexivity].
  destruct (get data "product" (JObj [])); reflexivity.
Qed.

(** The cache write never raises. *)
Lemma write_cache_total e key product w :
  ∃ w', write_cache e key product w = (Ok tt, w').
Proof.
  run. destruct (truthy product), (redis_setex_ok e); by eexists.
Qed.

(** [lookup] once the cache has given nothing. *)
Lemma lookup_unusable e w barcode :
  cache_unusable e w (cache_key barcode) →
  (lookup e barcode w).1 = (_query_open_food_facts e barcode w).1.
Proof.
  intros Hc. unfold lookup. unfold bind at 1.
  rewrite (read_cache_unusable _ _ _ Hc).
  rewrite (query_result_any_world e barcode w (logged (RedisGet (cache_key barcode)) w)).
  unfold bind at 1.
  destruct (_query_open_food_facts e barcode _) as [[product|ex] w1]; [|done].
  unfold bind. destruct (write_cache_total e (cache_key barcode) product w1) as [w2 ->].
  done.
Qed.


(** The worlds a lookup leaves when the cache gave nothing. *)
Lemma lookup_unusable_world e w barcode :
  cache_unusable e w (cache_key barcode) →
  ∃ rest, trace (lookup e barcode w).2 =
    trace w ++ [RedisGet (cache_key barcode); HttpGet (product_url barcode) []] ++ rest.
Proof.
  intros Hc. unfold lookup. unfold bind at 1.
  rewrite (read_cache_unusable _ _ _ Hc). unfold bind at 1.
  pose proof (query_world e barcode (logged (RedisGet (cache_key barcode)) w)) as Hw.
  destruct (_query_open_food_facts e barcode _) as [[product|ex] w1]; simpl in Hw; subst w1.
  - run. destruct (truthy product), (redis_setex_ok e); cbn [trace logged];
      rewrite <- !app_assoc; by eexists.
  - cbn [snd logged trace]. rewrite <- !app_assoc. by exists [].
Qed.

(** What a lookup stores when the cache gave nothing and the write goes
    through. *)
Lemma lookup_unusable_stores e w barcode product :
  cache_unusable e w (cache_key barcode) →
  redis_setex_ok e = true →
  (_query_open_food_facts e barcode w).1 = Ok product →
  cache (lookup e barcode w).2 !! cache_key barcode =
    Some {| value := json_dumps (if truthy product then product else JNull);
            expires_at := now e + (if truthy product then 604800 else 3600) |}.
Proof.
  intros Hc Hset Hq. unfold lookup. unfold bind at 1.
  rewrite (read_cache_unusable _ _ _ Hc). unfold bind at 1.
  rewrite (query_result_any_world e barcode w (logged (RedisGet (cache_key barcode)) w)) in Hq.
  destruct (_query_open_food_facts e barcode _) as [[product'|ex] w1]; simpl in Hq; [|done].
  injection Hq as ->. run. rewrite Hset.
  destruct (truthy product); cbn [cache snd]; by rewrite lookup_insert_eq.
Qed.

Lemma lookup_hit e w barcode j :
  redis_get_ok e = true →
  live (now e) (cache w) (cache_key barcode) = Some (Document j) →
  lookup e barcode w = (Ok j, logged (RedisGet (cache_key barcode)) w).
Proof.
  intros Hok Hlive. unfold lookup. unfold bind at 1.
  by rewrite (read_cache_hit _ _ _ _ Hok Hlive).
Qed.


(** *** No service call ends in a Redis error *)

Lemma get_raises x key d ex : get x key d = Raise ex → payload_error ex.
Proof. destruct x; simpl; intros [= <-]; unfold payload_error; auto. Qed.

Lemma iterate_raises x ex : iterate x = Raise ex → payload_error ex.
Proof. destruct x; simpl; intros [= <-]; unfold payload_error; auto. Qed.

Lemma json_loads_raises t ex : json_loads t = Raise ex → payload_error ex.
Proof. destruct t; simpl; intros [= <-]; unfold payload_error; auto. Qed.

Lemma scan_tags_raises tags ex : scan_tags tags = Raise ex → payload_error ex.
Proof.
  induction tags as [|tag rest IH]; cbn [scan_tags]; [done|].
  destruct tag; try (intros [= <-]; unfold payload_error; auto).
  destruct (scan_mapping mapping (lower s)); [done|apply IH].
Qed.

(** A sequence of binds fails where one of its steps fails. *)
Lemma bind_raises {A B} (P : exn → Prop) (m : result A) (f : A → result B) :
  (∀ ex, m = Raise ex → P ex) →
  (∀ a ex, f a = Raise ex → P ex) →
  ∀ ex, m ≫= f = Raise ex → P ex.
Proof.
  intros Hm Hf ex. destruct m as [a|ex']; cbv [mbind result_bind]; [apply Hf|].
  intros [= <-]. by apply Hm.
Qed.

Lemma map_category_raises categories_tags ex :
  _map_category categories_tags = Raise ex → payload_error ex.
Proof.
  revert ex. unfold _map_category.
  apply bind_raises; [apply iterate_raises|intros tags ex; apply scan_tags_raises].
Qed.

Lemma parse_product_raises product barcode ex :
  _parse_product product barcode = Raise ex → payload_error ex.
Proof.
  revert ex. unfold _parse_product.
  apply bind_raises; [apply get_raises|intros name_v].
  apply bind_raises; [|intros name].
  { destruct name_v; intros ex H; try done; injection H as <-; unfold payload_error; auto. }
  destruct (is_empty name); [done|].
  apply bind_raises; [apply get_raises|intros tags].
  apply bind_raises; [apply map_category_raises|intros category].
  repeat (apply bind_raises; [apply get_raises|intros ?]).
  done.
Qed.

Lemma query_raises e barcode w ex :
  (_query_open_food_facts e barcode w).1 = Raise ex → payload_error ex.
Proof.
  unfold _query_open_food_facts. run.
  destruct (upstream e _ _) as [|r]; [done|].
  destruct (status_code r =? 200); simpl; [|done].
  destruct (json_loads (body r)) as [data|] eqn:Hl; [|intros [= <-]; by eapply json_loads_raises].
  destruct (get data "status" JNull) as [st|] eqn:Hs; [|intros [= <-]; by eapply get_raises].
  destruct (eq_one st); simpl; [|done].
  destruct (get data "product" (JObj [])) as [p|] eqn:Hp; [|intros [= <-]; by eapply get_raises].
  apply parse_product_raises.
Qed.


Lemma parse_recipe_summary_raises data ex :
  _parse_recipe_summary data = Raise ex → payload_error ex.
Proof.
  revert ex. unfold _parse_recipe_summary.
  repeat (apply bind_raises; [apply get_raises|intros ?]).
  done.
Qed.

Lemma mapM_summary_raises rs ex :
  mapM _parse_recipe_summary rs = Raise ex → payload_error ex.
Proof.
  revert ex. induction rs as [|r rest IH]; simpl; [done|].
  apply bind_raises; [apply parse_recipe_summary_raises|intros summary].
  apply bind_raises; [apply IH|done].
Qed.

Lemma parse_results_raises data ex :
  parse_results data = Raise ex → payload_error ex.
Proof.
  revert ex. unfold parse_results.
  apply bind_raises; [apply get_raises|intros listed].
  apply bind_raises; [apply iterate_raises|intros rs].
  apply bind_raises; [apply mapM_summary_raises|intros parsed].
  apply bind_raises; [apply get_raises|done].
Qed.

Lemma search_uncached_raises e params w ex :
  (search_uncached e params w).1 = Raise ex → payload_error ex.
Proof.
  unfold search_uncached, fetch, raise_for_status. run.
  destruct (upstream e _ _) as [|r]; [done|].
  destruct (_ && _); simpl; [|done].
  destruct (json_loads (body r)) as [data|ex'] eqn:Hl; simpl;
    [apply parse_results_raises|].
  destruct (json_loads_raises _ _ Hl) as [Hx|[Hx|Hx]]; subst ex'; simpl;
    intros [= <-]; unfold payload_error; auto.
Qed.

Lemma search_uncached_any_world e params w w' :
  (search_uncached e params w).1 = (search_uncached e params w').1.
Proof.
  unfold search_uncached, fetch, raise_for_status. run.
  destruct (upstream e _ _) as [|r]; [done|].
  destruct (_ && _); simpl; [|done].
  destruct (json_loads (body r)) as [data|ex']; simpl; [done|].
  by destruct ex'.
Qed.

(** [search_recipes] once the cache has given nothing. *)
Lemma search_unusable e w api_key query ingredients diet max_ready_time number offset :
  cache_unusable e w (search_cache_key query ingredients diet max_ready_time number offset) →
  (search_recipes e api_key query ingredients diet max_ready_time number offset w).1 =
  (search_uncached e
     (search_params api_key query ingredients diet max_ready_time number offset) w).1.
Proof.
  intros Hc. unfold search_recipes. unfold bind at 1.
  rewrite (read_cache_unusable _ _ _ Hc).
  rewrite (search_uncached_any_world e _ w
    (logged (RedisGet (search_cache_key query ingredients diet max_ready_time number offset)) w)).
  unfold search_uncached, bind.
  destruct (except_HTTPError _ _) as [[[data|]|ex] w1]; [|done|done].
  run. destruct (parse_results data); [|done].
  by destruct (redis_setex_ok e).
Qed.

Lemma not_payload_error_redis : ¬ payload_error RedisError.
Proof. by intros [|[|]]. Qed.

(** C7.  In the barcode lookup and in the recipe search, whenever the cache
    gives nothing for the key -- the read command fails, the stored text
    does not decode, or there is no live entry -- the call's outcome is the
    outcome of the upstream query alone, whether or not the cache write
    that follows goes through; and no call ever ends in a Redis error. *)
Theorem cache_failures_never_surface (e : env) (w : world) :
  (∀ barcode,
     cache_unusable e w (cache_key barcode) →
     (lookup e barcode w).1 = (_query_open_food_facts e barcode w).1)
  ∧ (∀ api_key query ingredients diet max_ready_time number offset,
     cache_unusable e w
       (search_cache_key query ingredients diet max_ready_time number offset) →
     (search_recipes e api_key query ingredients diet max_ready_time number offset w).1 =
     (search_uncached e
        (search_params api_key query ingredients diet max_ready_time number offset) w).1)
  ∧ (∀ barcode, (lookup e barcode w).1 ≠ Raise RedisError)
  ∧ (∀ api_key query ingredients diet max_ready_time number offset,
     (search_recipes e api_key query ingredients diet max_ready_time number offset w).1
     ≠ Raise RedisError).
Proof.
  split; [intros; by apply lookup_unusable|].
  split; [intros; by apply search_unusable|].
  split.
  - intros barcode Hraise.
    destruct (read_cache_total e w (cache_key barcode)) as [[j|] Hread].
    + unfold lookup in Hraise. unfold bind at 1 in Hraise. by rewrite Hread in Hraise.
    + assert (Hq : (lookup e barcode w).1 =
        (_query_open_food_facts e barcode (logged (RedisGet (cache_key barcode)) w)).1).
      { unfold lookup. unfold bind at 1. rewrite Hread. unfold bind at 1.
        destruct (_query_open_food_facts e barcode _) as [[product|ex] w1]; [|done].
        unfold bind. by destruct (write_cache_total e (cache_key barcode) product w1) as [w2 ->]. }
      rewrite Hq in Hraise. apply query_raises in Hraise.
      by apply not_payload_error_redis.
  - intros api_key query ingredients diet max_ready_time number offset Hraise.
    set (key := search_cache_key query ingredients diet max_ready_time number offset) in *.
    destruct (read_cache_total e w key) as [[j|] Hread].
    + unfold search_recipes in Hraise. fold key in Hraise.
      unfold bind at 1 in Hraise. by rewrite Hread in Hraise.
    + assert (Hq : (search_recipes e api_key query ingredients diet max_ready_time number offset w).1 =
        (search_uncached e
          (search_params api_key query ingredients diet max_ready_time number offset)
          (logged (RedisGet key) w)).1).
      { unfold search_recipes. fold key. unfold bind at 1. rewrite Hread.
        unfold search_uncached, bind.
        destruct (except_HTTPError _ _) as [[[data|]|ex] w1]; [|done|done].
        run. destruct (parse_results data); [|done].
        by destruct (redis_setex_ok e). }
      rewrite Hq in Hraise. apply search_uncached_raises in Hraise.
      by apply not_payload_error_redis.
Qed.


(** C8.  When the cache gives nothing and the provider has no product, the
    lookup stores the marker [null] for 3600 seconds (a product is stored
    for 604800); while the marker lives, a lookup returns [None] after the
    cache read alone, and once it has expired the provider is asked again;
    a key with no entry always leads to a request to the provider. *)
Theorem negative_cache_marker (e e2 : env) (w : world) (barcode : string) :
  (cache_unusable e w (cache_key barcode) →
   redis_setex_ok e = true →
   (_query_open_food_facts e barcode w).1 = Ok JNull →
   cache (lookup e barcode w).2 !! cache_key barcode =
     Some {| value := json_dumps JNull; expires_at := now e + 3600 |}
   ∧ (redis_get_ok e2 = true → now e2 < now e + 3600 →
      lookup e2 barcode (lookup e barcode w).2 =
        (Ok JNull, logged (RedisGet (cache_key barcode)) (lookup e barcode w).2))
   ∧ (now e + 3600 ≤ now e2 →
      ∃ rest, trace (lookup e2 barcode (lookup e barcode w).2).2 =
        trace (lookup e barcode w).2
        ++ [RedisGet (cache_key barcode); HttpGet (product_url barcode) []] ++ rest))
  ∧ (∀ product,
     cache_unusable e w (cache_key barcode) →
     redis_setex_ok e = true →
     (_query_open_food_facts e barcode w).1 = Ok product →
     truthy product = true →
     cache (lookup e barcode w).2 !! cache_key barcode =
       Some {| value := json_dumps product; expires_at := now e + 604800 |})
  ∧ (redis_get_ok e = true →
     live (now e) (cache w) (cache_key barcode) = Some (Document JNull) →
     lookup e barcode w = (Ok JNull, logged (RedisGet (cache_key barcode)) w))
  ∧ (cache w !! cache_key barcode = None →
     ∃ rest, trace (lookup e barcode w).2 =
       trace w ++ [RedisGet (cache_key barcode); HttpGet (product_url barcode) []] ++ rest).
Proof.
  split; [intros Hc Hset Hq; split; [|split]|split; [|split]].
  - by rewrite (lookup_unusable_stores e w barcode JNull).
  - intros Hget Hlive. apply lookup_hit; [done|].
    unfold live. rewrite (lookup_unusable_stores e w barcode JNull) by done.
    cbn [truthy expires_at value]. by rewrite (proj2 (Z.ltb_lt _ _) Hlive).
  - intros Hexp. apply lookup_unusable_world. right; left.
    unfold live. rewrite (lookup_unusable_stores e w barcode JNull) by done.
    cbn [truthy expires_at value]. by rewrite (proj2 (Z.ltb_ge _ _) Hexp).
  - intros product Hc Hset Hq Ht.
    rewrite (lookup_unusable_stores e w barcode product) by done. by rewrite Ht.
  - intros Hget Hlive. by apply lookup_hit.
  - intros Hnone. apply lookup_unusable_world. right; left.
    unfold live. by rewrite Hnone.
Qed.

Lemma negative_cache_marker_witness :
  lookup (Sample.answering Sample.found 3599) "12345678"
    (lookup (Sample.answering Sample.unknown_product 0) "12345678" Sample.empty_world).2
  = (Ok JNull,
     logged (RedisGet (cache_key "12345678"))
       (lookup (Sample.answering Sample.unknown_product 0) "12345678" Sample.empty_world).2).
Proof.
  refine (proj1 (proj2 (proj1
    (negative_cache_marker (Sample.answering Sample.unknown_product 0)
       (Sample.answering Sample.found 3599) Sample.empty_world "12345678")
    _ _ _)) _ _).
  - right; left. reflexivity.
  - reflexivity.
  - reflexivity.
  - reflexivity.
  - reflexivity.
Defined.


Lemma cache_failures_never_surface_witness :
  (lookup (Sample.answering_without_redis Sample.found 0) "12345678" Sample.empty_world).1 =
  (_query_open_food_facts (Sample.answering_without_redis Sample.found 0) "12345678"
     Sample.empty_world).1.
Proof.
  refine (proj1
    (cache_failures_never_surface (Sample.answering_without_redis Sample.found 0)
       Sample.empty_world) "12345678" _).
  left. reflexivity.
Defined.

(** *** What the provider's answers resolve to *)

Lemma query_outcome e barcode w :
  (_query_open_food_facts e barcode w).1 =
  match upstream e (product_url barcode) [] with
  | Failure => Ok JNull
  | Reply r =>
      if negb (status_code r =? 200) then Ok JNull else
      data ← json_loads (body r);
      status ← get data "status" JNull;
      if negb (eq_one status) then Ok JNull else
      product ← get data "product" (JObj []);
      _parse_product product barcode
  end.
Proof.
  unfold _query_open_food_facts. run.
  destruct (upstream e _ _) as [|r]; [done|].
  destruct (status_code r =? 200); simpl; [|done].
  destruct (json_loads (body r)) as [data|ex]; simpl; [|by destruct ex].
  destruct (get data "status" JNull) as [st|]; simpl; [|done].
  destruct (eq_one st); simpl; [|done].
  by destruct (get data "product" (JObj [])).
Qed.

(** The handler answers 404 when the service returns [None]. *)
Lemma none_is_404 e w raw :
  valid_format (strip raw) = true →
  (lookup e (strip raw) w).1 = Ok JNull →
  (lookup_barcode e raw w).1 = Raise (HTTPException 404).
Proof.
  intros Hv Hl. unfold lookup_barcode. rewrite Hv. cbn [negb]. unfold bind at 1.
  destruct (lookup e (strip raw) w) as [[j|ex] w1]; simpl in Hl; [|done].
  by injection Hl as ->.
Qed.





(** *** The format gate of the handler *)

Lemma decimal_char_classes c :
  decimal_char c = true → isspace_char c = false ∧ isdigit_char c = true.
Proof.
  unfold decimal_char, isspace_char, isdigit_char, between.
  intros [Hlo Hhi]%andb_prop. apply N.leb_le in Hlo, Hhi. split.
  - repeat (apply orb_false_iff; split); rewrite ?andb_false_iff, ?N.leb_gt, ?N.eqb_neq; lia.
  - apply orb_true_iff; left. apply orb_true_iff; left. apply orb_true_iff; left.
    apply andb_true_iff. rewrite !N.leb_le. lia.
Qed.

Lemma rstrip_decimal s : all_chars decimal_char s = true → rstrip s = s.
Proof.
  induction s as [|c s IH]; simpl; [done|].
  intros [Hc Hs]%andb_prop. rewrite (IH Hs).
  by rewrite (proj1 (decimal_char_classes c Hc)).
Qed.

Lemma lstrip_decimal s : all_chars decimal_char s = true → lstrip s = s.
Proof.
  destruct s as [|c s]; simpl; [done|].
  intros [Hc Hs]%andb_prop. by rewrite (proj1 (decimal_char_classes c Hc)).
Qed.

Lemma all_chars_decimal_isdigit s :
  all_chars decimal_char s = true → all_chars isdigit_char s = true.
Proof.
  induction s as [|c s IH]; simpl; [done|].
  intros [Hc Hs]%andb_prop. by rewrite (proj2 (decimal_char_classes c Hc)), IH.
Qed.

(** A string the pattern matches passes the gate as it is. *)
Lemma matches_pattern_passes s :
  Spec.matches_pattern s = true → strip s = s ∧ valid_format s = true.
Proof.
  unfold Spec.matches_pattern, valid_format, strip, isdigit.
  intros [Hd Hlen]%andb_prop. split.
  - by rewrite (lstrip_decimal s Hd), (rstrip_decimal s Hd).
  - rewrite (all_chars_decimal_isdigit s Hd).
    destruct s; [by vm_compute in Hlen|by rewrite Hlen].
Qed.

(** C5, as the code has it.  The handler strips surrounding whitespace and
    tests the result with [str.isdigit] and its length: when the stripped
    input fails the test the request ends in a 400 and nothing is read from
    the cache or asked of the provider; when it passes, the stripped input
    goes to the service, whose first act is the cache read for it.  An
    input the pattern matches is unchanged by the stripping and passes. *)
Theorem format_gate_precedes_lookup (e : env) (w : world) (barcode : string) :
  (valid_format (strip barcode) = false →
     lookup_barcode e barcode w = (Raise (HTTPException 400), w))
  ∧ (valid_format (strip barcode) = true →
     (lookup_barcode e barcode w).2 = (lookup e (strip barcode) w).2
     ∧ ∃ rest, trace (lookup_barcode e barcode w).2 =
         trace w ++ RedisGet (cache_key (strip barcode)) :: rest)
  ∧ (Spec.matches_pattern barcode = true →
     strip barcode = barcode ∧ valid_format (strip barcode) = true).
Proof.
  split; [|split].
  - intros Hv. unfold lookup_barcode. by rewrite Hv.
  - intros Hv. unfold lookup_barcode. rewrite Hv. cbn [negb].
    assert (Hsame : ∀ w0, (bind (lookup e (strip barcode))
        (λ result, bind (if truthy result then lift (get result "name" JNull) else ret JNull)
           (λ name, if negb (truthy result) || negb (truthy name)
                    then raise (HTTPException 404) else lift (make_response result))) w0).2
        = (lookup e (strip barcode) w0).2).
    { intros w0. unfold bind at 1.
      destruct (lookup e (strip barcode) w0) as [[j|ex] w1]; [|done].
      run. destruct (truthy j); simpl; [|done].
      destruct (get j "name" JNull) as [n|]; [|done].
      by destruct (negb (truthy n)). }
    rewrite Hsame. split; [done|].
    unfold lookup. unfold bind at 1.
    destruct (read_cache_total e w (cache_key (strip barcode))) as [hit ->].
    destruct hit as [j|]; [by exists []|].
    unfold bind at 1.
    pose proof (query_world e (strip barcode)
      (logged (RedisGet (cache_key (strip barcode))) w)) as Hw.
    destruct (_query_open_food_facts e (strip barcode) _) as [[product|ex] w1];
      simpl in Hw; subst w1.
    + run. destruct (truthy product), (redis_setex_ok e); cbn [trace logged];
        rewrite <- !app_assoc; by eexists.
    + cbn [snd logged trace]. rewrite <- !app_assoc. by eexists.
  - intros Hm. destruct (matches_pattern_passes _ Hm) as [Hs Hv]. by rewrite Hs.
Qed.

Lemma format_gate_precedes_lookup_witness :
  lookup_barcode (Sample.answering Sample.found 0) "1234-5678" Sample.empty_world
  = (Raise (HTTPException 400), Sample.empty_world).
Proof.
  refine (proj1
    (format_gate_precedes_lookup (Sample.answering Sample.found 0) Sample.empty_world
       "1234-5678") _).
  reflexivity.
Defined.

(** The input [" 12345678"] is not matched by the pattern (it has nine
    characters, the first a space), yet the handler does not answer 400:
    the cache is read, the provider is asked and the product is returned. *)
Lemma padded_barcode_reaches_the_gateway :
  Spec.matches_pattern " 12345678" = false
  ∧ is_ok (lookup_barcode (Sample.answering Sample.found 0) " 12345678"
             Sample.empty_world).1 = true
  ∧ firstn 2 (trace (lookup_barcode (Sample.answering Sample.found 0) " 12345678"
                       Sample.empty_world).2)
    = [ RedisGet "barcode:12345678";
        HttpGet "https://world.openfoodfacts.org/api/v2/product/12345678" [] ].
Proof. repeat split; vm_compute; reflexivity. Qed.

End GatewayFacts.

(** ** Grocery synchronisation *)
Module SyncFacts.
Import Grocery.

Section WithCaller.
Variable current_user : string.
Variable db_now : datetime.
Variable uuid4 : nat → string.

(** Below, the functions of the handlers are those of the call at hand:
    [current_user] is the caller, [db_now] the time of the transaction and
    [uuid4] the identifiers the call draws. *)
Local Abbreviation select_item := (select_item current_user).
Local Abbreviation sync_item := (sync_item current_user db_now uuid4).
Local Abbreviation sync_step := (sync_step current_user db_now uuid4).
Local Abbreviation sync_items := (sync_items current_user db_now uuid4).
Local Abbreviation new_item := (new_item current_user db_now).
Local Abbreviation item_id_of := (item_id_of uuid4).
Local Abbreviation item_ids := (item_ids uuid4).

(** *** Rows *)

Lemma select_item_Some tbl item_id row :
  select_item tbl item_id = Some row ↔
  tbl !! item_id = Some row ∧ GroceryItem.user_id row = current_user.
Proof.
  unfold Grocery.select_item. destruct (tbl !! item_id) as [r|]; [|by split; [|intros [? _]]].
  destruct (String.eqb_spec (GroceryItem.user_id r) current_user) as [Hu|Hu]; split.
  - by intros [= <-].
  - by intros [[= ->] _].
  - done.
  - intros [[= ->] Hu']. done.
Qed.

Lemma select_item_None tbl item_id :
  select_item tbl item_id = None ↔
  ∀ row, tbl !! item_id = Some row → GroceryItem.user_id row ≠ current_user.
Proof.
  unfold Grocery.select_item. destruct (tbl !! item_id) as [r|]; [|done].
  destruct (String.eqb_spec (GroceryItem.user_id r) current_user) as [Hu|Hu]; split.
  - done.
  - intros Hall. by destruct (Hall r).
  - by intros _ row [= <-].
  - done.
Qed.

Lemma eq_opt_Z x y : eq_opt Z.eqb x y = true → x = y.
Proof. destruct x, y; simpl; try done. by intros ->%Z.eqb_eq. Qed.

Lemma eq_opt_string x y : eq_opt String.eqb x y = true → x = y.
Proof. destruct x, y; simpl; try done. by intros ->%String.eqb_eq. Qed.

Lemma eq_opt_float x y : eq_opt PrimFloat.eqb x y = true → Spec.same_optional_float x y.
Proof.
  destruct x as [a|], y as [b|]; simpl; try done; [|by left].
  intros H. right. by exists a, b.
Qed.

(** What the flush leaves of the columns a sync item carries. *)
Lemma overwrite_holds existing item_data :
  Spec.holds_submitted (overwrite existing item_data) item_data.
Proof. destruct existing. repeat split; by left. Qed.

Lemma overwrite_keeps existing item_data :
  Spec.keeps_unsubmitted existing (overwrite existing item_data).
Proof. by destruct existing. Qed.

Lemma new_item_holds item_data : Spec.holds_submitted (new_item item_data) item_data.
Proof. repeat split; by left. Qed.

Lemma new_item_created item_data : Spec.newly_created current_user db_now (new_item item_data).
Proof. done. Qed.

Lemma flushed_keeps old new :
  Spec.keeps_unsubmitted old new → Spec.keeps_unsubmitted old (flushed db_now old new).
Proof. unfold flushed. by destruct (same_columns old new). Qed.

Lemma flushed_overwrite_holds existing item_data :
  Spec.holds_submitted (flushed db_now existing (overwrite existing item_data)) item_data.
Proof.
  unfold flushed. destruct (same_columns _ _) eqn:Hsame; [|apply overwrite_holds].
  destruct existing. unfold same_columns in Hsame. cbn in Hsame.
  repeat (apply andb_prop in Hsame as [Hsame ?]).
  repeat split; cbn.
  - by apply String.eqb_eq.
  - by apply String.eqb_eq.
  - by apply String.eqb_eq.
  - by right.
  - by apply String.eqb_eq.
  - by apply Z.eqb_eq.
  - by apply eq_opt_Z.
  - by apply eq_opt_Z.
  - by apply eq_opt_float.
  - by apply eq_opt_string.
  - by apply eq_opt_string.
Qed.

Lemma flushed_overwrite_keeps existing item_data :
  Spec.keeps_unsubmitted existing (flushed db_now existing (overwrite existing item_data)).
Proof. apply flushed_keeps, overwrite_keeps. Qed.

Lemma keeps_unsubmitted_refl row : Spec.keeps_unsubmitted row row.
Proof. done. Qed.

Lemma keeps_unsubmitted_trans a b c :
  Spec.keeps_unsubmitted a b → Spec.keeps_unsubmitted b c → Spec.keeps_unsubmitted a c.
Proof.
  intros (?&?&?&?&?&?) (?&?&?&?&?&?). repeat split; congruence.
Qed.

Lemma newly_created_kept a b :
  Spec.newly_created current_user db_now a → Spec.keeps_unsubmitted a b →
  Spec.newly_created current_user db_now b.
Proof.
  intros (?&?&?&?&?&?) (?&?&?&?&?&?). repeat split; congruence.
Qed.

(** *** One item *)

Lemma item_id_of_cases item_data drawn i drawn' :
  item_id_of item_data drawn = (i, drawn') →
  (GroceryItemCreate.id item_data = Some i ∧ i ≠ "" ∧ drawn' = drawn)
  ∨ (GroceryItemCreate.id item_data ≠ Some i ∧ i = uuid4 drawn ∧ drawn' = S drawn)
  ∨ (i = "" ∧ i = uuid4 drawn ∧ drawn' = S drawn).
Proof.
  unfold Grocery.item_id_of. destruct (GroceryItemCreate.id item_data) as [s|].
  - destruct s as [|c s]; simpl; intros [= <- <-]; [|by left].
    destruct (decide (uuid4 drawn = "")) as [Heq|Hne]; [by right; right|].
    right; left. split; [|done]. intros [= Heq]. done.
  - intros [= <- <-]. by right; left.
Qed.

(** The step, inverted: it writes one row, under the item's id. *)
Lemma sync_item_inv st item_data st' :
  sync_item st item_data = Ok st' →
  ∃ i row,
    item_id_of item_data st.2 = (i, st'.2)
    ∧ st'.1 = <[i := row]> st.1
    ∧ match select_item st.1 i with
      | Some existing => row = flushed db_now existing (overwrite existing item_data)
      | None => row = new_item item_data ∧ st.1 !! i = None
                ∧ row_taken i (new_item item_data) = true
      end.
Proof.
  unfold Grocery.sync_item, insert_row.
  destruct (item_id_of item_data st.2) as [i drawn].
  destruct (select_item st.1 i) as [existing|] eqn:Hsel.
  - intros [= <-]. exists i, (flushed db_now existing (overwrite existing item_data)).
    by rewrite Hsel.
  - destruct (row_taken i (new_item item_data)) eqn:Htaken; [|done].
    destruct (st.1 !! i) eqn:Hi; [done|].
    cbn. intros [= <-]. exists i, (new_item item_data). by rewrite Hsel.
Qed.

(** A step that fails: the store refuses the text of the item, or the row
    is to be inserted under an id that a row of another user holds. *)
Lemma sync_step_Raise st item_data e :
  sync_step st item_data = Raise e →
  e = DBAPIError
  ∨ (e = IntegrityError
     ∧ ∃ row, st.1 !! (item_id_of item_data st.2).1 = Some row
         ∧ GroceryItem.user_id row ≠ current_user).
Proof.
  unfold Grocery.sync_step, Grocery.sync_item, insert_row.
  destruct (item_taken item_data); [|intros [= <-]; by left].
  destruct (item_id_of item_data st.2) as [i drawn]. cbn [fst].
  destruct (select_item st.1 i) as [existing|] eqn:Hsel; [done|].
  destruct (row_taken i (new_item item_data)); [|intros [= <-]; by left].
  destruct (st.1 !! i) as [row|] eqn:Hi; [|done].
  cbn. intros [= <-]. right. split; [done|]. exists row. split; [done|].
  by apply (proj1 (select_item_None _ _) Hsel).
Qed.

(** The row a step writes belongs to the caller. *)
Lemma sync_item_writes_own st item_data st' :
  sync_item st item_data = Ok st' →
  ∃ i row, item_id_of item_data st.2 = (i, st'.2) ∧ st'.1 = <[i := row]> st.1
    ∧ GroceryItem.user_id row = current_user
    ∧ ∀ r, st.1 !! i = Some r → Spec.keeps_unsubmitted r row.
Proof.
  intros (i & row & Hid & Htbl & Hrow)%sync_item_inv. exists i, row.
  split; [done|]. split; [done|].
  destruct (select_item st.1 i) as [existing|] eqn:Hsel.
  - apply select_item_Some in Hsel as [Hi Hu]. subst row. split.
    + rewrite <- Hu. apply flushed_overwrite_keeps.
    + intros r. rewrite Hi. intros [= <-]. apply flushed_overwrite_keeps.
  - destruct Hrow as (-> & Hi & _). split; [done|]. intros r. by rewrite Hi.
Qed.

(** *** The loop *)

Lemma sync_items_cons st item_data l st' :
  sync_items st (item_data :: l) = Ok st' →
  ∃ st1, item_taken item_data = true
    ∧ sync_item st item_data = Ok st1
    ∧ sync_items st1 l = Ok st'.
Proof.
  cbn [Grocery.sync_items]. unfold Grocery.sync_step.
  destruct (item_taken item_data); [|done].
  destruct (sync_item st item_data) as [st1|] eqn:Hstep; [|done].
  cbn. intros Hrest. by exists st1.
Qed.

Lemma sync_items_app st l1 l2 :
  sync_items st (l1 ++ l2) = sync_items st l1 ≫= λ st', sync_items st' l2.
Proof.
  revert st. induction l1 as [|item_data l1 IH]; intros st; [done|].
  cbn [app Grocery.sync_items]. destruct (sync_step st item_data) as [st1|]; [|done].
  apply IH.
Qed.

(** A row of the caller stays, with the columns no item carries. *)
Lemma sync_items_keeps x st l st' r :
  st.1 !! x = Some r →
  sync_items st l = Ok st' →
  ∃ r', st'.1 !! x = Some r' ∧ Spec.keeps_unsubmitted r r'.
Proof.
  revert st r. induction l as [|item_data l IH]; intros st r Hx.
  - intros [= <-]. by exists r.
  - intros (st1 & _ & Hstep & Hrest)%sync_items_cons.
    destruct (sync_item_writes_own _ _ _ Hstep) as (i & row & _ & Htbl & _ & Hkeep).
    destruct (decide (i = x)) as [->|Hne].
    + destruct (IH st1 row) as (r' & Hr' & Hk); [by rewrite Htbl, lookup_insert_eq|done|].
      exists r'. split; [done|]. eapply keeps_unsubmitted_trans; [by apply Hkeep|done].
    + apply (IH st1 r); [|done]. by rewrite Htbl, lookup_insert_ne.
Qed.

(** A free id stays free, or is taken by a row created in this call. *)
Lemma sync_items_creates x st l st' :
  st.1 !! x = None →
  sync_items st l = Ok st' →
  st'.1 !! x = None
  ∨ ∃ r', st'.1 !! x = Some r' ∧ Spec.newly_created current_user db_now r'.
Proof.
  revert st. induction l as [|item_data l IH]; intros st Hx.
  - intros [= <-]. by left.
  - intros (st1 & _ & Hstep & Hrest)%sync_items_cons.
    destruct (sync_item_inv _ _ _ Hstep) as (i & row & _ & Htbl & Hrow).
    destruct (decide (i = x)) as [->|Hne].
    + assert (select_item st.1 x = None) as Hsel.
      { apply select_item_None. intros r. by rewrite Hx. }
      rewrite Hsel in Hrow. destruct Hrow as (-> & _).
      destruct (sync_items_keeps x st1 l st' (new_item item_data)) as (r' & Hr' & Hk);
        [by rewrite Htbl, lookup_insert_eq|done|].
      right. exists r'. split; [done|].
      eapply newly_created_kept; [apply new_item_created|done].
    + apply (IH st1); [|done]. by rewrite Htbl, lookup_insert_ne.
Qed.

(** Items that do not name [x] leave its row alone, provided no generated
    identifier is [x]. *)
Lemma sync_items_untouched x st l st' :
  (∀ item_data, item_data ∈ l → GroceryItemCreate.id item_data ≠ Some x) →
  (∀ k, uuid4 k ≠ x) →
  sync_items st l = Ok st' →
  st'.1 !! x = st.1 !! x.
Proof.
  intros Hl Hfresh. revert st. induction l as [|item_data l IH]; intros st.
  - by intros [= <-].
  - intros (st1 & _ & Hstep & Hrest)%sync_items_cons.
    destruct (sync_item_inv _ _ _ Hstep) as (i & row & Hid & Htbl & _).
    rewrite (IH (λ it Hin, Hl it (proj2 (elem_of_cons _ _ _) (or_intror Hin))) st1 Hrest), Htbl.
    apply lookup_insert_ne. intros ->.
    apply item_id_of_cases in Hid as [(Hid & _)|[(_ & Hu & _)|(_ & Hu & _)]].
    + by apply (Hl item_data); [apply elem_of_cons; left|].
    + by apply (Hfresh st.2).
    + by apply (Hfresh st.2).
Qed.

(** The last item that names [x] decides its row. *)
Lemma sync_items_last x st pre item_data post st' :
  GroceryItemCreate.id item_data = Some x → x ≠ "" →
  (∀ later, later ∈ post → GroceryItemCreate.id later ≠ Some x) →
  (∀ k, uuid4 k ≠ x) →
  sync_items st (pre ++ item_data :: post) = Ok st' →
  ∃ mid, sync_items st pre = Ok mid
    ∧ match select_item mid.1 x with
      | Some existing =>
          st'.1 !! x = Some (flushed db_now existing (overwrite existing item_data))
      | None => st'.1 !! x = Some (new_item item_data) ∧ mid.1 !! x = None
      end.
Proof.
  intros Hid Hx Hpost Hfresh. rewrite sync_items_app.
  destruct (sync_items st pre) as [mid|]; [|done].
  intros (st1 & _ & Hstep & Hrest)%sync_items_cons.
  exists mid. split; [done|].
  rewrite (sync_items_untouched x st1 post st' Hpost Hfresh Hrest).
  destruct (sync_item_inv _ _ _ Hstep) as (i & row & Hi & Htbl & Hrow).
  assert (i = x) as ->.
  { unfold Grocery.item_id_of in Hi. rewrite Hid in Hi.
    destruct x; [done|]. by injection Hi as <-. }
  rewrite Htbl, lookup_insert_eq.
  destruct (select_item mid.1 x); [by subst|]. by destruct Hrow as (-> & ? & _).
Qed.

(** *** The delete statement and the final query *)

Lemma delete_items_lookup tbl ids k :
  delete_items current_user tbl ids !! k =
    match tbl !! k with
    | Some r =>
        if decide (k ∈ ids ∧ GroceryItem.user_id r = current_user) then None else Some r
    | None => None
    end.
Proof.
  unfold delete_items. destruct (tbl !! k) as [r|] eqn:Hk.
  - destruct (decide _) as [Hd|Hd].
    + apply map_lookup_filter_None. right. intros r' Hr'. simpl.
      rewrite Hk in Hr'. injection Hr' as <-. tauto.
    + by apply map_lookup_filter_Some.
  - apply map_lookup_filter_None. by left.
Qed.

Lemma process_deleted_lookup tbl ids k :
  process_deleted current_user tbl ids !! k = delete_items current_user tbl ids !! k.
Proof.
  rewrite delete_items_lookup. destruct ids as [|i ids]; [|by rewrite <- delete_items_lookup].
  cbn. destruct (tbl !! k) as [r|]; [|done].
  destruct (decide _) as [[Hin _]|]; [|done]. by apply elem_of_nil in Hin.
Qed.

Lemma select_all_elem tbl (resp : GroceryItemResponse.t) :
  resp ∈ select_all current_user tbl ↔
  ∃ k r, tbl !! k = Some r ∧ GroceryItem.user_id r = current_user
         ∧ resp = grocery_to_response k r.
Proof.
  unfold select_all. rewrite list_elem_of_fmap. split.
  - intros ([k r] & -> & Hin). apply elem_of_map_to_list in Hin.
    apply map_lookup_filter_Some in Hin as [Hk Hu]. by exists k, r.
  - intros (k & r & Hk & Hu & ->). exists (k, r). split; [done|].
    apply elem_of_map_to_list. by apply map_lookup_filter_Some.
Qed.

(** The handler, unfolded once. *)
Lemma sync_groceries_Ok sync_timestamp tbl sync_request resp tbl' :
  sync_groceries current_user db_now uuid4 sync_timestamp tbl sync_request = (Ok resp, tbl') →
  ∃ drawn,
    sync_items (process_deleted current_user tbl (GrocerySyncRequest.deleted_ids sync_request), 0%nat)
      (GrocerySyncRequest.items sync_request) = Ok (tbl', drawn)
    ∧ resp = {| GrocerySyncResponse.items := select_all current_user tbl';
                GrocerySyncResponse.deleted_ids := [];
                GrocerySyncResponse.sync_timestamp := sync_timestamp |}.
Proof.
  unfold sync_groceries. destruct (deleted_taken _); [|done]. cbn [negb].
  destruct (sync_items _ _) as [[merged drawn]|] eqn:Hloop; [|done].
  intros [= Hresp Htbl]. subst. by exists drawn.
Qed.

Lemma sync_groceries_taken sync_timestamp tbl sync_request resp tbl' :
  sync_groceries current_user db_now uuid4 sync_timestamp tbl sync_request = (Ok resp, tbl') →
  deleted_taken (GrocerySyncRequest.deleted_ids sync_request) = true.
Proof. unfold sync_groceries. by destruct (deleted_taken _). Qed.

Lemma process_deleted_foreign tbl ids k r :
  GroceryItem.user_id r ≠ current_user →
  process_deleted current_user tbl ids !! k = Some r ↔ tbl !! k = Some r.
Proof.
  intros Hu. rewrite process_deleted_lookup, delete_items_lookup.
  destruct (tbl !! k) as [r0|]; [|done].
  destruct (decide _) as [[_ Hr0]|]; [|done].
  split; [done|]. intros [= ->]. done.
Qed.

(** Rows of other users are neither changed, removed nor added. *)
Lemma sync_items_foreign st l st' k r :
  GroceryItem.user_id r ≠ current_user →
  sync_items st l = Ok st' →
  st'.1 !! k = Some r ↔ st.1 !! k = Some r.
Proof.
  intros Hu. revert st. induction l as [|item_data l IH]; intros st.
  - by intros [= <-].
  - intros (st1 & _ & Hstep & Hrest)%sync_items_cons. rewrite (IH st1 Hrest).
    destruct (sync_item_inv _ _ _ Hstep) as (i & row & _ & -> & Hrow).
    destruct (decide (i = k)) as [->|Hne]; [|by rewrite lookup_insert_ne].
    rewrite lookup_insert_eq.
    destruct (select_item st.1 k) as [existing|] eqn:Hsel.
    + apply select_item_Some in Hsel as [Hk Hown]. rewrite Hk.
      pose proof (flushed_overwrite_keeps existing item_data) as (Hown' & _).
      subst row. split; intros [= <-]; congruence.
    + destruct Hrow as (-> & -> & _). split; [|done]. intros [= <-]. done.
Qed.

(** Every item of a batch that went through has a row of the caller. *)
Lemma sync_items_present st l st' item_data :
  sync_items st l = Ok st' → item_data ∈ l →
  ∃ i row, st'.1 !! i = Some row ∧ GroceryItem.user_id row = current_user
    ∧ (GroceryItemCreate.id item_data = Some i ∨ ∃ k, i = uuid4 k).
Proof.
  revert st. induction l as [|first l IH]; intros st Hloop Hin;
    [by apply elem_of_nil in Hin|].
  apply sync_items_cons in Hloop as (st1 & _ & Hstep & Hloop).
  apply elem_of_cons in Hin as [->|Hin]; [|by apply (IH st1)].
  destruct (sync_item_writes_own _ _ _ Hstep) as (i & row & Hid & Htbl & Hown & _).
  destruct (sync_items_keeps i st1 l st' row) as (r' & Hr' & Hu' & _);
    [by rewrite Htbl, lookup_insert_eq|done|].
  exists i, r'. split; [done|]. split; [congruence|].
  apply item_id_of_cases in Hid as [(Hid & _)|[(_ & -> & _)|(_ & Hi & _)]]; eauto.
Qed.

(** C1, as the code has it.  The delete statement runs first and removes
    the caller's row [x]; the loop then finds no row for the submitted item
    [x] and inserts one.  So after a sync that both deletes [x] and submits
    an item with id [x], the returned set contains [x]: a row created in
    this call (new creation timestamp, not consumed) that holds what the
    last submitted item with that id carries. *)
Theorem deleted_then_resubmitted_is_recreated
    sync_timestamp tbl sync_request x old pre item_data post resp tbl' :
  x ∈ GrocerySyncRequest.deleted_ids sync_request →
  tbl !! x = Some old →
  GroceryItem.user_id old = current_user →
  GrocerySyncRequest.items sync_request = pre ++ item_data :: post →
  GroceryItemCreate.id item_data = Some x →
  x ≠ "" →
  (∀ later, later ∈ post → GroceryItemCreate.id later ≠ Some x) →
  (∀ k, uuid4 k ≠ x) →
  sync_groceries current_user db_now uuid4 sync_timestamp tbl sync_request = (Ok resp, tbl') →
  process_deleted current_user tbl (GrocerySyncRequest.deleted_ids sync_request) !! x = None
  ∧ ∃ row, tbl' !! x = Some row
      ∧ Spec.holds_submitted row item_data
      ∧ Spec.newly_created current_user db_now row
      ∧ grocery_to_response x row ∈ GrocerySyncResponse.items resp.
Proof.
  intros Hdel Hold Hown Hitems Hid Hx Hpost Hfresh Hsync.
  assert (Hgone : process_deleted current_user tbl
            (GrocerySyncRequest.deleted_ids sync_request) !! x = None).
  { rewrite process_deleted_lookup, delete_items_lookup, Hold. by rewrite decide_True. }
  split; [done|].
  apply sync_groceries_Ok in Hsync as (drawn & Hloop & ->). rewrite Hitems in Hloop.
  destruct (sync_items_last x _ pre item_data post _ Hid Hx Hpost Hfresh Hloop)
    as (mid & Hpre & Hrow).
  assert (∃ row, tbl' !! x = Some row ∧ Spec.holds_submitted row item_data
            ∧ Spec.newly_created current_user db_now row) as (row & Hrow' & Hholds & Hnew).
  { destruct (select_item mid.1 x) as [existing|] eqn:Hsel.
    - eexists. split; [exact Hrow|]. split; [apply flushed_overwrite_holds|].
      apply select_item_Some in Hsel as [Hmid _].
      destruct (sync_items_creates x (_, _) pre mid Hgone Hpre) as [Hnone|(r' & Hr' & Hcreated)];
        [cbn in Hnone; congruence|].
      cbn in Hr'. rewrite Hmid in Hr'. injection Hr' as <-.
      eapply newly_created_kept; [done|apply flushed_overwrite_keeps].
    - destruct Hrow as [Hrow _]. eexists. split; [exact Hrow|].
      split; [apply new_item_holds|apply new_item_created]. }
  exists row. split; [exact Hrow'|]. split; [exact Hholds|]. split; [exact Hnew|].
  cbn. apply select_all_elem. exists x, row. by destruct Hnew as (-> & _).
Qed.

(** C4.  An item whose id has a row of the caller when the handler looks it
    up is never inserted: the row is rewritten so that every column a sync
    item carries holds the submitted value, whatever the row's [updated_at]
    was, while the creation timestamp and the other columns no sync item
    can carry stay as stored.  Hence, after a sync that submits an item with
    the id [x] of a row of the caller (and does not delete [x]), the row and
    the response hold what the last such item submits, with the creation
    timestamp of the stored row. *)
Theorem sync_overwrites_existing_row sync_timestamp tbl sync_request :
  (∀ st item_data existing,
     select_item st.1 (item_id_of item_data st.2).1 = Some existing →
     ∃ row,
       sync_item st item_data
       = Ok (<[(item_id_of item_data st.2).1 := row]> st.1, (item_id_of item_data st.2).2)
       ∧ Spec.holds_submitted row item_data
       ∧ Spec.keeps_unsubmitted existing row
       ∧ GroceryItem.created_at row = GroceryItem.created_at existing)
  ∧ (∀ x old pre item_data post resp tbl',
     tbl !! x = Some old →
     GroceryItem.user_id old = current_user →
     x ∉ GrocerySyncRequest.deleted_ids sync_request →
     GrocerySyncRequest.items sync_request = pre ++ item_data :: post →
     GroceryItemCreate.id item_data = Some x →
     x ≠ "" →
     (∀ later, later ∈ post → GroceryItemCreate.id later ≠ Some x) →
     (∀ k, uuid4 k ≠ x) →
     sync_groceries current_user db_now uuid4 sync_timestamp tbl sync_request
     = (Ok resp, tbl') →
     ∃ row, tbl' !! x = Some row
       ∧ Spec.holds_submitted row item_data
       ∧ Spec.keeps_unsubmitted old row
       ∧ GroceryItem.created_at row = GroceryItem.created_at old
       ∧ grocery_to_response x row ∈ GrocerySyncResponse.items resp).
Proof.
  split.
  { intros st item_data existing Hsel.
    exists (flushed db_now existing (overwrite existing item_data)).
    unfold Grocery.sync_item.
    destruct (item_id_of item_data st.2) as [i drawn]. cbn in Hsel. rewrite Hsel. cbn.
    split; [done|]. split; [apply flushed_overwrite_holds|].
    split; apply flushed_overwrite_keeps. }
  intros x old pre item_data post resp tbl' Hold Hown Hdel Hitems Hid Hx Hpost Hfresh Hsync.
  assert (Hstays : process_deleted current_user tbl
            (GrocerySyncRequest.deleted_ids sync_request) !! x = Some old).
  { rewrite process_deleted_lookup, delete_items_lookup, Hold.
    rewrite decide_False; [done|]. by intros [? _]. }
  apply sync_groceries_Ok in Hsync as (drawn & Hloop & ->). rewrite Hitems in Hloop.
  destruct (sync_items_last x _ pre item_data post _ Hid Hx Hpost Hfresh Hloop)
    as (mid & Hpre & Hrow).
  destruct (sync_items_keeps x (_, _) pre mid old Hstays Hpre) as (r & Hr & Hkept).
  assert (select_item mid.1 x = Some r) as Hsel.
  { apply select_item_Some. split; [done|]. destruct Hkept as (-> & _). done. }
  rewrite Hsel in Hrow.
  pose proof (keeps_unsubmitted_trans _ _ _ Hkept (flushed_overwrite_keeps r item_data))
    as Hkeeps.
  eexists. split; [exact Hrow|]. split; [apply flushed_overwrite_holds|].
  split; [done|]. split; [apply Hkeeps|].
  cbn. apply select_all_elem. eexists x, _. split; [exact Hrow|]. split; [|done].
  destruct Hkeeps as (-> & _). done.
Qed.

(** A row the store takes is the row of an item the store takes. *)
Lemma takes_no_nul width text : takes width text = true → has_nul text = false.
Proof. unfold takes. intros [H _]%andb_prop. by apply negb_true_iff. Qed.

Lemma row_taken_item_taken i item_data :
  GroceryItemCreate.id item_data = None ∨ GroceryItemCreate.id item_data = Some ""
  ∨ GroceryItemCreate.id item_data = Some i →
  row_taken i (new_item item_data) = true →
  item_taken item_data = true.
Proof.
  unfold row_taken, item_taken. cbn [Grocery.new_item GroceryItem.name GroceryItem.unit
    GroceryItem.barcode GroceryItem.notes]. intros Hid H.
  rewrite !andb_true_iff in H. destruct H as (((((((((Hi & _) & ?) & _) & _) & ?) & ?) & _) & ?) & _).
  rewrite !andb_true_iff. repeat split; try done.
  destruct Hid as [-> | [-> | ->]]; cbn [optional]; [done|done|].
  by apply negb_true_iff, (takes_no_nul (Some id_width)).
Qed.

(** C2, as the code has it.  An item without an id (or with the empty
    string as id) is inserted under the identifier drawn from [uuid4], and
    an item whose id has no row in the table is inserted under that very
    id, not under a generated one: both when the identifier is free and the
    store takes the row, that is when its text carries no NUL and fits the
    columns, the id among them.  A row the store does not take fails the
    step.  Whatever the request, the rows of other users are the same after
    the call as before it, and every item of the response belongs to the
    caller. *)
Theorem unknown_ids_are_inserted_and_users_isolated sync_timestamp tbl sync_request :
  (∀ st item_data,
     GroceryItemCreate.id item_data = None ∨ GroceryItemCreate.id item_data = Some "" →
     st.1 !! uuid4 st.2 = None →
     row_taken (uuid4 st.2) (new_item item_data) = true →
     sync_step st item_data = Ok (<[uuid4 st.2 := new_item item_data]> st.1, S st.2))
  ∧ (∀ st item_data x,
     GroceryItemCreate.id item_data = Some x → x ≠ "" →
     st.1 !! x = None →
     row_taken x (new_item item_data) = true →
     sync_step st item_data = Ok (<[x := new_item item_data]> st.1, st.2))
  ∧ (∀ st item_data,
     select_item st.1 (item_id_of item_data st.2).1 = None →
     row_taken (item_id_of item_data st.2).1 (new_item item_data) = false →
     sync_step st item_data = Raise DBAPIError)
  ∧ (∀ k r,
     GroceryItem.user_id r ≠ current_user →
     (sync_groceries current_user db_now uuid4 sync_timestamp tbl sync_request).2 !! k = Some r
     ↔ tbl !! k = Some r)
  ∧ (∀ resp item,
     (sync_groceries current_user db_now uuid4 sync_timestamp tbl sync_request).1 = Ok resp →
     item ∈ GrocerySyncResponse.items resp →
     GroceryItemResponse.user_id item = current_user).
Proof.
  split; [|split; [|split; [|split]]].
  - intros st item_data Hid Hfree Htaken. unfold Grocery.sync_step.
    rewrite (row_taken_item_taken (uuid4 st.2)) by tauto.
    unfold Grocery.sync_item, Grocery.item_id_of.
    assert (select_item st.1 (uuid4 st.2) = None) as Hsel.
    { apply select_item_None. intros r. by rewrite Hfree. }
    destruct Hid as [Hid | Hid]; rewrite Hid in *; cbn; rewrite Hsel; unfold insert_row;
      rewrite Htaken, Hfree; done.
  - intros st item_data x Hid Hx Hfree Htaken. unfold Grocery.sync_step.
    rewrite (row_taken_item_taken x) by tauto.
    unfold Grocery.sync_item, Grocery.item_id_of.
    rewrite Hid. destruct x as [|c x]; [done|]. cbn [is_empty].
    assert (select_item st.1 (String c x) = None) as Hsel.
    { apply select_item_None. intros r. by rewrite Hfree. }
    cbn. rewrite Hsel. unfold insert_row. rewrite Htaken, Hfree. done.
  - intros st item_data. unfold Grocery.sync_step, Grocery.sync_item, insert_row.
    destruct (item_taken item_data); [|done].
    destruct (item_id_of item_data st.2) as [i drawn]. cbn [fst].
    by intros -> ->.
  - intros k r Hu. unfold sync_groceries.
    destruct (deleted_taken _); [|done]. cbn [negb].
    destruct (sync_items _ _) as [[merged drawn]|] eqn:Hloop; [|done]. cbn.
    rewrite (sync_items_foreign _ _ _ k r Hu Hloop). cbn.
    by apply process_deleted_foreign.
  - intros resp item Hsync Hin.
    destruct (sync_groceries _ _ _ _ _ _) as [r tbl'] eqn:Hcall. cbn in Hsync. subst r.
    apply sync_groceries_Ok in Hcall as (drawn & _ & ->). cbn in Hin.
    apply select_all_elem in Hin as (k & r & _ & Hu & ->). done.
Qed.

Lemma validate_sync_rejects body b :
  b ∈ SyncBody.items body → validate_item b = None → validate_sync body = None.
Proof.
  intros Hin Hb. unfold validate_sync.
  rewrite (mapM_None_2 validate_item (SyncBody.items body)); [done|].
  apply Exists_exists. by exists b.
Qed.

Lemma validate_sync_items body req :
  validate_sync body = Some req →
  GrocerySyncRequest.deleted_ids req = SyncBody.deleted_ids body
  ∧ Forall2 (λ b item_data, validate_item b = Some item_data)
      (SyncBody.items body) (GrocerySyncRequest.items req).
Proof.
  unfold validate_sync. destruct (mapM validate_item _) as [items|] eqn:Hm; [|done].
  cbn. intros [= <-]. split; [done|]. by apply mapM_Some.
Qed.

(** A loop that fails, fails at one item, after the items before it went
    through. *)
Lemma sync_items_Raise st l e :
  sync_items st l = Raise e →
  ∃ pre item_data post mid,
    l = pre ++ item_data :: post
    ∧ sync_items st pre = Ok mid
    ∧ sync_step mid item_data = Raise e.
Proof.
  revert st. induction l as [|first l IH]; intros st; [done|].
  cbn [Grocery.sync_items]. destruct (sync_step st first) as [st1|e1] eqn:Hstep.
  - cbn. intros (pre & item_data & post & mid & -> & Hpre & Hfail)%IH.
    exists (first :: pre), item_data, post, mid. split; [done|]. split; [|done].
    cbn [Grocery.sync_items]. by rewrite Hstep.
  - cbn. intros [= ->]. by exists [], first, l, st.
Qed.

(** A loop that goes through has met no text the store refuses, and no id
    that a row of another user holds. *)
Lemma sync_items_taken st l st' item_data :
  sync_items st l = Ok st' → item_data ∈ l → item_taken item_data = true.
Proof.
  revert st. induction l as [|first l IH]; intros st Hloop Hin;
    [by apply elem_of_nil in Hin|].
  apply sync_items_cons in Hloop as (st1 & Htaken & _ & Hloop).
  apply elem_of_cons in Hin as [->|Hin]; [done|by apply (IH st1)].
Qed.

Lemma sync_items_key_free st l st' item_data x row :
  sync_items st l = Ok st' → item_data ∈ l →
  GroceryItemCreate.id item_data = Some x → x ≠ "" →
  st.1 !! x = Some row → GroceryItem.user_id row ≠ current_user →
  False.
Proof.
  intros Hloop Hin Hid Hx Hrow Hu. revert st Hloop Hrow.
  induction l as [|first l IH]; intros st Hloop Hrow; [by apply elem_of_nil in Hin|].
  apply sync_items_cons in Hloop as (st1 & _ & Hstep & Hloop).
  destruct (sync_item_inv _ _ _ Hstep) as (i & r & Hi & Htbl & Hr).
  assert (select_item st.1 x = None) as Hsel.
  { apply select_item_None. intros r0. rewrite Hrow. by intros [= <-]. }
  assert (i ≠ x) as Hne.
  { intros ->. rewrite Hsel in Hr. destruct Hr as (_ & Hfree & _). congruence. }
  apply elem_of_cons in Hin as [->|Hin].
  - unfold Grocery.item_id_of in Hi. rewrite Hid in Hi.
    destruct x; [done|]. by injection Hi as <-.
  - apply (IH Hin st1 Hloop). by rewrite Htbl, lookup_insert_ne.
Qed.

(** The ids of the rows the loop writes; a row under another id is left
    alone. *)
Lemma item_ids_cons item_data l drawn :
  item_ids (item_data :: l) drawn
  = (item_id_of item_data drawn).1 :: item_ids l (item_id_of item_data drawn).2.
Proof. cbn [Grocery.item_ids]. by destruct (item_id_of item_data drawn). Qed.

Lemma sync_items_untouched_ids x st l st' :
  x ∉ item_ids l st.2 → sync_items st l = Ok st' → st'.1 !! x = st.1 !! x.
Proof.
  revert st. induction l as [|item_data l IH]; intros st Hx.
  - by intros [= <-].
  - intros (st1 & _ & Hstep & Hrest)%sync_items_cons.
    destruct (sync_item_inv _ _ _ Hstep) as (i & row & Hid & Htbl & _).
    rewrite item_ids_cons, Hid in Hx. cbn [fst snd] in Hx.
    apply not_elem_of_cons in Hx as [Hne Hx].
    rewrite (IH st1 Hx Hrest), Htbl. by apply lookup_insert_ne.
Qed.

(** The row a step writes holds what its item submits. *)
Lemma sync_item_writes_submitted st item_data st' :
  sync_item st item_data = Ok st' →
  ∃ i row, item_id_of item_data st.2 = (i, st'.2) ∧ st'.1 = <[i := row]> st.1
    ∧ GroceryItem.user_id row = current_user
    ∧ Spec.holds_submitted row item_data.
Proof.
  intros Hstep.
  destruct (sync_item_writes_own _ _ _ Hstep) as (i & row & Hid & Htbl & Hown & _).
  exists i, row. split; [done|]. split; [done|]. split; [done|].
  destruct (sync_item_inv _ _ _ Hstep) as (i' & row' & Hid' & Htbl' & Hrow).
  rewrite Hid in Hid'. injection Hid' as <-.
  assert (row' = row) as ->.
  { apply (f_equal (λ t : table, t !! i)) in Htbl'.
    rewrite Htbl, !lookup_insert_eq in Htbl'. by injection Htbl'. }
  destruct (select_item st.1 i) as [existing|].
  - subst row. apply flushed_overwrite_holds.
  - destruct Hrow as (-> & _). apply new_item_holds.
Qed.

(** After the loop, the row under an id holds what the last item written
    under that id submits. *)
Lemma sync_items_applied st l st' n item_data i :
  sync_items st l = Ok st' →
  l !! n = Some item_data →
  item_ids l st.2 !! n = Some i →
  (∀ m, (n < m)%nat → item_ids l st.2 !! m ≠ Some i) →
  ∃ row, st'.1 !! i = Some row
    ∧ GroceryItem.user_id row = current_user
    ∧ Spec.holds_submitted row item_data.
Proof.
  revert st n. induction l as [|first l IH]; intros st n Hloop Hn Hi Hlast; [done|].
  apply sync_items_cons in Hloop as (st1 & _ & Hstep & Hloop).
  rewrite item_ids_cons in Hi. setoid_rewrite item_ids_cons in Hlast.
  destruct (sync_item_writes_submitted _ _ _ Hstep) as (j & row & Hid & Htbl & Hown & Hholds).
  rewrite Hid in Hi, Hlast. cbn [fst snd] in Hi, Hlast.
  destruct n as [|n].
  - injection Hn as ->. injection Hi as ->.
    exists row. split; [|done].
    rewrite (sync_items_untouched_ids i st1 l st'); [by rewrite Htbl, lookup_insert_eq| |done].
    intros (m & Hm)%list_elem_of_lookup. by apply (Hlast (S m)); [lia|].
  - apply (IH st1 n); try done. intros m Hm. apply (Hlast (S m)). lia.
Qed.


(** *** Direct update *)

Lemma set_required_frame {A B} (p : GroceryItem.t → B) (set : A → GroceryItem.t → GroceryItem.t)
    entry o :
  (∀ v r, p (set v r) = p r) →
  p (attrs (set_required set entry o)) = p (attrs o).
Proof. intros Hp. destruct entry as [[v|]|]; cbn; [apply Hp|done|done]. Qed.

Lemma set_nullable_frame {A B} (p : GroceryItem.t → B)
    (set : option A → GroceryItem.t → GroceryItem.t) entry o :
  (∀ v r, p (set v r) = p r) →
  p (attrs (set_nullable set entry o)) = p (attrs o).
Proof. intros Hp. destruct entry as [v|]; cbn; [apply Hp|done]. Qed.

(** Each projection is pushed through the assignments that do not concern
    it. *)
Lemma apply_update_omitted item_data item :
  Spec.omitted_fields_kept item_data item
    (attrs (apply_update item_data {| attrs := item; null_in_required := false |})).
Proof.
  repeat split; intros H; unfold apply_update; rewrite H; cbn [set_required set_nullable];
    repeat first
      [ rewrite set_required_frame by (intros ? []; reflexivity)
      | rewrite set_nullable_frame by (intros ? []; reflexivity) ];
    reflexivity.
Qed.

Lemma apply_update_unnamed item_data item :
  Spec.unnamed_columns_kept item
    (attrs (apply_update item_data {| attrs := item; null_in_required := false |})).
Proof.
  repeat split; unfold apply_update;
    repeat first
      [ rewrite set_required_frame by (intros ? []; reflexivity)
      | rewrite set_nullable_frame by (intros ? []; reflexivity) ];
    reflexivity.
Qed.


End WithCaller.

(** *** The statements at work *)

Lemma uuids_not_x1 k : Sample.uuids k ≠ "x1".
Proof. unfold Sample.uuids. cbn. discriminate. Qed.

Lemma deleted_then_resubmitted_is_recreated_witness :
  process_deleted "alice" Sample.pantry ["x1"] !! "x1" = None
  ∧ ∃ row,
      (Sample.alice_syncs Sample.pantry (Sample.request [Sample.milk (Some "x1")] ["x1"])).2
        !! "x1" = Some row
      ∧ Spec.holds_submitted row (Sample.milk (Some "x1"))
      ∧ Spec.newly_created "alice" 50 row
      ∧ grocery_to_response "x1" row ∈
          GrocerySyncResponse.items
            (Sample.response_of
               (Sample.alice_syncs Sample.pantry
                  (Sample.request [Sample.milk (Some "x1")] ["x1"])).1).
Proof.
  apply (deleted_then_resubmitted_is_recreated "alice" 50 Sample.uuids 49 Sample.pantry
           (Sample.request [Sample.milk (Some "x1")] ["x1"]) "x1" (Sample.eggs "alice")
           [] (Sample.milk (Some "x1")) []).
  - constructor.
  - vm_compute. reflexivity.
  - reflexivity.
  - reflexivity.
  - reflexivity.
  - discriminate.
  - intros later Hin. inversion Hin.
  - apply uuids_not_x1.
  - vm_compute. reflexivity.
Defined.

(** The request deletes ["x1"], a row of the caller, and submits an item
    with id ["x1"]: the returned set is not without ["x1"], it consists of
    it. *)
Lemma deleted_id_is_in_the_response :
  "x1" ∈ GrocerySyncRequest.deleted_ids (Sample.request [Sample.milk (Some "x1")] ["x1"])
  ∧ GroceryItem.user_id <$> Sample.pantry !! "x1" = Some "alice"
  ∧ is_ok
      (Sample.alice_syncs Sample.pantry (Sample.request [Sample.milk (Some "x1")] ["x1"])).1
    = true
  ∧ Sample.response_ids
      (Sample.alice_syncs Sample.pantry (Sample.request [Sample.milk (Some "x1")] ["x1"])).1
    = ["x1"].
Proof. split; [constructor|]. repeat split; vm_compute; reflexivity. Qed.

Lemma sync_overwrites_existing_row_witness :
  ∃ row,
    (Sample.alice_syncs Sample.pantry (Sample.request [Sample.milk (Some "x1")] [])).2
      !! "x1" = Some row
    ∧ Spec.holds_submitted row (Sample.milk (Some "x1"))
    ∧ Spec.keeps_unsubmitted (Sample.eggs "alice") row
    ∧ GroceryItem.created_at row = GroceryItem.created_at (Sample.eggs "alice")
    ∧ grocery_to_response "x1" row ∈
        GrocerySyncResponse.items
          (Sample.response_of
             (Sample.alice_syncs Sample.pantry
                (Sample.request [Sample.milk (Some "x1")] [])).1).
Proof.
  apply (proj2 (sync_overwrites_existing_row "alice" 50 Sample.uuids 49 Sample.pantry
           (Sample.request [Sample.milk (Some "x1")] [])) "x1" (Sample.eggs "alice")
           [] (Sample.milk (Some "x1")) []).
  - vm_compute. reflexivity.
  - reflexivity.
  - intros Hin. inversion Hin.
  - reflexivity.
  - reflexivity.
  - discriminate.
  - intros later Hin. inversion Hin.
  - apply uuids_not_x1.
  - vm_compute. reflexivity.
Defined.

Lemma unknown_ids_are_inserted_and_users_isolated_witness :
  sync_step "alice" 50 Sample.uuids (Sample.pantry, 0%nat) (Sample.milk None)
  = Ok (<[Sample.uuids 0 := new_item "alice" 50 (Sample.milk None)]> Sample.pantry, 1%nat).
Proof.
  refine (proj1
    (unknown_ids_are_inserted_and_users_isolated "alice" 50 Sample.uuids 49 Sample.pantry
       (Sample.request [] []))
    (Sample.pantry, 0%nat) (Sample.milk None) _ _ _).
  - left. reflexivity.
  - vm_compute. reflexivity.
  - vm_compute. reflexivity.
Defined.

(** The id ["x1"] has no row; the item is stored under ["x1"] itself, no
    identifier is generated for it.  And when the id is the one of a row of
    bob, nothing is created for alice: the insert hits the primary key. *)
Lemma submitted_id_is_kept :
  (<["b1" := Sample.eggs "bob"]> (∅ : table)) !! "x1" = None
  ∧ (map_to_list
       (Sample.alice_syncs (<["b1" := Sample.eggs "bob"]> ∅)
          (Sample.request [Sample.milk (Some "x1")] [])).2).*1 = ["b1"; "x1"]
  ∧ is_ok
      (Sample.alice_syncs (<["b1" := Sample.eggs "bob"]> ∅)
         (Sample.request [Sample.milk (Some "x1")] [])).1 = true
  ∧ Sample.response_ids
      (Sample.alice_syncs (<["b1" := Sample.eggs "bob"]> ∅)
         (Sample.request [Sample.milk (Some "x1")] [])).1 = ["x1"]
  ∧ Sample.alice_syncs Sample.pantry (Sample.request [Sample.milk (Some "b1")] [])
    = (Raise IntegrityError, Sample.pantry).
Proof. repeat split; vm_compute; reflexivity. Qed.




End SyncFacts.

(** ** Creating, reading and deleting an item *)
Module ItemFacts.
Import Grocery Items.

Section WithCaller.
Variable current_user : string.
Variable db_now : datetime.

Local Abbreviation select_item := (select_item current_user).
Local Abbreviation get_grocery := (get_grocery current_user).
Local Abbreviation delete_grocery := (delete_grocery current_user).
Local Abbreviation create_grocery := (create_grocery current_user db_now).
Local Abbreviation mark_consumed := (mark_consumed current_user db_now).
Local Abbreviation update_grocery := (update_grocery current_user db_now).
Local Abbreviation new_item := (new_item current_user db_now).

Lemma get_grocery_Ok tbl item_id resp :
  get_grocery tbl item_id = Ok resp ↔
  ∃ row, tbl !! item_id = Some row ∧ GroceryItem.user_id row = current_user
         ∧ resp = grocery_to_response item_id row.
Proof.
  unfold Items.get_grocery.
  destruct (select_item tbl item_id) as [item|] eqn:Hsel.
  - apply SyncFacts.select_item_Some in Hsel as [Hi Hu]. split.
    + intros [= <-]. by exists item.
    + intros (row & Hrow & _ & ->). rewrite Hi in Hrow. by injection Hrow as ->.
  - split; [done|]. intros (row & Hrow & Hu & _).
    by destruct (proj1 (SyncFacts.select_item_None _ _ _) Hsel row Hrow).
Qed.

Lemma get_grocery_404 tbl item_id :
  get_grocery tbl item_id = Raise (HTTPException 404) ↔
  ∀ row, tbl !! item_id = Some row → GroceryItem.user_id row ≠ current_user.
Proof.
  rewrite <- SyncFacts.select_item_None. unfold Items.get_grocery.
  by destruct (select_item tbl item_id).
Qed.

Lemma create_grocery_Ok uuid4 tbl item_data resp tbl' :
  create_grocery uuid4 tbl item_data = (Ok resp, tbl') →
  tbl !! (item_id_of uuid4 item_data 0).1 = None
  ∧ row_taken (item_id_of uuid4 item_data 0).1 (new_item item_data) = true
  ∧ tbl' = <[(item_id_of uuid4 item_data 0).1 := new_item item_data]> tbl
  ∧ resp = grocery_to_response (item_id_of uuid4 item_data 0).1 (new_item item_data).
Proof.
  unfold Items.create_grocery, insert_row.
  set (item_id := (item_id_of uuid4 item_data 0).1). intros H.
  destruct (row_taken item_id (new_item item_data)); [|done].
  destruct (tbl !! item_id) eqn:Hi; [done|].
  by injection H as <- <-.
Qed.

(** X1.  A created item is read back: when [POST /groceries] succeeds,
    [GET /groceries/{id}] with the id of the response returns that very
    response; the id is the submitted one, or a generated one when the body
    gives none or an empty one; the id had no row before; the stored row
    holds the submitted values, belongs to the caller, is not consumed and
    is stamped with the time of the insert; no other row changes. *)
Theorem created_item_is_read_back uuid4 tbl item_data resp tbl' :
  create_grocery uuid4 tbl item_data = (Ok resp, tbl') →
  get_grocery tbl' (GroceryItemResponse.id resp) = Ok resp
  ∧ GroceryItemResponse.id resp = (item_id_of uuid4 item_data 0).1
  ∧ tbl !! GroceryItemResponse.id resp = None
  ∧ (∃ row, tbl' !! GroceryItemResponse.id resp = Some row
       ∧ Spec.holds_submitted row item_data
       ∧ Spec.newly_created current_user db_now row
       ∧ GroceryItem.updated_at row = db_now)
  ∧ (∀ k, k ≠ GroceryItemResponse.id resp → tbl' !! k = tbl !! k).
Proof.
  intros (Hfree & _ & -> & ->)%create_grocery_Ok. cbn [GroceryItemResponse.id].
  set (item_id := (item_id_of uuid4 item_data 0).1) in *.
  split; [|split; [done|split; [done|split]]].
  - apply get_grocery_Ok. exists (new_item item_data).
    by rewrite lookup_insert_eq.
  - exists (new_item item_data). rewrite lookup_insert_eq.
    split; [done|]. split; [apply SyncFacts.new_item_holds|]. done.
  - intros k Hk. by rewrite lookup_insert_ne.
Qed.

(** X2.  [POST /groceries] never overwrites, so a create cannot be
    repeated: once a create has gone through, a further create under the id
    of its response, by the same user or by another, with the same values or
    with others, fails and leaves the table as the first create left it.
    It fails on the primary key when the store takes the text of the new
    row, and on that text otherwise. *)
Theorem create_never_overwrites uuid4 tbl item_data resp tbl'
    other_user later uuid4' again :
  create_grocery uuid4 tbl item_data = (Ok resp, tbl') →
  GroceryItemCreate.id again = Some (GroceryItemResponse.id resp) →
  GroceryItemResponse.id resp ≠ "" →
  Items.create_grocery other_user later uuid4' tbl' again
  = (Raise (if row_taken (GroceryItemResponse.id resp)
                 (Grocery.new_item other_user later again)
            then IntegrityError else DBAPIError), tbl').
Proof.
  intros (_ & _ & -> & ->)%create_grocery_Ok. cbn [GroceryItemResponse.id].
  set (x := (item_id_of uuid4 item_data 0).1). intros Hid Hx.
  unfold Items.create_grocery, insert_row, item_id_of. rewrite Hid.
  destruct x as [|c x]; [done|]. cbn [is_empty fst].
  destruct (row_taken _ _); cbn [negb]; [|done].
  by rewrite lookup_insert_eq.
Qed.

(** X3.  [DELETE /groceries/{id}] succeeds exactly on the ids
    [GET /groceries/{id}] can read: it removes that row and no other, after
    which the id reads as 404; on an id that reads as 404 it answers 404 and
    changes nothing. *)
Theorem delete_grocery_removes_the_row tbl item_id :
  (∀ resp, get_grocery tbl item_id = Ok resp →
     ∃ tbl', delete_grocery tbl item_id = (Ok tt, tbl')
       ∧ tbl' !! item_id = None
       ∧ get_grocery tbl' item_id = Raise (HTTPException 404)
       ∧ ∀ k, k ≠ item_id → tbl' !! k = tbl !! k)
  ∧ (get_grocery tbl item_id = Raise (HTTPException 404) →
     delete_grocery tbl item_id = (Raise (HTTPException 404), tbl)).
Proof.
  unfold Items.delete_grocery, Items.get_grocery.
  destruct (select_item tbl item_id) as [item|] eqn:Hsel; split; try done.
  intros resp _. exists (delete item_id tbl). split; [done|].
  split; [by rewrite lookup_delete_eq|]. split.
  - unfold Grocery.select_item. by rewrite lookup_delete_eq.
  - intros k Hk. by rewrite lookup_delete_ne.
Qed.

(** X4.  Deleting the item a [POST /groceries] has just created gives the
    table of before the creation back. *)
Theorem create_then_delete_restores uuid4 tbl item_data resp tbl' :
  create_grocery uuid4 tbl item_data = (Ok resp, tbl') →
  delete_grocery tbl' (GroceryItemResponse.id resp) = (Ok tt, tbl).
Proof.
  intros (Hfree & _ & -> & ->)%create_grocery_Ok. cbn [GroceryItemResponse.id].
  set (item_id := (item_id_of uuid4 item_data 0).1) in *.
  unfold Items.delete_grocery, Grocery.select_item. rewrite lookup_insert_eq.
  cbn [GroceryItem.user_id Grocery.new_item]. rewrite String.eqb_refl.
  by rewrite delete_insert_id.
Qed.

End WithCaller.

(** *** The statements at work *)

Lemma created_item_is_read_back_witness :
  get_grocery "alice"
    (<[Sample.uuids 0 := new_item "alice" 50 (Sample.milk None)]> Sample.pantry)
    (Sample.uuids 0)
  = Ok (grocery_to_response (Sample.uuids 0) (new_item "alice" 50 (Sample.milk None))).
Proof.
  refine (proj1
    (created_item_is_read_back "alice" 50 Sample.uuids Sample.pantry (Sample.milk None)
       (grocery_to_response (Sample.uuids 0) (new_item "alice" 50 (Sample.milk None)))
       (<[Sample.uuids 0 := new_item "alice" 50 (Sample.milk None)]> Sample.pantry) _)).
  vm_compute. reflexivity.
Defined.

Lemma create_never_overwrites_witness :
  Items.create_grocery "bob" 60 Sample.uuids
    (<["m1" := new_item "alice" 50 (Sample.milk (Some "m1"))]> Sample.pantry)
    (Sample.milk (Some "m1"))
  = (Raise IntegrityError,
     <["m1" := new_item "alice" 50 (Sample.milk (Some "m1"))]> Sample.pantry).
Proof.
  refine (create_never_overwrites "alice" 50 Sample.uuids Sample.pantry
    (Sample.milk (Some "m1"))
    (grocery_to_response "m1" (new_item "alice" 50 (Sample.milk (Some "m1"))))
    (<["m1" := new_item "alice" 50 (Sample.milk (Some "m1"))]> Sample.pantry)
    "bob" 60 Sample.uuids (Sample.milk (Some "m1")) _ _ _).
  - vm_compute. reflexivity.
  - reflexivity.
  - discriminate.
Defined.

Lemma delete_grocery_removes_the_row_witness :
  ∃ tbl',
    delete_grocery "alice" Sample.pantry "x1" = (Ok tt, tbl')
    ∧ tbl' !! "x1" = None
    ∧ get_grocery "alice" tbl' "x1" = Raise (HTTPException 404)
    ∧ ∀ k, k ≠ "x1" → tbl' !! k = Sample.pantry !! k.
Proof.
  apply (proj1 (delete_grocery_removes_the_row "alice" Sample.pantry "x1")
           (grocery_to_response "x1" (Sample.eggs "alice"))).
  vm_compute. reflexivity.
Defined.

Lemma create_then_delete_restores_witness :
  delete_grocery "alice"
    (<[Sample.uuids 0 := new_item "alice" 50 (Sample.milk None)]> Sample.pantry)
    (Sample.uuids 0)
  = (Ok tt, Sample.pantry).
Proof.
  refine (create_then_delete_restores "alice" 50 Sample.uuids Sample.pantry (Sample.milk None)
    (grocery_to_response (Sample.uuids 0) (new_item "alice" 50 (Sample.milk None)))
    (<[Sample.uuids 0 := new_item "alice" 50 (Sample.milk None)]> Sample.pantry) _).
  vm_compute. reflexivity.
Defined.

End ItemFacts.

(** ** The listing *)
Module ListingFacts.
Import Grocery Items.

Lemma StronglySorted_take {A} (R : relation A) n l :
  StronglySorted R l → StronglySorted R (take n l).
Proof.
  intros Hs. revert n. induction Hs as [|a l Hs IH Hall]; intros [|n]; cbn; try constructor.
  - apply IH.
  - apply Forall_take. done.
Qed.

Lemma StronglySorted_drop {A} (R : relation A) n l :
  StronglySorted R l → StronglySorted R (drop n l).
Proof.
  intros Hs. revert n. induction Hs as [|a l Hs IH Hall]; intros [|n]; cbn; try constructor; auto.
Qed.

Lemma StronglySorted_fmap {A B} (R : relation A) (R' : relation B) (f : A → B) l :
  (∀ a b, R a b → R' (f a) (f b)) →
  StronglySorted R l → StronglySorted R' (f <$> l).
Proof.
  intros Hf. induction 1 as [|a l Hs IH Hall]; cbn; constructor; [done|].
  apply Forall_fmap. eapply Forall_impl; [done|]. intros b. apply Hf.
Qed.

#[local] Instance purchased_desc_trans : Transitive purchased_desc.
Proof. intros a b c. unfold purchased_desc. lia. Qed.

#[local] Instance purchased_desc_total : Total purchased_desc.
Proof. intros a b. unfold purchased_desc. lia. Qed.

Section WithCaller.
Variable current_user : string.

Local Abbreviation selected := (selected current_user).
Local Abbreviation get_groceries := (get_groceries current_user).

(** The rows the query of [get_groceries] ranges over. *)
Lemma get_groceries_Ok tbl category storage_location include_consumed skip limit items :
  get_groceries tbl category storage_location include_consumed skip limit = Ok items →
  0 ≤ skip ∧ 1 ≤ limit ≤ 500
  ∧ items = (λ kv, grocery_to_response kv.1 kv.2) <$>
      take (Z.to_nat limit) (drop (Z.to_nat skip)
        (merge_sort purchased_desc
           (map_to_list (filter
              (λ kv, selected category storage_location include_consumed kv.2 = true) tbl)))).
Proof.
  unfold Items.get_groceries.
  destruct (Z.leb_spec 0 skip); [|done].
  destruct (Z.leb_spec 1 limit); [|done].
  destruct (Z.leb_spec limit 500); [|done].
  cbn. intros [= <-]. done.
Qed.

Lemma selected_spec category storage_location include_consumed row :
  selected category storage_location include_consumed row = true ↔
  GroceryItem.user_id row = current_user
  ∧ (include_consumed = false → GroceryItem.is_consumed row = false)
  ∧ (∀ c, category = Some c → c ≠ "" → GroceryItem.category row = c)
  ∧ (∀ l, storage_location = Some l → l ≠ "" → GroceryItem.storage_location row = l).
Proof.
  unfold Items.selected. rewrite !andb_true_iff, String.eqb_eq.
  assert (Hopt : ∀ (o : option string) (v : string),
    (if Recipes.given_str o then String.eqb v (Recipes.or_empty o) else true) = true
    ↔ ∀ c, o = Some c → c ≠ "" → v = c).
  { intros [[|a c]|] v; cbn.
    - split; [|done]. by intros _ c [= <-].
    - rewrite String.eqb_eq. split; [by intros -> ? [= <-]|]. intros H. by apply H.
    - done. }
  rewrite !Hopt.
  assert (Hc : include_consumed || negb (GroceryItem.is_consumed row) = true
               ↔ (include_consumed = false → GroceryItem.is_consumed row = false)).
  { destruct include_consumed, (GroceryItem.is_consumed row); cbn; split; auto.
    intros H. by specialize (H eq_refl). }
  rewrite Hc. tauto.
Qed.

Lemma listed_rows tbl category storage_location include_consumed skip limit kv :
  kv ∈ take (Z.to_nat limit) (drop (Z.to_nat skip)
        (merge_sort purchased_desc
           (map_to_list (filter
              (λ kv, selected category storage_location include_consumed kv.2 = true) tbl)))) →
  tbl !! kv.1 = Some kv.2 ∧ selected category storage_location include_consumed kv.2 = true.
Proof.
  intros Hkv%subseteq_take%subseteq_drop. rewrite merge_sort_Permutation in Hkv.
  destruct kv as [k row]. apply elem_of_map_to_list in Hkv.
  by apply map_lookup_filter_Some in Hkv.
Qed.

(** X7.  What [GET /groceries] returns: at most [limit] items, each the
    response of a stored row of the caller that is not consumed (unless
    [include_consumed]) and has the category and the storage location asked
    for (a filter that is absent or empty does not filter), ordered by
    [purchase_date] from the latest to the earliest, no id twice.  The
    request is rejected exactly when [skip] is negative or [limit] is not
    within 1..500. *)
Theorem listing_is_filtered_ordered_and_bounded
    tbl category storage_location include_consumed skip limit :
  (∀ items,
     get_groceries tbl category storage_location include_consumed skip limit = Ok items →
     (length items ≤ Z.to_nat limit)%nat
     ∧ (∀ resp, resp ∈ items →
          ∃ row, tbl !! GroceryItemResponse.id resp = Some row
            ∧ resp = grocery_to_response (GroceryItemResponse.id resp) row
            ∧ GroceryItemResponse.user_id resp = current_user
            ∧ (include_consumed = false → GroceryItemResponse.is_consumed resp = false)
            ∧ (∀ c, category = Some c → c ≠ "" → GroceryItemResponse.category resp = c)
            ∧ (∀ l, storage_location = Some l → l ≠ "" →
                 GroceryItemResponse.storage_location resp = l))
     ∧ StronglySorted
         (λ a b, GroceryItemResponse.purchase_date b ≤ GroceryItemResponse.purchase_date a)
         items
     ∧ NoDup (GroceryItemResponse.id <$> items))
  ∧ (skip < 0 ∨ limit < 1 ∨ 500 < limit ↔
     get_groceries tbl category storage_location include_consumed skip limit =
       Raise RequestValidationError).
Proof.
  split.
  - intros items (Hskip & Hlimit & ->)%get_groceries_Ok.
    split; [|split; [|split]].
    + rewrite length_fmap, length_take. lia.
    + intros resp (kv & -> & [Hrow Hsel]%listed_rows)%list_elem_of_fmap.
      cbn [GroceryItemResponse.id grocery_to_response]. exists kv.2.
      split; [done|]. split; [done|]. by apply selected_spec.
    + apply (StronglySorted_fmap purchased_desc); [by intros a b|].
      apply StronglySorted_take, StronglySorted_drop, StronglySorted_merge_sort; apply _.
    + rewrite <- list_fmap_compose.
      eapply sublist_NoDup;
        [|apply fmap_sublist; etrans; [apply sublist_take|apply sublist_drop]].
      rewrite merge_sort_Permutation. apply NoDup_fst_map_to_list.
  - unfold Items.get_groceries.
    destruct (Z.leb_spec 0 skip), (Z.leb_spec 1 limit), (Z.leb_spec limit 500);
      cbn; split; try done; lia.
Qed.


End WithCaller.

Lemma listing_is_filtered_ordered_and_bounded_witness :
  StronglySorted
    (λ a b, GroceryItemResponse.purchase_date b ≤ GroceryItemResponse.purchase_date a)
    (Cases.listed (get_groceries "alice" Cases.fridge (Some "Dairy") (Some "") false 0 100))
  ∧ NoDup (GroceryItemResponse.id <$>
      Cases.listed (get_groceries "alice" Cases.fridge (Some "Dairy") (Some "") false 0 100)).
Proof.
  refine (proj2 (proj2 (proj1
    (listing_is_filtered_ordered_and_bounded "alice" Cases.fridge (Some "Dairy") (Some "")
       false 0 100)
    (Cases.listed (get_groceries "alice" Cases.fridge (Some "Dairy") (Some "") false 0 100))
    _))).
  vm_compute. reflexivity.
Defined.


End ListingFacts.

(** ** Consuming an item *)
Module ConsumeFacts.
Import Grocery Items.

Section WithCaller.
Variable current_user : string.
Variable db_now : datetime.

Local Abbreviation select_item := (select_item current_user).
Local Abbreviation get_grocery := (get_grocery current_user).
Local Abbreviation get_groceries := (get_groceries current_user).
Local Abbreviation delete_grocery := (delete_grocery current_user).
Local Abbreviation create_grocery := (create_grocery current_user db_now).
Local Abbreviation mark_consumed := (mark_consumed current_user db_now).
Local Abbreviation update_grocery := (update_grocery current_user db_now).
Local Abbreviation new_item := (new_item current_user db_now).

Lemma mark_consumed_update now_utc tbl item_id :
  mark_consumed now_utc tbl item_id = update_grocery tbl item_id (consumption now_utc).
Proof.
  unfold Items.mark_consumed, Grocery.update_grocery.
  by destruct (select_item tbl item_id) as [item|].
Qed.

(** Consuming a row of the caller. *)
Lemma mark_consumed_Some now_utc tbl item_id item :
  select_item tbl item_id = Some item →
  ∃ row,
    mark_consumed now_utc tbl item_id
      = (Ok (grocery_to_response item_id row), <[item_id := row]> tbl)
    ∧ GroceryItem.is_consumed row = true
    ∧ GroceryItem.consumed_date row = Some now_utc
    ∧ Spec.omitted_fields_kept (consumption now_utc) item row
    ∧ Spec.unnamed_columns_kept item row
    ∧ (GroceryItem.updated_at row = GroceryItem.updated_at item
       ∨ GroceryItem.updated_at row = db_now).
Proof.
  intros Hsel. unfold Items.mark_consumed. rewrite Hsel. cbn zeta.
  eexists. split; [done|]. unfold flushed.
  destruct (same_columns _ _) eqn:Hsame.
  - unfold same_columns in Hsame. rewrite !andb_true_iff in Hsame.
    destruct Hsame as [[_ Hc] Hd]. destruct item. cbn in *.
    apply SyncFacts.eq_opt_Z in Hd. apply Bool.eqb_prop in Hc.
    split; [done|]. split; [done|]. split; [by repeat split|]. split; [done|by left].
  - destruct item. cbn. split; [done|]. split; [done|].
    split; [by repeat split|]. split; [done|by right].
Qed.


(** X6.  Once an item is consumed, [GET /groceries/{id}] still returns it,
    with the flag set, and the listing without [include_consumed] no longer
    has it, whatever the filters and the page. *)
Theorem consumed_items_leave_the_default_listing
    now_utc tbl item_id resp tbl' category storage_location skip limit items :
  mark_consumed now_utc tbl item_id = (Ok resp, tbl') →
  get_groceries tbl' category storage_location false skip limit = Ok items →
  GroceryItemResponse.is_consumed resp = true
  ∧ get_grocery tbl' item_id = Ok resp
  ∧ ∀ listed, listed ∈ items → GroceryItemResponse.id listed ≠ item_id.
Proof.
  intros Hmark Hlist.
  destruct (select_item tbl item_id) as [item|] eqn:Hsel.
  2: { unfold Items.mark_consumed in Hmark. by rewrite Hsel in Hmark. }
  destruct (mark_consumed_Some now_utc tbl item_id item Hsel)
    as (row & Hm & Hc & _ & _ & (Hu & _) & _).
  rewrite Hm in Hmark. injection Hmark as <- <-.
  apply SyncFacts.select_item_Some in Hsel as [_ Hown].
  split; [done|]. split.
  - unfold Items.get_grocery, Grocery.select_item. rewrite lookup_insert_eq.
    rewrite Hu, Hown, String.eqb_refl. done.
  - apply ListingFacts.get_groceries_Ok in Hlist as (_ & _ & ->).
    intros listed (kv & -> & [Hkv Hsel]%ListingFacts.listed_rows)%list_elem_of_fmap.
    cbn [GroceryItemResponse.id grocery_to_response]. intros Hid.
    rewrite Hid, lookup_insert_eq in Hkv. injection Hkv as Hkv.
    apply ListingFacts.selected_spec in Hsel as (_ & Hnc & _).
    specialize (Hnc eq_refl). rewrite <- Hkv in Hnc. congruence.
Qed.

End WithCaller.


Lemma consumed_items_leave_the_default_listing_witness :
  GroceryItemResponse.is_consumed
    (Cases.item_of (mark_consumed "alice" 50 60 Cases.fridge "m1").1) = true
  ∧ get_grocery "alice" (mark_consumed "alice" 50 60 Cases.fridge "m1").2 "m1"
    = Ok (Cases.item_of (mark_consumed "alice" 50 60 Cases.fridge "m1").1)
  ∧ ∀ listed,
      listed ∈ Cases.listed
        (get_groceries "alice" (mark_consumed "alice" 50 60 Cases.fridge "m1").2
           None None false 0 100) →
      GroceryItemResponse.id listed ≠ "m1".
Proof.
  apply (consumed_items_leave_the_default_listing "alice" 50 60 Cases.fridge "m1"
           (Cases.item_of (mark_consumed "alice" 50 60 Cases.fridge "m1").1)
           (mark_consumed "alice" 50 60 Cases.fridge "m1").2
           None None 0 100).
  - vm_compute. reflexivity.
  - vm_compute. reflexivity.
Defined.

End ConsumeFacts.

(** ** The stored rows and the response schema *)
Module SchemaFacts.
Import Grocery Items.

Lemma category_of_value_value c : FoodCategory.of_value (FoodCategory.value c) = Some c.
Proof. by destruct c. Qed.

Lemma category_of_value_Some s c : FoodCategory.of_value s = Some c → FoodCategory.value c = s.
Proof.
  unfold FoodCategory.of_value. intros H%List.find_some. destruct H as [_ H].
  by apply String.eqb_eq in H.
Qed.

Lemma location_of_value_value l : StorageLocation.of_value (StorageLocation.value l) = Some l.
Proof. by destruct l. Qed.

Lemma location_of_value_Some s l :
  StorageLocation.of_value s = Some l → StorageLocation.value l = s.
Proof.
  unfold StorageLocation.of_value. intros H%List.find_some. destruct H as [_ H].
  by apply String.eqb_eq in H.
Qed.

(** What a validated item satisfies. *)
Lemma validate_item_Some b item_data :
  validate_item b = Some item_data →
  (1 <=? String.length (GroceryItemCreate.name item_data))%nat = true
  ∧ max_length 255 (GroceryItemCreate.name item_data) = true
  ∧ PrimFloat.ltb 0%float (GroceryItemCreate.quantity item_data) = true
  ∧ max_length 20 (GroceryItemCreate.unit item_data) = true
  ∧ optional (λ s, PrimFloat.leb 0%float s && PrimFloat.leb s 1%float)
      (GroceryItemCreate.confidence_score item_data) = true
  ∧ optional (max_length 50) (GroceryItemCreate.barcode item_data) = true.
Proof.
  unfold validate_item.
  destruct (FoodCategory.of_value _) as [c|]; [|done].
  destruct (StorageLocation.of_value _) as [l|]; [|done]. cbn.
  destruct (_ && _) eqn:Hc; [|done]. intros [= <-]. cbn.
  rewrite !andb_true_iff in Hc. destruct Hc as [[[[[Hn1 Hn2] Hq] Hu] Hcs] Hb].
  split; [done|]. split; [done|]. split; [|split; [|done]].
  - destruct (ItemBody.quantity b); [done|reflexivity].
  - destruct (ItemBody.unit b); [done|reflexivity].
Qed.

Section WithCaller.
Variable current_user : string.
Variable db_now : datetime.

Lemma new_item_constraints b item_data :
  validate_item b = Some item_data →
  response_constraints (new_item current_user db_now item_data) = true.
Proof.
  intros (Hn1 & Hn2 & Hq & Hu & Hcs & Hb)%validate_item_Some.
  unfold response_constraints.
  cbn [Grocery.new_item GroceryItem.name GroceryItem.category GroceryItem.storage_location
       GroceryItem.quantity GroceryItem.unit GroceryItem.confidence_score GroceryItem.barcode].
  rewrite Hn1, Hn2, Hq, Hu, Hcs, Hb, category_of_value_value, location_of_value_value.
  done.
Qed.

Lemma overwrite_constraints b item_data existing :
  validate_item b = Some item_data →
  response_constraints (overwrite existing item_data) = true.
Proof.
  intros (Hn1 & Hn2 & Hq & Hu & Hcs & Hb)%validate_item_Some.
  unfold response_constraints. destruct existing.
  cbn [overwrite Set_.name Set_.category Set_.storage_location Set_.quantity Set_.unit
       Set_.purchase_date Set_.expiration_date Set_.predicted_expiration_date
       Set_.confidence_score Set_.barcode Set_.notes
       GroceryItem.name GroceryItem.category GroceryItem.storage_location
       GroceryItem.quantity GroceryItem.unit GroceryItem.confidence_score GroceryItem.barcode].
  rewrite Hn1, Hn2, Hq, Hu, Hcs, Hb, category_of_value_value, location_of_value_value.
  done.
Qed.

Lemma flushed_constraints old new :
  response_constraints old = true → response_constraints new = true →
  response_constraints (flushed db_now old new) = true.
Proof. unfold flushed. by destruct (same_columns old new). Qed.

Lemma well_formed_insert tbl k row :
  well_formed tbl → response_constraints row = true → well_formed (<[k := row]> tbl).
Proof.
  intros Hw Hrow k' row'. destruct (decide (k = k')) as [->|Hne].
  - rewrite lookup_insert_eq. by intros [= <-].
  - rewrite lookup_insert_ne by done. apply Hw.
Qed.

Lemma well_formed_subseteq (tbl tbl' : table) :
  tbl' ⊆ tbl → well_formed tbl → well_formed tbl'.
Proof.
  intros Hsub Hw k row Hk. apply (Hw k). by eapply lookup_weaken.
Qed.

Section Sync.
Variable uuid4 : nat → string.

Lemma sync_item_well_formed st item_data st' :
  (∃ b, validate_item b = Some item_data) →
  sync_item current_user db_now uuid4 st item_data = Ok st' →
  well_formed st.1 → well_formed st'.1.
Proof.
  intros [b Hb] (i & row & _ & -> & Hrow)%SyncFacts.sync_item_inv Hw.
  apply well_formed_insert; [done|].
  destruct (select_item current_user st.1 i) as [existing|] eqn:Hsel.
  - subst row. apply SyncFacts.select_item_Some in Hsel as [Hi _].
    apply flushed_constraints; [by apply (Hw i)|by apply (overwrite_constraints b)].
  - destruct Hrow as (-> & _). by apply (new_item_constraints b).
Qed.

Lemma sync_items_well_formed st l st' :
  Forall (λ item_data, ∃ b, validate_item b = Some item_data) l →
  sync_items current_user db_now uuid4 st l = Ok st' →
  well_formed st.1 → well_formed st'.1.
Proof.
  intros Hall. revert st. induction Hall as [|item_data l Hitem Hall IH]; intros st.
  - by intros [= <-].
  - intros (st1 & _ & Hstep & Hrest)%SyncFacts.sync_items_cons Hw.
    apply (IH st1 Hrest). by eapply sync_item_well_formed.
Qed.

Lemma post_sync_well_formed sync_timestamp tbl body :
  well_formed tbl →
  well_formed (post_sync current_user db_now uuid4 sync_timestamp tbl body).2.
Proof.
  intros Hw. unfold post_sync.
  destruct (validate_sync body) as [req|] eqn:Hv; [|done].
  apply SyncFacts.validate_sync_items in Hv as [_ Hitems].
  unfold sync_groceries. destruct (deleted_taken _); [|done]. cbn [negb].
  destruct (sync_items _ _ _ _ _) as [[merged drawn]|] eqn:Hloop; [|done].
  change (well_formed (merged, drawn).1).
  eapply sync_items_well_formed; [|exact Hloop|]; cbn [fst].
  - apply Forall_forall. intros item_data Hin.
    apply list_elem_of_lookup in Hin as [i Hi].
    destruct (Forall2_lookup_r _ _ _ _ _ Hitems Hi) as (b & _ & Hb). by exists b.
  - eapply well_formed_subseteq; [|done].
    unfold process_deleted. destruct (GrocerySyncRequest.deleted_ids req); [done|].
    apply map_filter_subseteq.
Qed.
End Sync.

(** The columns the constraints read, after the assignments of a PATCH: the
    value the body gives, or the stored one. *)
Lemma apply_update_columns item_data item :
  let row := attrs (apply_update item_data {| attrs := item; null_in_required := false |}) in
  GroceryItem.name row
    = match GroceryItemUpdate.name item_data with
      | Some (Some v) => v | _ => GroceryItem.name item end
  ∧ GroceryItem.category row
    = match GroceryItemUpdate.category item_data with
      | Some (Some c) => FoodCategory.value c | _ => GroceryItem.category item end
  ∧ GroceryItem.storage_location row
    = match GroceryItemUpdate.storage_location item_data with
      | Some (Some l) => StorageLocation.value l | _ => GroceryItem.storage_location item end
  ∧ GroceryItem.quantity row
    = match GroceryItemUpdate.quantity item_data with
      | Some (Some v) => v | _ => GroceryItem.quantity item end
  ∧ GroceryItem.unit row
    = match GroceryItemUpdate.unit item_data with
      | Some (Some v) => v | _ => GroceryItem.unit item end
  ∧ GroceryItem.confidence_score row
    = match GroceryItemUpdate.confidence_score item_data with
      | Some v => v | None => GroceryItem.confidence_score item end
  ∧ GroceryItem.barcode row
    = match GroceryItemUpdate.barcode item_data with
      | Some v => v | None => GroceryItem.barcode item end.
Proof.
  cbn zeta. unfold apply_update.
  repeat split;
    repeat first
      [ rewrite SyncFacts.set_required_frame by (intros ? []; reflexivity)
      | rewrite SyncFacts.set_nullable_frame by (intros ? []; reflexivity) ].
  - destruct (GroceryItemUpdate.name item_data) as [[v|]|]; cbn; [by destruct item|done|done].
  - destruct (GroceryItemUpdate.category item_data) as [[v|]|];
      cbn [set_required attrs];
      repeat rewrite SyncFacts.set_required_frame by (intros ? []; reflexivity);
      [|done|done].
    by destruct (attrs _).
  - destruct (GroceryItemUpdate.storage_location item_data) as [[v|]|];
      cbn [set_required attrs];
      repeat rewrite SyncFacts.set_required_frame by (intros ? []; reflexivity);
      [|done|done].
    by destruct (attrs _).
  - destruct (GroceryItemUpdate.quantity item_data) as [[v|]|];
      cbn [set_required attrs];
      repeat rewrite SyncFacts.set_required_frame by (intros ? []; reflexivity);
      [|done|done].
    by destruct (attrs _).
  - destruct (GroceryItemUpdate.unit item_data) as [[v|]|];
      cbn [set_required attrs];
      repeat rewrite SyncFacts.set_required_frame by (intros ? []; reflexivity);
      [|done|done].
    by destruct (attrs _).
  - destruct (GroceryItemUpdate.confidence_score item_data) as [v|];
      cbn [set_nullable attrs];
      repeat first
        [ rewrite SyncFacts.set_required_frame by (intros ? []; reflexivity)
        | rewrite SyncFacts.set_nullable_frame by (intros ? []; reflexivity) ];
      [|done].
    by destruct (attrs _).
  - destruct (GroceryItemUpdate.barcode item_data) as [v|];
      cbn [set_nullable attrs];
      repeat first
        [ rewrite SyncFacts.set_required_frame by (intros ? []; reflexivity)
        | rewrite SyncFacts.set_nullable_frame by (intros ? []; reflexivity) ];
      [|done].
    by destruct (attrs _).
Qed.

Lemma apply_update_constraints item_data item :
  update_constraints item_data = true →
  response_constraints item = true →
  response_constraints
    (attrs (apply_update item_data {| attrs := item; null_in_required := false |})) = true.
Proof.
  unfold update_constraints, response_constraints.
  destruct (apply_update_columns item_data item) as (-> & -> & -> & -> & -> & -> & ->).
  rewrite !andb_true_iff.
  intros [[[[Hn Hq] Hu] Hcs] Hb] [[[[[[[In1 In2] Ic] Il] Iq] Iu] Ics] Ib].
  destruct (GroceryItemUpdate.name item_data) as [[v|]|]; cbn [given] in Hn;
    [apply andb_true_iff in Hn as [-> ->]|rewrite In1, In2..].
  all: destruct (GroceryItemUpdate.category item_data) as [[c|]|];
    [rewrite category_of_value_value|rewrite Ic..].
  all: destruct (GroceryItemUpdate.storage_location item_data) as [[l|]|];
    [rewrite location_of_value_value|rewrite Il..].
  all: destruct (GroceryItemUpdate.quantity item_data) as [[q|]|]; cbn [given] in Hq;
    [rewrite Hq|rewrite Iq..].
  all: destruct (GroceryItemUpdate.unit item_data) as [[u|]|]; cbn [given] in Hu;
    [rewrite Hu|rewrite Iu..].
  all: destruct (GroceryItemUpdate.confidence_score item_data) as [[cs|]|]; cbn [given] in Hcs;
    cbn [optional]; [rewrite Hcs| |rewrite Ics].
  all: destruct (GroceryItemUpdate.barcode item_data) as [[bc|]|]; cbn [given] in Hb;
    cbn [optional]; [rewrite Hb| |rewrite Ib].
  all: done.
Qed.

Lemma update_grocery_well_formed tbl item_id item_data :
  update_constraints item_data = true →
  well_formed tbl →
  well_formed (update_grocery current_user db_now tbl item_id item_data).2.
Proof.
  intros Hc Hw. unfold update_grocery.
  destruct (select_item current_user tbl item_id) as [item|] eqn:Hsel; [|done].
  destruct (patch_taken item_data); [|done]. cbn [negb].
  cbn zeta. destruct (null_in_required _); [done|]. cbn [snd].
  apply SyncFacts.select_item_Some in Hsel as [Hi _].
  apply well_formed_insert; [done|].
  apply flushed_constraints; [by apply (Hw item_id)|].
  apply apply_update_constraints; [done|by apply (Hw item_id)].
Qed.

(** X10.  The handlers keep the table within the response schema.  When
    every stored row satisfies the constraints [GroceryItemResponse]
    inherits from [GroceryItemBase] (a name of 1 to 255 characters, a
    category and a storage location of the enumerations, a positive
    quantity, a unit of at most 20 characters, a confidence within 0..1, a
    barcode of at most 50 characters), so does every row after a sync or a
    creation with any body whatever, after a PATCH whose body satisfies the
    constraints of [GroceryItemUpdate], after a consume and after a
    delete. *)
Theorem handlers_keep_rows_within_the_response_schema tbl :
  well_formed tbl →
  (∀ uuid4 sync_timestamp body,
     well_formed (post_sync current_user db_now uuid4 sync_timestamp tbl body).2)
  ∧ (∀ uuid4 body, well_formed (post_grocery current_user db_now uuid4 tbl body).2)
  ∧ (∀ item_id item_data,
       update_constraints item_data = true →
       well_formed (update_grocery current_user db_now tbl item_id item_data).2)
  ∧ (∀ now_utc item_id, well_formed (mark_consumed current_user db_now now_utc tbl item_id).2)
  ∧ (∀ item_id, well_formed (delete_grocery current_user tbl item_id).2).
Proof.
  intros Hw. split; [|split; [|split; [|split]]].
  - intros. by apply post_sync_well_formed.
  - intros uuid4 body. unfold post_grocery.
    destruct (validate_item body) as [item_data|] eqn:Hb; [|done].
    unfold create_grocery, insert_row.
    destruct (row_taken _ _); [|done]. cbn [negb]. destruct (tbl !! _); [done|]. cbn [snd].
    apply well_formed_insert; [done|by apply (new_item_constraints body)].
  - intros. by apply update_grocery_well_formed.
  - intros now_utc item_id. rewrite ConsumeFacts.mark_consumed_update.
    by apply update_grocery_well_formed.
  - intros item_id. unfold delete_grocery.
    destruct (select_item current_user tbl item_id); [|done]. cbn [snd].
    eapply well_formed_subseteq; [|done]. apply delete_subseteq.
Qed.

End WithCaller.

Lemma well_formed_pantry : well_formed Sample.pantry.
Proof.
  unfold Sample.pantry. apply well_formed_insert; [|reflexivity].
  apply well_formed_insert; [|reflexivity]. intros k row Hk. by rewrite lookup_empty in Hk.
Qed.

Lemma handlers_keep_rows_within_the_response_schema_witness :
  well_formed
    (post_sync "alice" 50 Sample.uuids 49 Sample.pantry
       (Sample.body [Sample.milk_body "Dairy" (Some "x1"); Sample.milk_body "Dairy" None]
          ["b1"])).2
  ∧ well_formed (update_grocery "alice" 50 Sample.pantry "x1" (Sample.rename "Oat milk")).2.
Proof.
  split.
  - apply (proj1 (handlers_keep_rows_within_the_response_schema "alice" 50 Sample.pantry
                    well_formed_pantry)).
  - apply (proj1 (proj2 (proj2 (handlers_keep_rows_within_the_response_schema "alice" 50
                    Sample.pantry well_formed_pantry)))).
    reflexivity.
Defined.

End SchemaFacts.

(** ** Replayed and empty syncs *)
Module ReplayFacts.
Import Grocery Items.

Lemma SFcompare_refl f : f ≠ S754_nan → SFcompare f f = Some Eq.
Proof.
  destruct f as [s|s| |s m e]; cbn; try done.
  - by destruct s.
  - intros _. destruct s; rewrite Z.compare_refl, Pos.compare_cont_refl; reflexivity.
Qed.

(** A float that compares with zero is not a NaN, so it equals itself. *)
Lemma leb_eqb_refl x : PrimFloat.leb 0%float x = true → PrimFloat.eqb x x = true.
Proof.
  rewrite FloatAxioms.leb_spec, FloatAxioms.eqb_spec. unfold SFleb, SFeqb.
  destruct (Prim2SF x) eqn:Hx.
  all: try (intros _; rewrite SFcompare_refl by discriminate; reflexivity).
  cbn. destruct (Prim2SF 0); discriminate.
Qed.

Lemma ltb_eqb_refl x : PrimFloat.ltb 0%float x = true → PrimFloat.eqb x x = true.
Proof.
  rewrite FloatAxioms.ltb_spec, FloatAxioms.eqb_spec. unfold SFltb, SFeqb.
  destruct (Prim2SF x) eqn:Hx.
  all: try (intros _; rewrite SFcompare_refl by discriminate; reflexivity).
  cbn. destruct (Prim2SF 0); discriminate.
Qed.

Lemma eq_opt_refl {A} (eqb : A → A → bool) (o : option A) :
  (∀ a, o = Some a → eqb a a = true) → eq_opt eqb o o = true.
Proof. destruct o as [a|]; cbn; [|done]. intros H. by apply H. Qed.

Lemma same_columns_submitted b item_data row :
  validate_item b = Some item_data →
  GroceryItem.name row = GroceryItemCreate.name item_data →
  GroceryItem.category row = FoodCategory.value (GroceryItemCreate.category item_data) →
  GroceryItem.storage_location row =
    StorageLocation.value (GroceryItemCreate.storage_location item_data) →
  GroceryItem.quantity row = GroceryItemCreate.quantity item_data →
  GroceryItem.unit row = GroceryItemCreate.unit item_data →
  GroceryItem.purchase_date row = GroceryItemCreate.purchase_date item_data →
  GroceryItem.expiration_date row = GroceryItemCreate.expiration_date item_data →
  GroceryItem.predicted_expiration_date row =
    GroceryItemCreate.predicted_expiration_date item_data →
  GroceryItem.confidence_score row = GroceryItemCreate.confidence_score item_data →
  GroceryItem.barcode row = GroceryItemCreate.barcode item_data →
  GroceryItem.notes row = GroceryItemCreate.notes item_data →
  up_to_date row item_data.
Proof.
  intros (_ & _ & Hq & _ & Hcs & _)%SchemaFacts.validate_item_Some.
  destruct row. cbn. intros -> -> -> -> -> -> -> -> -> -> ->.
  unfold up_to_date, same_columns. cbn.
  rewrite !String.eqb_refl, Z.eqb_refl, (ltb_eqb_refl _ Hq), Bool.eqb_reflx.
  rewrite !(eq_opt_refl Z.eqb) by (intros; apply Z.eqb_refl).
  rewrite !(eq_opt_refl String.eqb) by (intros; apply String.eqb_refl).
  rewrite (eq_opt_refl PrimFloat.eqb); [done|].
  intros a Ha. rewrite Ha in Hcs. cbn in Hcs. apply andb_true_iff in Hcs as [Hcs _].
  by apply leb_eqb_refl.
Qed.

Section WithCaller.
Variable current_user : string.

Lemma new_item_up_to_date db_now b item_data :
  validate_item b = Some item_data →
  up_to_date (new_item current_user db_now item_data) item_data.
Proof. intros Hb. by apply (same_columns_submitted b). Qed.

Lemma flushed_up_to_date db_now b item_data existing :
  validate_item b = Some item_data →
  up_to_date (flushed db_now existing (overwrite existing item_data)) item_data.
Proof.
  intros Hb. unfold flushed. destruct (same_columns _ _) eqn:Hsame; [done|].
  apply (same_columns_submitted b); [done|..]; by destruct existing.
Qed.

Lemma item_id_of_identified uuid4 item_data x drawn :
  identified item_data x → item_id_of uuid4 item_data drawn = (x, drawn).
Proof. intros [Hid Hx]. unfold item_id_of. rewrite Hid. by destruct x. Qed.

(** A step on an item whose row is up to date writes nothing. *)
Lemma sync_item_up_to_date db_now uuid4 tbl drawn item_data x row :
  identified item_data x →
  tbl !! x = Some row → GroceryItem.user_id row = current_user →
  up_to_date row item_data →
  sync_item current_user db_now uuid4 (tbl, drawn) item_data = Ok (tbl, drawn).
Proof.
  intros Hid Hrow Hown Hup. unfold sync_item. cbn [fst snd].
  rewrite (item_id_of_identified _ _ _ _ Hid).
  rewrite (proj2 (SyncFacts.select_item_Some current_user tbl x row)) by done.
  unfold flushed. unfold up_to_date in Hup. rewrite Hup.
  by rewrite insert_id.
Qed.

Lemma sync_items_up_to_date db_now uuid4 tbl drawn l :
  Forall (λ item_data, item_taken item_data = true
            ∧ ∃ x row, identified item_data x ∧ tbl !! x = Some row
                ∧ GroceryItem.user_id row = current_user ∧ up_to_date row item_data) l →
  sync_items current_user db_now uuid4 (tbl, drawn) l = Ok (tbl, drawn).
Proof.
  induction 1 as [|item_data l (Htaken & x & row & Hid & Hrow & Hown & Hup) _ IH]; [done|].
  cbn [sync_items]. unfold sync_step. rewrite Htaken.
  by rewrite (sync_item_up_to_date _ _ _ _ _ x row).
Qed.

(** What a batch of identified items with distinct ids leaves behind. *)
Lemma sync_items_identified db_now uuid4 st l st' :
  Forall (λ item_data, (∃ b, validate_item b = Some item_data)
                       ∧ ∃ x, identified item_data x) l →
  NoDup (GroceryItemCreate.id <$> l) →
  sync_items current_user db_now uuid4 st l = Ok st' →
  Forall (λ item_data, item_taken item_data = true
            ∧ ∃ x row, identified item_data x ∧ st'.1 !! x = Some row
                ∧ GroceryItem.user_id row = current_user ∧ up_to_date row item_data) l
  ∧ (∀ k, Some k ∉ GroceryItemCreate.id <$> l → st'.1 !! k = st.1 !! k).
Proof.
  intros Hall. revert st.
  induction Hall as [|item_data l [[b Hb] [x Hid]] Hall IH]; intros st Hdup.
  - intros [= <-]. by split.
  - intros (st1 & Htaken & Hstep & Hrest)%SyncFacts.sync_items_cons.
    rewrite fmap_cons in Hdup. apply NoDup_cons in Hdup as [Hx Hdup].
    destruct (IH st1 Hdup Hrest) as [Hrows Hframe].
    destruct (SyncFacts.sync_item_inv _ _ _ _ _ _ Hstep) as (i & row & Hi & Htbl & Hrow).
    rewrite (item_id_of_identified _ _ _ _ Hid) in Hi. injection Hi as <- _.
    split.
    + constructor; [|done]. split; [done|]. exists x, row. split; [done|].
      rewrite Hframe by (by rewrite (proj1 Hid) in Hx).
      rewrite Htbl, lookup_insert_eq. split; [done|].
      destruct (select_item current_user st.1 x) as [existing|] eqn:Hsel.
      * subst row. split; [|by apply (flushed_up_to_date _ b)].
        apply SyncFacts.select_item_Some in Hsel as [_ <-].
        apply (SyncFacts.flushed_overwrite_keeps db_now existing item_data).
      * destruct Hrow as (-> & _). split; [done|by apply (new_item_up_to_date _ b)].
    + intros k Hk. apply not_elem_of_cons in Hk as [Hk1 Hk2].
      rewrite (Hframe k Hk2), Htbl. apply lookup_insert_ne. intros ->.
      by rewrite (proj1 Hid) in Hk1.
Qed.

Lemma validate_item_id b item_data :
  validate_item b = Some item_data → GroceryItemCreate.id item_data = ItemBody.id b.
Proof.
  unfold validate_item.
  destruct (FoodCategory.of_value _) as [c|]; [|done].
  destruct (StorageLocation.of_value _) as [l|]; [|done]. cbn.
  destruct (_ && _); [|done]. by intros [= <-].
Qed.

Lemma process_deleted_nothing tbl ids :
  (∀ k row, k ∈ ids → tbl !! k = Some row → GroceryItem.user_id row ≠ current_user) →
  process_deleted current_user tbl ids = tbl.
Proof.
  intros Hids. unfold process_deleted. destruct ids as [|i ids]; [done|].
  unfold delete_items. apply map_filter_id. intros k row Hrow [Hin Hown].
  by apply (Hids k row).
Qed.

Lemma same_but_updated_at_refl (tbl : table) k :
  option_Forall2 same_but_updated_at (tbl !! k) (tbl !! k).
Proof.
  destruct (tbl !! k) as [row|]; constructor.
  exists (GroceryItem.updated_at row). by destruct row.
Qed.

(** X11.  Replaying a sync is harmless.  When every item of the body
    carries an id, no id comes twice and none of them is also among the
    deleted ids, a sync that succeeded can be sent again, at any later
    time: the second call succeeds as well, and it leaves in the table the
    rows the first call left, under the same ids and with the same columns,
    [updated_at] apart. *)
Theorem replayed_sync_changes_nothing
    db_now uuid4 sync_timestamp db_now' uuid4' sync_timestamp' tbl body resp tbl1 :
  Forall (λ b, ∃ x, ItemBody.id b = Some x ∧ x ≠ "") (SyncBody.items body) →
  NoDup (ItemBody.id <$> SyncBody.items body) →
  (∀ x, x ∈ SyncBody.deleted_ids body → Some x ∉ ItemBody.id <$> SyncBody.items body) →
  post_sync current_user db_now uuid4 sync_timestamp tbl body = (Ok resp, tbl1) →
  ∃ resp' tbl2,
    post_sync current_user db_now' uuid4' sync_timestamp' tbl1 body = (Ok resp', tbl2)
    ∧ ∀ k, option_Forall2 same_but_updated_at (tbl1 !! k) (tbl2 !! k).
Proof.
  intros Hids Hdup Hdel. unfold post_sync.
  destruct (validate_sync body) as [req|] eqn:Hv; [|done].
  apply SyncFacts.validate_sync_items in Hv as [Hd Hitems].
  assert (Hsame : GroceryItemCreate.id <$> GrocerySyncRequest.items req
                  = ItemBody.id <$> SyncBody.items body).
  { clear -Hitems. induction Hitems as [|b it bs its Hb _ IH]; [done|].
    cbn. by rewrite IH, (validate_item_id b it). }
  intros Hcall. pose proof (SyncFacts.sync_groceries_taken _ _ _ _ _ _ _ _ Hcall) as Htaken.
  apply SyncFacts.sync_groceries_Ok in Hcall as (drawn & Hloop & ->).
  eexists _, tbl1. split; [|apply same_but_updated_at_refl].
  apply sync_items_identified in Hloop as [Hrows Hframe].
  - unfold sync_groceries. rewrite Htaken. cbn [negb]. rewrite process_deleted_nothing.
    + by rewrite (sync_items_up_to_date _ _ _ _ _ Hrows).
    + intros k row Hk Hrow Hown. rewrite Hd in Hk.
      specialize (Hdel k Hk). rewrite <- Hsame in Hdel.
      specialize (Hframe k Hdel). cbn [fst] in Hframe. rewrite Hframe in Hrow.
      rewrite SyncFacts.process_deleted_lookup, SyncFacts.delete_items_lookup in Hrow.
      destruct (tbl !! k) as [r|]; [|done].
      destruct (decide _) as [|Hn]; [done|]. injection Hrow as ->.
      apply Hn. by rewrite Hd.
  - apply Forall_forall. intros item_data Hin.
    apply list_elem_of_lookup in Hin as [i Hi].
    destruct (Forall2_lookup_r _ _ _ _ _ Hitems Hi) as (b & Hbi & Hb).
    split; [by exists b|].
    destruct (proj1 (Forall_forall _ _) Hids b (list_elem_of_lookup_2 _ _ _ Hbi))
      as (x & Hx & Hne).
    exists x. split; [|done]. by rewrite (validate_item_id b).
  - by rewrite Hsame.
Qed.

(** X12.  A sync without items is a pull.  When none of the deleted ids is
    the id of a row of the caller (unknown ids, ids of other users) and the
    store takes them all as parameters (none carries a NUL), the call
    changes nothing and returns the responses of all the rows of the
    caller, consumed or not, and of no other row; the response's
    [deleted_ids] is empty and [last_sync_at] plays no part.  When the
    store refuses a deleted id, the call fails and changes nothing. *)
Theorem sync_without_items_is_a_pull db_now uuid4 sync_timestamp tbl deleted_ids last_sync_at :
  (∀ k row, k ∈ deleted_ids → tbl !! k = Some row → GroceryItem.user_id row ≠ current_user) →
  if deleted_taken deleted_ids
  then
    ∃ resp,
      sync_groceries current_user db_now uuid4 sync_timestamp tbl
        {| GrocerySyncRequest.items := [];
           GrocerySyncRequest.deleted_ids := deleted_ids;
           GrocerySyncRequest.last_sync_at := last_sync_at |}
      = (Ok resp, tbl)
      ∧ GrocerySyncResponse.deleted_ids resp = []
      ∧ GrocerySyncResponse.sync_timestamp resp = sync_timestamp
      ∧ ∀ item, item ∈ GrocerySyncResponse.items resp ↔
          ∃ k row, tbl !! k = Some row ∧ GroceryItem.user_id row = current_user
                   ∧ item = grocery_to_response k row
  else
    sync_groceries current_user db_now uuid4 sync_timestamp tbl
      {| GrocerySyncRequest.items := [];
         GrocerySyncRequest.deleted_ids := deleted_ids;
         GrocerySyncRequest.last_sync_at := last_sync_at |}
    = (Raise DBAPIError, tbl).
Proof.
  intros Hids. unfold sync_groceries. cbn [GrocerySyncRequest.items GrocerySyncRequest.deleted_ids].
  destruct (deleted_taken deleted_ids); cbn [negb]; [|done].
  rewrite (process_deleted_nothing _ _ Hids). cbn [sync_items].
  eexists. split; [done|]. split; [done|]. split; [done|].
  intros item. apply SyncFacts.select_all_elem.
Qed.

End WithCaller.

Lemma replayed_sync_changes_nothing_witness :
  ∃ resp' tbl2,
    post_sync "alice" 70 Sample.uuids 71
      (post_sync "alice" 50 Sample.uuids 49 Sample.pantry
         (Sample.body [Sample.milk_body "Dairy" (Some "m1")] ["x1"])).2
      (Sample.body [Sample.milk_body "Dairy" (Some "m1")] ["x1"])
    = (Ok resp', tbl2)
    ∧ ∀ k, option_Forall2 same_but_updated_at
             ((post_sync "alice" 50 Sample.uuids 49 Sample.pantry
                 (Sample.body [Sample.milk_body "Dairy" (Some "m1")] ["x1"])).2 !! k)
             (tbl2 !! k).
Proof.
  refine (replayed_sync_changes_nothing "alice" 50 Sample.uuids 49 70 Sample.uuids 71
    Sample.pantry (Sample.body [Sample.milk_body "Dairy" (Some "m1")] ["x1"])
    (Sample.response_of
       (post_sync "alice" 50 Sample.uuids 49 Sample.pantry
          (Sample.body [Sample.milk_body "Dairy" (Some "m1")] ["x1"])).1)
    _ _ _ _ _).
  - constructor; [|constructor]. exists "m1". split; [reflexivity|discriminate].
  - apply NoDup_singleton.
  - intros x Hx Hin. apply list_elem_of_singleton in Hx. apply list_elem_of_singleton in Hin.
    subst x. discriminate Hin.
  - vm_compute. reflexivity.
Defined.

Lemma sync_without_items_is_a_pull_witness :
  ∃ resp,
    sync_groceries "alice" 50 Sample.uuids 49 Sample.pantry
      {| GrocerySyncRequest.items := [];
         GrocerySyncRequest.deleted_ids := ["b1"; "zz"];
         GrocerySyncRequest.last_sync_at := Some 3 |}
    = (Ok resp, Sample.pantry)
    ∧ GrocerySyncResponse.deleted_ids resp = []
    ∧ GrocerySyncResponse.sync_timestamp resp = 49
    ∧ ∀ item, item ∈ GrocerySyncResponse.items resp ↔
        ∃ k row, Sample.pantry !! k = Some row ∧ GroceryItem.user_id row = "alice"
                 ∧ item = grocery_to_response k row.
Proof.
  apply (sync_without_items_is_a_pull "alice" 50 Sample.uuids 49 Sample.pantry
           ["b1"; "zz"] (Some 3)).
  intros k row Hk Hrow. apply elem_of_cons in Hk as [->|Hk].
  - vm_compute in Hrow. injection Hrow as <-. discriminate.
  - apply list_elem_of_singleton in Hk. subst k. vm_compute in Hrow. discriminate Hrow.
Defined.

End ReplayFacts.

(** ** Rows of other users *)
Module IsolationFacts.
Import Grocery Items.

Section WithCaller.
Variable current_user : string.
Variable db_now : datetime.

Local Abbreviation select_item := (select_item current_user).
Local Abbreviation get_grocery := (get_grocery current_user).
Local Abbreviation get_groceries := (get_groceries current_user).
Local Abbreviation delete_grocery := (delete_grocery current_user).
Local Abbreviation create_grocery := (create_grocery current_user db_now).
Local Abbreviation mark_consumed := (mark_consumed current_user db_now).
Local Abbreviation update_grocery := (update_grocery current_user db_now).

(** X9.  A row of another user is out of reach of the item handlers.
    Read, PATCH, delete and consume answer 404 on its id and leave the
    table as it was; and whatever id
    and body the caller sends to PATCH, delete, consume or create, and
    whatever they answer, that row stays as it is; no listing shows it. *)
Theorem rows_of_other_users_are_out_of_reach tbl k row :
  tbl !! k = Some row → GroceryItem.user_id row ≠ current_user →
  get_grocery tbl k = Raise (HTTPException 404)
  ∧ (∀ item_data, update_grocery tbl k item_data = (Raise (HTTPException 404), tbl))
  ∧ delete_grocery tbl k = (Raise (HTTPException 404), tbl)
  ∧ (∀ now_utc, mark_consumed now_utc tbl k = (Raise (HTTPException 404), tbl))
  ∧ (∀ item_id item_data, (update_grocery tbl item_id item_data).2 !! k = Some row)
  ∧ (∀ item_id, (delete_grocery tbl item_id).2 !! k = Some row)
  ∧ (∀ now_utc item_id, (mark_consumed now_utc tbl item_id).2 !! k = Some row)
  ∧ (∀ uuid4 item_data, (create_grocery uuid4 tbl item_data).2 !! k = Some row)
  ∧ (∀ category storage_location include_consumed skip limit items,
       get_groceries tbl category storage_location include_consumed skip limit = Ok items →
       ∀ resp, resp ∈ items → GroceryItemResponse.id resp ≠ k).
Proof.
  intros Hrow Hother.
  assert (Hnone : select_item tbl k = None).
  { apply SyncFacts.select_item_None. intros r. rewrite Hrow. by intros [= <-]. }
  assert (Hne : ∀ item_id item, select_item tbl item_id = Some item → item_id ≠ k).
  { intros item_id item [Hi Hown]%SyncFacts.select_item_Some ->.
    rewrite Hrow in Hi. by injection Hi as ->. }
  split; [|split; [|split; [|split; [|split; [|split; [|split; [|split]]]]]]].
  - unfold Items.get_grocery. by rewrite Hnone.
  - intros item_data. unfold Grocery.update_grocery. by rewrite Hnone.
  - unfold Items.delete_grocery. by rewrite Hnone.
  - intros now_utc. unfold Items.mark_consumed. by rewrite Hnone.
  - intros item_id item_data. unfold Grocery.update_grocery.
    destruct (select_item tbl item_id) as [item|] eqn:Hsel; [|done].
    destruct (patch_taken item_data); [|done]. cbn [negb].
    cbn zeta. destruct (null_in_required _); [done|]. cbn [snd].
    rewrite lookup_insert_ne; [done|]. by apply (Hne item_id item).
  - intros item_id. unfold Items.delete_grocery.
    destruct (select_item tbl item_id) as [item|] eqn:Hsel; [|done]. cbn [snd].
    rewrite lookup_delete_ne; [done|]. by apply (Hne item_id item).
  - intros now_utc item_id. unfold Items.mark_consumed.
    destruct (select_item tbl item_id) as [item|] eqn:Hsel; [|done]. cbn [snd].
    rewrite lookup_insert_ne; [done|]. by apply (Hne item_id item).
  - intros uuid4 item_data. unfold Items.create_grocery, insert_row.
    destruct (row_taken _ _); [|done]. cbn [negb].
    destruct (tbl !! (item_id_of uuid4 item_data 0).1) eqn:Hfree; [done|]. cbn [snd].
    rewrite lookup_insert_ne; [done|]. intros Heq. by rewrite Heq, Hrow in Hfree.
  - intros category storage_location include_consumed skip limit items
      (_ & _ & ->)%ListingFacts.get_groceries_Ok resp
      (kv & -> & [Hkv Hsel]%ListingFacts.listed_rows)%list_elem_of_fmap.
    cbn [GroceryItemResponse.id grocery_to_response]. intros Hk. rewrite Hk, Hrow in Hkv.
    injection Hkv as Hkv. apply ListingFacts.selected_spec in Hsel as [Hown _].
    by rewrite <- Hkv in Hown.
Qed.

End WithCaller.

Lemma rows_of_other_users_are_out_of_reach_witness :
  get_grocery "alice" Sample.pantry "b1" = Raise (HTTPException 404)
  ∧ update_grocery "alice" 50 Sample.pantry "b1" (Sample.rename "Mine")
    = (Raise (HTTPException 404), Sample.pantry)
  ∧ delete_grocery "alice" Sample.pantry "b1" = (Raise (HTTPException 404), Sample.pantry)
  ∧ mark_consumed "alice" 50 60 Sample.pantry "b1" = (Raise (HTTPException 404), Sample.pantry)
  ∧ (create_grocery "alice" 50 Sample.uuids Sample.pantry (Sample.milk (Some "b1"))).2 !! "b1"
    = Some (Sample.eggs "bob").
Proof.
  pose proof (rows_of_other_users_are_out_of_reach "alice" 50 Sample.pantry "b1"
                (Sample.eggs "bob") eq_refl) as H.
  destruct H as (Hget & Hpatch & Hdelete & Hconsume & _ & _ & _ & Hcreate & _);
    [discriminate|].
  split; [exact Hget|]. split; [apply Hpatch|]. split; [exact Hdelete|].
  split; [apply Hconsume|apply Hcreate].
Defined.

End IsolationFacts.

(** ** The cache of the recipe service *)
Module RecipeFacts.
Import Recipes RecipeService.

(** *** The order of [sorted] *)

Lemma string_compare_trans a b c :
  String.compare a b ≠ Gt → String.compare b c ≠ Gt → String.compare a c ≠ Gt.
Proof.
  revert b c. induction a as [|x a IH]; intros [|y b] [|z c]; cbn; try done.
  unfold Ascii.compare.
  destruct (N.compare_spec (N_of_ascii x) (N_of_ascii y)) as [Hxy|Hxy|Hxy];
    destruct (N.compare_spec (N_of_ascii y) (N_of_ascii z)) as [Hyz|Hyz|Hyz];
    destruct (N.compare_spec (N_of_ascii x) (N_of_ascii z)) as [Hxz|Hxz|Hxz];
    try done; try lia.
  apply IH.
Qed.

#[local] Instance str_le_trans : Transitive str_le.
Proof.
  intros a b c. unfold str_le, String.leb.
  pose proof (string_compare_trans a b c).
  destruct (String.compare a b), (String.compare b c), (String.compare a c); try done;
    intros; exfalso; by apply H.
Qed.

#[local] Instance str_le_antisym : AntiSymm (=) str_le.
Proof. intros a b. apply String.leb_antisym. Qed.

#[local] Instance str_le_total : Total str_le.
Proof. intros a b. apply String.leb_total. Qed.

(** [sorted] gives one list for all the orders in which its elements can
    come. *)
Lemma sorted_Permutation l1 l2 : l1 ≡ₚ l2 → sorted l1 = sorted l2.
Proof.
  intros Hp. unfold sorted. apply (Sorted_unique str_le).
  - apply Sorted_merge_sort, _.
  - apply Sorted_merge_sort, _.
  - by rewrite !merge_sort_Permutation.
Qed.

Lemma search_cache_key_Permutation query l1 l2 diet max_ready_time number offset :
  l1 ≡ₚ l2 →
  search_cache_key query (Some l1) diet max_ready_time number offset
  = search_cache_key query (Some l2) diet max_ready_time number offset.
Proof.
  intros Hp. unfold search_cache_key, default. cbn [from_option]. unfold id.
  rewrite (sorted_Permutation l1 l2 Hp).
  destruct l1 as [|a l1], l2 as [|b l2]; try done.
  all: exfalso; revert Hp; solve [apply Permutation_nil_cons | apply Permutation_cons_nil].
Qed.

Lemma by_ingredients_cache_key_Permutation l1 l2 number ranking :
  l1 ≡ₚ l2 →
  by_ingredients_cache_key l1 number ranking = by_ingredients_cache_key l2 number ranking.
Proof. intros Hp. unfold by_ingredients_cache_key. by rewrite (sorted_Permutation l1 l2 Hp). Qed.

(** *** The store after a successful fetch *)

(** The cache write that closes a call: it never raises; when the command
    goes through the key holds [v] until [now e + ttl]. *)
Lemma store_outcome e key ttl v w :
  except_pass (redis_setex e key ttl v) tt w =
    (Ok tt,
     if redis_setex_ok e
     then {| cache := <[key := {| value := v; expires_at := now e + ttl |}]> (cache w);
             trace := trace w ++ [RedisSetex key ttl v] |}
     else logged (RedisSetex key ttl v) w).
Proof. GatewayFacts.run. by destruct (redis_setex_ok e). Qed.

Lemma fetch_declined e params w :
  declined e (BASE_URL +:+ "/recipes/complexSearch") params →
  except_HTTPError (fetch e params) w
  = (Ok None, logged (HttpGet (BASE_URL +:+ "/recipes/complexSearch") params) w).
Proof.
  intros Hd. unfold fetch, raise_for_status. GatewayFacts.run.
  destruct Hd as [->|(r & -> & Hr)]; [done|].
  destruct (Z.leb_spec 200 (status_code r)), (Z.leb_spec (status_code r) 299); cbn; try done.
  lia.
Qed.

Lemma fetch_by_ingredients_declined e params w :
  declined e (BASE_URL +:+ "/recipes/findByIngredients") params →
  except_HTTPError (fetch_by_ingredients e params) w
  = (Ok None, logged (HttpGet (BASE_URL +:+ "/recipes/findByIngredients") params) w).
Proof.
  intros Hd. unfold fetch_by_ingredients, raise_for_status. GatewayFacts.run.
  destruct Hd as [->|(r & -> & Hr)]; [done|].
  destruct (Z.leb_spec 200 (status_code r)), (Z.leb_spec (status_code r) 299); cbn; try done.
  lia.
Qed.

Lemma fetch_detail_declined e api_key recipe_id w :
  declined e (detail_url recipe_id) (detail_params api_key) →
  ∃ got, except_HTTPError (fetch_detail e api_key recipe_id) w
         = (Ok got, logged (HttpGet (detail_url recipe_id) (detail_params api_key)) w)
         ∧ (got = None ∨ got = Some None).
Proof.
  intros Hd. unfold fetch_detail, raise_for_status. GatewayFacts.run.
  destruct Hd as [->|(r & -> & Hr)]; [by exists None; auto|].
  destruct (status_code r =? 404); [by exists (Some None); auto|].
  destruct (Z.leb_spec 200 (status_code r)), (Z.leb_spec (status_code r) 299); cbn;
    try (by exists None; auto).
  lia.
Qed.

(** X16.  The recipe service caches no failure.  When the cache gives
    nothing and the provider declines the request (transport failure, or a
    status that is not a 2xx, 404 included), [search_recipes] returns the
    empty result, [search_by_ingredients] the empty list and
    [get_recipe_details] [None]; the call consists of the cache read and the
    one request, and writes nothing to the cache. *)
Theorem declined_recipe_requests_are_not_cached (e : env) (w : world) (api_key : option string) :
  (∀ query ingredients diet max_ready_time number offset,
     let key := search_cache_key query ingredients diet max_ready_time number offset in
     let params := search_params api_key query ingredients diet max_ready_time number offset in
     cache_unusable e w key →
     declined e (BASE_URL +:+ "/recipes/complexSearch") params →
     search_recipes e api_key query ingredients diet max_ready_time number offset w
     = (Ok empty_result,
        logged (HttpGet (BASE_URL +:+ "/recipes/complexSearch") params)
          (logged (RedisGet key) w)))
  ∧ (∀ ingredients number ranking,
     let key := by_ingredients_cache_key ingredients number ranking in
     let params := by_ingredients_params api_key ingredients number ranking in
     cache_unusable e w key →
     declined e (BASE_URL +:+ "/recipes/findByIngredients") params →
     search_by_ingredients e api_key ingredients number ranking w
     = (Ok (JArr []),
        logged (HttpGet (BASE_URL +:+ "/recipes/findByIngredients") params)
          (logged (RedisGet key) w)))
  ∧ (∀ str_of recipe_id,
     cache_unusable e w (detail_cache_key recipe_id) →
     declined e (detail_url recipe_id) (detail_params api_key) →
     get_recipe_details str_of e api_key recipe_id w
     = (Ok JNull,
        logged (HttpGet (detail_url recipe_id) (detail_params api_key))
          (logged (RedisGet (detail_cache_key recipe_id)) w))).
Proof.
  split; [|split].
  - intros query ingredients diet max_ready_time number offset key params Hc Hd.
    unfold search_recipes. fold key params. unfold bind at 1.
    rewrite (GatewayFacts.read_cache_unusable _ _ _ Hc). unfold bind.
    by rewrite (fetch_declined _ _ _ Hd).
  - intros ingredients number ranking key params Hc Hd.
    unfold search_by_ingredients. fold key params. unfold bind at 1.
    rewrite (GatewayFacts.read_cache_unusable _ _ _ Hc). unfold bind at 1.
    by rewrite (fetch_by_ingredients_declined _ _ _ Hd).
  - intros str_of recipe_id Hc Hd.
    unfold get_recipe_details. unfold bind at 1.
    rewrite (GatewayFacts.read_cache_unusable _ _ _ Hc). unfold bind at 1.
    destruct (fetch_detail_declined e api_key recipe_id
      (logged (RedisGet (detail_cache_key recipe_id)) w) Hd) as (got & -> & [->| ->]); done.
Qed.

Lemma raise_for_status_2xx r w :
  200 ≤ status_code r ≤ 299 → raise_for_status r w = (Ok tt, w).
Proof.
  intros Hr. unfold raise_for_status.
  destruct (Z.leb_spec 200 (status_code r)), (Z.leb_spec (status_code r) 299); cbn; try done; lia.
Qed.

Lemma search_recipes_stores e w api_key query ingredients diet max_ready_time number offset
    result w1 :
  let key := search_cache_key query ingredients diet max_ready_time number offset in
  cache_unusable e w key →
  redis_setex_ok e = true →
  answered e (BASE_URL +:+ "/recipes/complexSearch")
    (search_params api_key query ingredients diet max_ready_time number offset) →
  search_recipes e api_key query ingredients diet max_ready_time number offset w
    = (Ok result, w1) →
  cache w1 !! key = Some {| value := json_dumps result; expires_at := now e + 3600 |}.
Proof.
  intros key Hc Hset (r & Hr & Hstatus). unfold search_recipes. fold key.
  unfold bind at 1. rewrite (GatewayFacts.read_cache_unusable _ _ _ Hc).
  unfold fetch. GatewayFacts.run. rewrite Hr.
  rewrite (raise_for_status_2xx r _ Hstatus).
  destruct (body r) as [data|raw]; cbn [json_loads]; [|done].
  destruct (parse_results data) as [result'|]; [|done].
  rewrite Hset. intros [= <- <-]. cbn [cache]. by rewrite lookup_insert_eq.
Qed.

Lemma search_by_ingredients_stores e w api_key ingredients number ranking result w1 :
  let key := by_ingredients_cache_key ingredients number ranking in
  cache_unusable e w key →
  redis_setex_ok e = true →
  answered e (BASE_URL +:+ "/recipes/findByIngredients")
    (by_ingredients_params api_key ingredients number ranking) →
  search_by_ingredients e api_key ingredients number ranking w = (Ok result, w1) →
  cache w1 !! key = Some {| value := json_dumps result; expires_at := now e + 3600 |}.
Proof.
  intros key Hc Hset (r & Hr & Hstatus). unfold search_by_ingredients. fold key.
  unfold bind at 1. rewrite (GatewayFacts.read_cache_unusable _ _ _ Hc).
  unfold fetch_by_ingredients. GatewayFacts.run. rewrite Hr.
  rewrite (raise_for_status_2xx r _ Hstatus).
  destruct (body r) as [data|raw]; cbn [json_loads]; [|done].
  destruct (iterate data) as [elements|]; [|done].
  destruct (mapM _ elements) as [results|]; [|done].
  rewrite Hset. intros [= <- <-]. cbn [cache]. by rewrite lookup_insert_eq.
Qed.

Lemma get_recipe_details_stores str_of e w api_key recipe_id result w1 :
  cache_unusable e w (detail_cache_key recipe_id) →
  redis_setex_ok e = true →
  answered e (detail_url recipe_id) (detail_params api_key) →
  get_recipe_details str_of e api_key recipe_id w = (Ok result, w1) →
  cache w1 !! detail_cache_key recipe_id
    = Some {| value := json_dumps result; expires_at := now e + 86400 |}.
Proof.
  intros Hc Hset (r & Hr & Hstatus). unfold get_recipe_details.
  unfold bind at 1. rewrite (GatewayFacts.read_cache_unusable _ _ _ Hc).
  unfold fetch_detail. GatewayFacts.run. rewrite Hr.
  destruct (Z.eqb_spec (status_code r) 404) as [H404|_]; [lia|].
  rewrite (raise_for_status_2xx r _ Hstatus).
  destruct (body r) as [data|raw]; cbn [json_loads]; [|done].
  destruct (_parse_recipe_detail str_of data) as [result'|]; [|done].
  rewrite Hset. intros [= <- <-]. cbn [cache]. by rewrite lookup_insert_eq.
Qed.

Lemma live_stored t (c : gmap string entry) key v expires :
  c !! key = Some {| value := v; expires_at := expires |} → t < expires →
  live t c key = Some v.
Proof. intros Hk Ht. unfold live. rewrite Hk. cbn. by rewrite (proj2 (Z.ltb_lt _ _) Ht). Qed.

(** X17.  What the recipe service fetched it serves from the cache.  After
    a call that found the cache unusable, got a 2xx from the provider,
    returned [result] and could write to the cache, a call with the same
    arguments -- the ingredients in any order -- returns [result] after the
    cache read alone, whatever the provider would answer now: for an hour
    after a search, for a day after a lookup of details. *)
Theorem fetched_recipes_are_served_from_the_cache (e e2 : env) (w : world)
    (api_key api_key2 : option string) :
  redis_setex_ok e = true → redis_get_ok e2 = true →
  (∀ query l1 l2 diet max_ready_time number offset result w1,
     let key := search_cache_key query (Some l1) diet max_ready_time number offset in
     cache_unusable e w key →
     answered e (BASE_URL +:+ "/recipes/complexSearch")
       (search_params api_key query (Some l1) diet max_ready_time number offset) →
     search_recipes e api_key query (Some l1) diet max_ready_time number offset w
       = (Ok result, w1) →
     l1 ≡ₚ l2 → now e2 < now e + 3600 →
     search_recipes e2 api_key2 query (Some l2) diet max_ready_time number offset w1
       = (Ok result, logged (RedisGet key) w1))
  ∧ (∀ l1 l2 number ranking result w1,
     let key := by_ingredients_cache_key l1 number ranking in
     cache_unusable e w key →
     answered e (BASE_URL +:+ "/recipes/findByIngredients")
       (by_ingredients_params api_key l1 number ranking) →
     search_by_ingredients e api_key l1 number ranking w = (Ok result, w1) →
     l1 ≡ₚ l2 → now e2 < now e + 3600 →
     search_by_ingredients e2 api_key2 l2 number ranking w1
       = (Ok result, logged (RedisGet key) w1))
  ∧ (∀ str_of str_of2 recipe_id result w1,
     cache_unusable e w (detail_cache_key recipe_id) →
     answered e (detail_url recipe_id) (detail_params api_key) →
     get_recipe_details str_of e api_key recipe_id w = (Ok result, w1) →
     now e2 < now e + 86400 →
     get_recipe_details str_of2 e2 api_key2 recipe_id w1
       = (Ok result, logged (RedisGet (detail_cache_key recipe_id)) w1)).
Proof.
  intros Hset Hget. split; [|split].
  - intros query l1 l2 diet max_ready_time number offset result w1 key Hc Ha Hcall Hp Ht.
    pose proof (search_recipes_stores _ _ _ _ _ _ _ _ _ _ _ Hc Hset Ha Hcall) as Hstored.
    unfold search_recipes. rewrite <- (search_cache_key_Permutation _ _ _ _ _ _ _ Hp).
    fold key. unfold bind at 1.
    by rewrite (GatewayFacts.read_cache_hit e2 w1 key result Hget
                  (live_stored _ _ _ _ _ Hstored Ht)).
  - intros l1 l2 number ranking result w1 key Hc Ha Hcall Hp Ht.
    pose proof (search_by_ingredients_stores _ _ _ _ _ _ _ _ Hc Hset Ha Hcall) as Hstored.
    unfold search_by_ingredients. rewrite <- (by_ingredients_cache_key_Permutation _ _ _ _ Hp).
    fold key. unfold bind at 1.
    by rewrite (GatewayFacts.read_cache_hit e2 w1 key result Hget
                  (live_stored _ _ _ _ _ Hstored Ht)).
  - intros str_of str_of2 recipe_id result w1 Hc Ha Hcall Ht.
    pose proof (get_recipe_details_stores _ _ _ _ _ _ _ Hc Hset Ha Hcall) as Hstored.
    unfold get_recipe_details. unfold bind at 1.
    by rewrite (GatewayFacts.read_cache_hit e2 w1 _ result Hget
                  (live_stored _ _ _ _ _ Hstored Ht)).
Qed.

Lemma declined_recipe_requests_are_not_cached_witness :
  search_recipes (Sample.answering Sample.unavailable 0) (Some "key")
    (Some "soup") None None None 10 0 Sample.empty_world
  = (Ok empty_result,
     logged
       (HttpGet (BASE_URL +:+ "/recipes/complexSearch")
          (search_params (Some "key") (Some "soup") None None None 10 0))
       (logged (RedisGet (search_cache_key (Some "soup") None None None 10 0))
          Sample.empty_world))
  ∧ get_recipe_details Cases.str_of (Sample.answering Sample.unavailable 0) (Some "key") 7
      Sample.empty_world
    = (Ok JNull,
       logged (HttpGet (detail_url 7) (detail_params (Some "key")))
         (logged (RedisGet (detail_cache_key 7)) Sample.empty_world)).
Proof.
  split.
  - refine (proj1
      (declined_recipe_requests_are_not_cached (Sample.answering Sample.unavailable 0)
         Sample.empty_world (Some "key"))
      (Some "soup") None None None 10 0 _ _).
    + right; left. reflexivity.
    + right. eexists. split; [reflexivity|]. right. cbn. lia.
  - refine (proj2 (proj2
      (declined_recipe_requests_are_not_cached (Sample.answering Sample.unavailable 0)
         Sample.empty_world (Some "key")))
      Cases.str_of 7 _ _).
    + right; left. reflexivity.
    + right. eexists. split; [reflexivity|]. right. cbn. lia.
Defined.

Lemma fetched_recipes_are_served_from_the_cache_witness :
  search_recipes (Sample.answering Sample.unavailable 3599) None
    (Some "soup") (Some ["onion"; "leek"]) None None 10 0
    (search_recipes (Sample.answering Cases.soups 0) (Some "key")
       (Some "soup") (Some ["leek"; "onion"]) None None 10 0 Sample.empty_world).2
  = (Ok (Cases.value_of
           (search_recipes (Sample.answering Cases.soups 0) (Some "key")
              (Some "soup") (Some ["leek"; "onion"]) None None 10 0 Sample.empty_world).1),
     logged
       (RedisGet (search_cache_key (Some "soup") (Some ["leek"; "onion"]) None None 10 0))
       (search_recipes (Sample.answering Cases.soups 0) (Some "key")
          (Some "soup") (Some ["leek"; "onion"]) None None 10 0 Sample.empty_world).2)
  ∧ get_recipe_details Cases.str_of (Sample.answering Sample.unavailable 86399) None 7
      (get_recipe_details Cases.str_of (Sample.answering Cases.soup 0) (Some "key") 7
         Sample.empty_world).2
    = (Ok (Cases.value_of
             (get_recipe_details Cases.str_of (Sample.answering Cases.soup 0) (Some "key") 7
                Sample.empty_world).1),
       logged (RedisGet (detail_cache_key 7))
         (get_recipe_details Cases.str_of (Sample.answering Cases.soup 0) (Some "key") 7
            Sample.empty_world).2).
Proof.
  split.
  - refine (proj1
      (fetched_recipes_are_served_from_the_cache (Sample.answering Cases.soups 0)
         (Sample.answering Sample.unavailable 3599) Sample.empty_world (Some "key") None
         eq_refl eq_refl)
      (Some "soup") ["leek"; "onion"] ["onion"; "leek"] None None 10 0 _ _ _ _ _ _ _).
    + right; left. reflexivity.
    + eexists. split; [reflexivity|]. cbn. lia.
    + vm_compute. reflexivity.
    + apply Permutation_swap.
    + cbn. lia.
  - refine (proj2 (proj2
      (fetched_recipes_are_served_from_the_cache (Sample.answering Cases.soup 0)
         (Sample.answering Sample.unavailable 86399) Sample.empty_world (Some "key") None
         eq_refl eq_refl))
      Cases.str_of Cases.str_of 7 _ _ _ _ _ _).
    + right; left. reflexivity.
    + eexists. split; [reflexivity|]. cbn. lia.
    + vm_compute. reflexivity.
    + cbn. lia.
Defined.

End RecipeFacts.

(** ** The products of the barcode endpoint *)
Module ProductFacts.
Import Barcode.

(** *** [strip] *)

Lemma lstrip_head s :
  lstrip s = "" ∨ ∃ c t, lstrip s = String c t ∧ isspace_char c = false.
Proof.
  induction s as [|c s IH]; cbn; [by left|].
  destruct (isspace_char c) eqn:Hc; [done|]. right. by exists c, s.
Qed.

Lemma rstrip_rstrip s : rstrip (rstrip s) = rstrip s.
Proof.
  induction s as [|c s IH]; [done|]. cbn [rstrip].
  destruct (isspace_char c && is_empty (rstrip s)) eqn:Hc; [done|].
  cbn [rstrip]. by rewrite IH, Hc.
Qed.

Lemma lstrip_rstrip c t : isspace_char c = false → lstrip (rstrip (String c t)) = rstrip (String c t).
Proof. intros Hc. cbn [rstrip]. rewrite Hc. cbn. by rewrite Hc. Qed.

(** Stripping twice is stripping once. *)
Lemma strip_strip s : strip (strip s) = strip s.
Proof.
  unfold strip. destruct (lstrip_head s) as [->|(c & t & -> & Hc)]; [done|].
  by rewrite (lstrip_rstrip c t Hc), rstrip_rstrip.
Qed.

(** *** The category of a product *)

Lemma mapping_categories :
  Forall (λ entry : string * string, is_Some (Grocery.FoodCategory.of_value entry.2)) mapping.
Proof. unfold mapping. repeat constructor; by eexists. Qed.

Lemma scan_mapping_category tag_lower category :
  scan_mapping mapping tag_lower = Some category →
  is_Some (Grocery.FoodCategory.of_value category).
Proof.
  generalize mapping_categories. generalize mapping.
  induction 1 as [|[keyword c] entries Hc _ IH]; cbn [scan_mapping]; [done|].
  destruct (contains keyword tag_lower); [|done]. by intros [= <-].
Qed.

Lemma scan_tags_category tags category :
  scan_tags tags = Ok category → is_Some (Grocery.FoodCategory.of_value category).
Proof.
  induction tags as [|tag tags IH]; cbn [scan_tags].
  - intros [= <-]. by eexists.
  - destruct tag; try done.
    destruct (scan_mapping mapping (lower s)) as [c|] eqn:Hc; [|done].
    intros [= <-]. by eapply scan_mapping_category.
Qed.

Lemma map_category_category categories_tags category :
  _map_category categories_tags = Ok category →
  is_Some (Grocery.FoodCategory.of_value category).
Proof.
  unfold _map_category. destruct (iterate categories_tags) as [tags|]; [|done].
  apply scan_tags_category.
Qed.

(** A product that parses carries the stripped name, the barcode asked for
    and a category of the enumeration. *)
Lemma parse_product_Ok product barcode result :
  _parse_product product barcode = Ok result → truthy result = true →
  ∃ s category brand categories quantity image ingredients grade,
    result = JObj [ ("barcode", JStr barcode); ("name", JStr (strip s));
                    ("brand", brand); ("categories", categories);
                    ("suggested_category", JStr category);
                    ("quantity_string", quantity); ("image_url", image);
                    ("ingredients_text", ingredients); ("nutriscore_grade", grade) ]
    ∧ strip s ≠ ""
    ∧ is_Some (Grocery.FoodCategory.of_value category).
Proof.
  unfold _parse_product.
  destruct (get product "product_name" (JStr "")) as [name_v|]; [|done]. cbn.
  destruct name_v; try done. cbn [str_strip mbind result_bind].
  destruct (strip s) eqn:Hs; [by intros [= <-]|]. cbn [is_empty].
  destruct (get product "categories_tags" (JArr [])) as [tags|]; [|done]. cbn.
  destruct (_map_category tags) as [category|] eqn:Hcat; [|done]. cbn.
  destruct (get product "brands" (JStr "")) as [brand|]; [|done]. cbn.
  destruct (get product "categories" (JStr "")) as [categories|]; [|done]. cbn.
  destruct (get product "quantity" (JStr "")) as [quantity|]; [|done]. cbn.
  destruct (get product "image_front_url" (JStr "")) as [image|]; [|done]. cbn.
  destruct (get product "ingredients_text" (JStr "")) as [ingredients|]; [|done]. cbn.
  destruct (get product "nutriscore_grade" (JStr "")) as [grade|]; [|done]. cbn.
  intros [= <-] _. exists s, category, brand, categories, quantity, image, ingredients, grade.
  rewrite Hs. split; [done|]. split; [done|]. by apply map_category_category in Hcat.
Qed.

Lemma query_Ok e barcode w result :
  (_query_open_food_facts e barcode w).1 = Ok result → truthy result = true →
  ∃ product, _parse_product product barcode = Ok result.
Proof.
  rewrite GatewayFacts.query_outcome.
  destruct (upstream e _ _) as [|r]; [by intros [= <-]|].
  destruct (negb _); [by intros [= <-]|].
  destruct (json_loads (body r)) as [data|]; [|done]. cbn.
  destruct (get data "status" JNull) as [st|]; [|done]. cbn.
  destruct (negb _); [by intros [= <-]|].
  destruct (get data "product" (JObj [])) as [product|]; [|done]. cbn.
  intros H _. by exists product.
Qed.

(** What the handler does with the outcome of the service. *)
Lemma lookup_barcode_Ok e raw w resp w' :
  lookup_barcode e raw w = (Ok resp, w') →
  valid_format (strip raw) = true
  ∧ ∃ result, lookup e (strip raw) w = (Ok result, w')
      ∧ truthy result = true
      ∧ make_response result = Ok resp
      ∧ ∃ kw s, result = JObj kw ∧ assoc "name" kw = Some (JStr s) ∧ s ≠ "".
Proof.
  unfold lookup_barcode. destruct (valid_format (strip raw)); [|done]. cbn [negb].
  unfold bind at 1. destruct (lookup e (strip raw) w) as [[result|ex] w1]; [|done].
  destruct (truthy result) eqn:Ht; [|done]. cbn [negb orb].
  unfold bind, lift. destruct (get result "name" JNull) as [name_v|] eqn:Hn; [|done].
  destruct (truthy name_v) eqn:Htn; [|done]. cbn [negb].
  intros [= Hr <-]. split; [done|]. exists result. split; [done|]. split; [done|].
  split; [done|].
  destruct result; try done. exists kvs. cbn in Hn. injection Hn as <-.
  unfold make_response in Hr. destruct (assoc "source" kvs); [done|].
  destruct (str_field kvs "barcode"); [|done]. cbn in Hr.
  unfold str_field in Hr.
  destruct (assoc "name" kvs) as [v|]; [|done]. destruct v; try done.
  exists s. split; [done|]. split; [done|]. cbn in Htn. by destruct s.
Qed.

Lemma make_response_fields kw resp :
  make_response (JObj kw) = Ok resp →
  assoc "barcode" kw = Some (JStr (barcode resp))
  ∧ assoc "name" kw = Some (JStr (name resp))
  ∧ (assoc "suggested_category" kw = Some (JStr (suggested_category resp))
     ∨ assoc "suggested_category" kw = None ∧ suggested_category resp = "Other")
  ∧ source resp = "open_food_facts".
Proof.
  unfold make_response. destruct (assoc "source" kw); [done|].
  unfold str_field.
  destruct (assoc "barcode" kw) as [[]|]; try done. cbn.
  destruct (assoc "name" kw) as [[]|]; try done. cbn.
  destruct (optional_str_field kw "brand"); [|done]. cbn.
  destruct (optional_str_field kw "categories"); [|done]. cbn.
  unfold default_str_field.
  destruct (assoc "suggested_category" kw) as [[]|]; try done; cbn.
  all: destruct (optional_str_field kw "quantity_string"); [|done]; cbn.
  all: destruct (optional_str_field kw "image_url"); [|done]; cbn.
  all: destruct (optional_str_field kw "ingredients_text"); [|done]; cbn.
  all: destruct (optional_str_field kw "nutriscore_grade"); [|done]; cbn.
  all: intros [= <-]; cbn; repeat split; auto.
Qed.

(** X14.  Every product [GET /barcode/{barcode}] returns has a name that
    is not empty and the source ["open_food_facts"].  When it comes from
    the provider (the cache gave nothing) its barcode is the stripped input,
    which has the accepted format, its name has no white space at either
    end, and its suggested category is a value of [FoodCategory]. *)
Theorem found_products_are_well_formed (e : env) (raw : string) (w w' : world)
    (resp : BarcodeProductResponse) :
  lookup_barcode e raw w = (Ok resp, w') →
  name resp ≠ ""
  ∧ source resp = "open_food_facts"
  ∧ (cache_unusable e w (cache_key (strip raw)) →
       barcode resp = strip raw
       ∧ valid_format (barcode resp) = true
       ∧ strip (name resp) = name resp
       ∧ is_Some (Grocery.FoodCategory.of_value (suggested_category resp))).
Proof.
  intros (Hv & result & Hl & Ht & Hr & kw & s & -> & Hname & Hs)%lookup_barcode_Ok.
  destruct (make_response_fields kw resp Hr) as (Hb & Hn & Hc & Hsrc).
  rewrite Hname in Hn. injection Hn as <-.
  split; [done|]. split; [done|]. intros Hcache.
  pose proof (GatewayFacts.lookup_unusable _ _ _ Hcache) as Hq. rewrite Hl in Hq. cbn [fst] in Hq.
  symmetry in Hq. destruct (query_Ok _ _ _ _ Hq Ht) as [product Hp].
  destruct (parse_product_Ok _ _ _ Hp Ht)
    as (s0 & category & ? & ? & ? & ? & ? & ? & [= ->] & Hs0 & Hcat).
  cbn in Hb, Hname, Hc. injection Hb as Hb. injection Hname as Hname.
  destruct Hc as [[= <-]|[[=] _]].
  rewrite <- Hb, <- Hname. split; [done|]. split; [done|]. split; [apply strip_strip|done].
Qed.

(** X15.  A product that was found is served from the cache.  After a
    lookup that found the cache unusable, returned a product and could
    write to the cache, the same lookup at any time in the next 604800
    seconds returns the same response after the cache read alone, whatever
    the provider would answer now. *)
Theorem found_products_are_served_from_the_cache (e e2 : env) (raw : string) (w w1 : world)
    (resp : BarcodeProductResponse) :
  cache_unusable e w (cache_key (strip raw)) →
  redis_setex_ok e = true →
  lookup_barcode e raw w = (Ok resp, w1) →
  redis_get_ok e2 = true →
  now e2 < now e + 604800 →
  lookup_barcode e2 raw w1 = (Ok resp, logged (RedisGet (cache_key (strip raw))) w1).
Proof.
  intros Hcache Hset (Hv & result & Hl & Ht & Hr & kw & s & -> & Hname & Hs)%lookup_barcode_Ok
    Hget Hnow.
  pose proof (GatewayFacts.lookup_unusable _ _ _ Hcache) as Hq. rewrite Hl in Hq. cbn [fst] in Hq.
  pose proof (GatewayFacts.lookup_unusable_stores _ _ _ _ Hcache Hset (eq_sym Hq)) as Hstored.
  rewrite Hl, Ht in Hstored. cbn [snd] in Hstored.
  unfold lookup_barcode. rewrite Hv. cbn [negb]. unfold bind at 1.
  rewrite (GatewayFacts.lookup_hit e2 w1 (strip raw) (JObj kw) Hget).
  - rewrite Ht. cbn [negb orb]. unfold bind, lift. cbn [get]. rewrite Hname.
    cbn [from_option id truthy]. destruct s; [done|]. cbn [is_empty negb]. by rewrite Hr.
  - unfold live. rewrite Hstored. cbn. by rewrite (proj2 (Z.ltb_lt _ _) Hnow).
Qed.

Lemma found_products_are_well_formed_witness :
  name Cases.milk_product ≠ ""
  ∧ source Cases.milk_product = "open_food_facts"
  ∧ barcode Cases.milk_product = strip " 12345678"
  ∧ valid_format (barcode Cases.milk_product) = true
  ∧ strip (name Cases.milk_product) = name Cases.milk_product
  ∧ is_Some (Grocery.FoodCategory.of_value (suggested_category Cases.milk_product)).
Proof.
  pose proof (found_products_are_well_formed (Sample.answering Sample.found 0) " 12345678"
    Sample.empty_world
    (lookup_barcode (Sample.answering Sample.found 0) " 12345678" Sample.empty_world).2
    Cases.milk_product) as H.
  destruct H as (Hname & Hsource & Hfresh); [vm_compute; reflexivity|].
  split; [exact Hname|]. split; [exact Hsource|]. apply Hfresh.
  right; left. reflexivity.
Defined.

Lemma found_products_are_served_from_the_cache_witness :
  lookup_barcode (Sample.answering Sample.unavailable 604799) " 12345678"
    (lookup_barcode (Sample.answering Sample.found 0) " 12345678" Sample.empty_world).2
  = (Ok Cases.milk_product,
     logged (RedisGet (cache_key (strip " 12345678")))
       (lookup_barcode (Sample.answering Sample.found 0) " 12345678" Sample.empty_world).2).
Proof.
  apply (found_products_are_served_from_the_cache (Sample.answering Sample.found 0)
           (Sample.answering Sample.unavailable 604799) " 12345678" Sample.empty_world).
  - right; left. reflexivity.
  - reflexivity.
  - vm_compute. reflexivity.
  - reflexivity.
  - cbn. lia.
Defined.

End ProductFacts.

(** ** The ingredient parameter *)
Module IngredientFacts.
Import RecipeEndpoints.

Lemma split_cons sep s : ∃ piece pieces, split sep s = piece :: pieces.
Proof.
  induction s as [|c s (piece & pieces & IH)]; cbn; [by eexists _, _|].
  destruct (Ascii.eqb c sep); [by eexists _, _|]. rewrite IH. by eexists _, _.
Qed.

Lemma join_cons sep p q l : join sep (p :: q :: l) = p +:+ sep +:+ join sep (q :: l).
Proof. done. Qed.

(** Joining the pieces gives the string back. *)
Lemma join_split s : join "," (split "," s) = s.
Proof.
  induction s as [|c s IH]; [done|]. cbn [split].
  destruct (split_cons "," s) as (piece & pieces & Hs).
  destruct (Ascii.eqb_spec c ",") as [->|Hc].
  - rewrite Hs, join_cons, <- Hs, IH. done.
  - rewrite Hs. destruct pieces as [|q pieces].
    + rewrite Hs in IH. cbn in *. by rewrite IH.
    + rewrite join_cons. rewrite Hs, join_cons in IH. rewrite <- IH. reflexivity.
Qed.

Lemma split_pieces s : Forall (λ piece, all_chars no_comma piece = true) (split "," s).
Proof.
  induction s as [|c s IH]; cbn [split]; [by repeat constructor|].
  destruct (Ascii.eqb c ",") eqn:Hc; [by constructor|].
  destruct (split "," s) as [|piece pieces]; [repeat constructor; cbn; unfold no_comma; by rewrite Hc|].
  apply Forall_cons in IH as [Hp Hps]. constructor; [|done]. cbn. unfold no_comma at 1.
  by rewrite Hc.
Qed.

Lemma split_piece p : all_chars no_comma p = true → split "," p = [p].
Proof.
  induction p as [|c p IH]; [done|]. intros [Hc Hp]%andb_true_iff.
  cbn [split]. unfold no_comma in Hc. apply negb_true_iff in Hc. by rewrite Hc, (IH Hp).
Qed.

Lemma split_append p q :
  all_chars no_comma p = true → split "," (p +:+ "," +:+ q) = p :: split "," q.
Proof.
  induction p as [|c p IH]; [done|]. intros [Hc Hp]%andb_true_iff.
  change (String c p +:+ "," +:+ q) with (String c (p +:+ "," +:+ q)).
  cbn [split]. unfold no_comma in Hc. apply negb_true_iff in Hc. by rewrite Hc, (IH Hp).
Qed.

Lemma split_join l :
  l ≠ [] → Forall (λ piece, all_chars no_comma piece = true) l → split "," (join "," l) = l.
Proof.
  intros Hl Hall. induction Hall as [|p l Hp Hall IH]; [done|].
  destruct l as [|q l]; [by apply split_piece|].
  rewrite join_cons, (split_append p _ Hp). by rewrite IH.
Qed.

Lemma all_chars_lstrip P s : all_chars P s = true → all_chars P (lstrip s) = true.
Proof.
  induction s as [|c s IH]; [done|]. cbn. destruct (isspace_char c); [|done].
  intros [_ H]%andb_true_iff. by apply IH.
Qed.

Lemma all_chars_rstrip P s : all_chars P s = true → all_chars P (rstrip s) = true.
Proof.
  induction s as [|c s IH]; [done|]. cbn.
  intros [Hc H]%andb_true_iff. destruct (_ && _); [done|]. cbn. by rewrite Hc, IH.
Qed.

(** A string strips to nothing when it is all white space. *)
Lemma strip_empty s : is_empty (strip s) = all_chars isspace_char s.
Proof.
  unfold strip. induction s as [|c s IH]; [done|]. cbn [lstrip all_chars].
  destruct (isspace_char c) eqn:Hc; [done|]. cbn [rstrip]. by rewrite Hc.
Qed.

Lemma blank_pieces s :
  forallb (λ i, is_empty (strip i)) (split "," s) = all_chars comma_or_space s.
Proof.
  induction s as [|c s IH]; [done|]. cbn [split all_chars]. unfold comma_or_space at 1.
  destruct (Ascii.eqb c ",") eqn:Hc; [by cbn; rewrite IH|].
  destruct (split_cons "," s) as (piece & pieces & Hs). rewrite Hs in *.
  cbn [forallb] in *. rewrite <- IH, !strip_empty. cbn. by rewrite andb_assoc.
Qed.

(** X19.  The [ingredients] parameter of the recipe endpoints is normalised
    by [[i.strip() for i in ingredients.split(",") if i.strip()]]: every
    element of the list is non-empty, has no white space at either end and
    no comma; the list is empty (the endpoints then answer 400) exactly when
    the parameter consists of commas and white space only; and joining the
    list with commas, as the service does for the provider, gives a string
    that is read back as the same list. *)
Theorem ingredient_list_is_normalised (ingredients : string) :
  Forall (λ i, i ≠ "" ∧ strip i = i ∧ all_chars no_comma i = true)
    (ingredient_list ingredients)
  ∧ (ingredient_list ingredients = [] ↔ all_chars comma_or_space ingredients = true)
  ∧ ingredient_list (join "," (ingredient_list ingredients)) = ingredient_list ingredients.
Proof.
  assert (Hnorm : Forall (λ i, i ≠ "" ∧ strip i = i ∧ all_chars no_comma i = true)
                    (ingredient_list ingredients)).
  { unfold ingredient_list. generalize (split_pieces ingredients).
    generalize (split "," ingredients).
    induction 1 as [|p l Hp _ IH]; [constructor|]. cbn [List.filter].
    destruct (is_empty (strip p)) eqn:He; cbn [negb]; [done|].
    rewrite fmap_cons. constructor; [|done].
    split; [by destruct (strip p)|]. split; [apply ProductFacts.strip_strip|].
    by apply all_chars_rstrip, all_chars_lstrip. }
  split; [done|]. split.
  - rewrite <- blank_pieces. unfold ingredient_list.
    generalize (split "," ingredients). intros l. induction l as [|p l IH]; [done|].
    cbn [List.filter forallb]. destruct (is_empty (strip p)); cbn [negb andb]; [done|].
    rewrite fmap_cons. split; intros H; discriminate H.
  - destruct (ingredient_list ingredients) as [|i l] eqn:Hl; [done|].
    rewrite <- Hl in *. unfold ingredient_list at 1. rewrite split_join.
    + clear Hl. induction Hnorm as [|j js (Hne & Hs & _) _ IH]; [done|].
      cbn [List.filter]. rewrite Hs.
      assert (is_empty j = false) as -> by (by destruct j).
      cbn [negb]. by rewrite fmap_cons, Hs, IH.
    + by rewrite Hl.
    + eapply Forall_impl; [done|]. by intros j (_ & _ & ?).
Qed.

End IngredientFacts.

(** ** The exceptions of the recipe service *)
Module RecipeErrorFacts.
Import Recipes RecipeService.

Lemma mapM_raises {A B} (P : exn → Prop) (f : A → result B) l :
  (∀ a ex, f a = Raise ex → P ex) →
  ∀ ex, mapM f l = Raise ex → P ex.
Proof.
  intros Hf. induction l as [|a l IH]; cbn; [done|].
  apply GatewayFacts.bind_raises; [apply Hf|intros b].
  apply GatewayFacts.bind_raises; [apply IH|done].
Qed.

Lemma ingredient_infos_raises listed ex :
  ingredient_infos listed = Raise ex → payload_error ex.
Proof.
  revert ex. unfold ingredient_infos.
  apply GatewayFacts.bind_raises; [apply GatewayFacts.iterate_raises|intros elements].
  apply GatewayFacts.bind_raises; [|done].
  apply mapM_raises. intros i. unfold ingredient_info.
  repeat (apply GatewayFacts.bind_raises; [apply GatewayFacts.get_raises|intros ?]).
  done.
Qed.

Lemma parse_ingredient_search_result_raises data ex :
  _parse_ingredient_search_result data = Raise ex → payload_error ex.
Proof.
  revert ex. unfold _parse_ingredient_search_result.
  do 6 (apply GatewayFacts.bind_raises; [apply GatewayFacts.get_raises|intros ?]).
  apply GatewayFacts.bind_raises; [apply ingredient_infos_raises|intros ?].
  apply GatewayFacts.bind_raises; [apply GatewayFacts.get_raises|intros ?].
  apply GatewayFacts.bind_raises; [apply ingredient_infos_raises|intros ?].
  done.
Qed.

Lemma first_item_raises analyzed ex :
  first_item analyzed = Raise ex → payload_error ex ∨ ex = KeyError.
Proof.
  destruct analyzed as [| | | |s|l|kvs]; cbn; try (intros [= <-]; unfold payload_error; by auto).
  - destruct s; [|done]. intros [= <-]; unfold payload_error; by auto.
  - destruct l; [|done]. intros [= <-]; unfold payload_error; by auto.
Qed.

Lemma names_raises listed ex : names listed = Raise ex → payload_error ex.
Proof.
  revert ex. unfold names.
  apply GatewayFacts.bind_raises; [apply GatewayFacts.iterate_raises|intros elements].
  apply GatewayFacts.bind_raises; [|done].
  apply mapM_raises. intros i. apply GatewayFacts.get_raises.
Qed.

Lemma instruction_raises step ex : instruction step = Raise ex → payload_error ex.
Proof.
  revert ex. unfold instruction.
  do 3 (apply GatewayFacts.bind_raises; [apply GatewayFacts.get_raises|intros ?]).
  apply GatewayFacts.bind_raises; [apply names_raises|intros ?].
  apply GatewayFacts.bind_raises; [apply GatewayFacts.get_raises|intros ?].
  apply GatewayFacts.bind_raises; [apply names_raises|intros ?].
  done.
Qed.

Lemma extended_ingredient_raises str_of ing ex :
  extended_ingredient str_of ing = Raise ex → payload_error ex.
Proof.
  revert ex. unfold extended_ingredient.
  do 5 (apply GatewayFacts.bind_raises; [apply GatewayFacts.get_raises|intros ?]).
  apply GatewayFacts.bind_raises; [|done].
  unfold ingredient_image.
  apply GatewayFacts.bind_raises; [apply GatewayFacts.get_raises|intros image].
  destruct (truthy image); [|done].
  apply GatewayFacts.bind_raises; [apply GatewayFacts.get_raises|done].
Qed.

Lemma payload_or_key ex : payload_error ex → payload_error ex ∨ ex = KeyError.
Proof. by left. Qed.

Lemma parse_recipe_detail_raises str_of data ex :
  _parse_recipe_detail str_of data = Raise ex → payload_error ex ∨ ex = KeyError.
Proof.
  revert ex. unfold _parse_recipe_detail.
  apply GatewayFacts.bind_raises;
    [intros ex H; by apply GatewayFacts.get_raises, payload_or_key in H|intros extended].
  apply GatewayFacts.bind_raises;
    [intros ex H; by apply GatewayFacts.iterate_raises, payload_or_key in H|intros elements].
  apply GatewayFacts.bind_raises; [|intros ingredients].
  { intros ex H. apply payload_or_key. revert ex H. apply mapM_raises.
    intros ing. apply extended_ingredient_raises. }
  apply GatewayFacts.bind_raises;
    [intros ex H; by apply GatewayFacts.get_raises, payload_or_key in H|intros analyzed].
  apply GatewayFacts.bind_raises; [|intros instructions].
  { destruct (truthy analyzed); [|done].
    apply GatewayFacts.bind_raises; [apply first_item_raises|intros first].
    apply GatewayFacts.bind_raises;
      [intros ex H; by apply GatewayFacts.get_raises, payload_or_key in H|intros listed].
    apply GatewayFacts.bind_raises;
      [intros ex H; by apply GatewayFacts.iterate_raises, payload_or_key in H|intros steps].
    intros ex H. apply payload_or_key. revert ex H. apply mapM_raises.
    intros step. apply instruction_raises. }
  repeat (apply GatewayFacts.bind_raises;
    [intros ex H; by apply GatewayFacts.get_raises, payload_or_key in H|intros ?]).
  done.
Qed.

(** X18.  [search_by_ingredients] and [get_recipe_details] raise only on a
    payload they cannot handle: an exception that leaves them is a
    [JSONDecodeError], an [AttributeError] or a [TypeError] (or a
    [KeyError], for the details), never an error of Redis or of the
    transport, and it arises only after the provider answered the request
    with a 2xx. *)
Theorem recipe_lookups_raise_on_answered_payloads_only (e : env) (w : world)
    (api_key : option string) :
  (∀ ingredients number ranking ex,
     (search_by_ingredients e api_key ingredients number ranking w).1 = Raise ex →
     payload_error ex
     ∧ answered e (BASE_URL +:+ "/recipes/findByIngredients")
         (by_ingredients_params api_key ingredients number ranking))
  ∧ (∀ str_of recipe_id ex,
     (get_recipe_details str_of e api_key recipe_id w).1 = Raise ex →
     (payload_error ex ∨ ex = KeyError)
     ∧ answered e (detail_url recipe_id) (detail_params api_key)).
Proof.
  split.
  - intros ingredients number ranking ex. unfold search_by_ingredients.
    set (key := by_ingredients_cache_key ingredients number ranking).
    set (params := by_ingredients_params api_key ingredients number ranking).
    unfold bind at 1.
    destruct (GatewayFacts.read_cache_total e w key) as [[j|] ->]; [done|].
    unfold fetch_by_ingredients, raise_for_status. GatewayFacts.run.
    destruct (upstream e _ params) as [|r] eqn:Hr; [done|].
    destruct (Z.leb_spec 200 (status_code r)), (Z.leb_spec (status_code r) 299);
      cbn [andb]; try done.
    assert (Ha : answered e (BASE_URL +:+ "/recipes/findByIngredients") params)
      by (exists r; split; [done|lia]).
    destruct (body r) as [data|raw]; cbn [json_loads];
      [|intros [= <-]; split; [unfold payload_error; auto|done]].
    destruct (iterate data) as [elements|ex'] eqn:Hit;
      [|intros [= <-]; split; [by eapply GatewayFacts.iterate_raises|done]].
    destruct (mapM _ elements) as [results|ex'] eqn:Hm.
    + by destruct (redis_setex_ok e).
    + intros [= <-]. split; [|done]. revert Hm. apply mapM_raises.
      apply parse_ingredient_search_result_raises.
  - intros str_of recipe_id ex. unfold get_recipe_details. unfold bind at 1.
    destruct (GatewayFacts.read_cache_total e w (detail_cache_key recipe_id)) as [[j|] ->];
      [done|].
    unfold fetch_detail, raise_for_status. GatewayFacts.run.
    destruct (upstream e _ _) as [|r] eqn:Hr; [done|].
    destruct (Z.eqb_spec (status_code r) 404); [done|].
    destruct (Z.leb_spec 200 (status_code r)), (Z.leb_spec (status_code r) 299);
      cbn [andb]; try done.
    assert (Ha : answered e (detail_url recipe_id) (detail_params api_key))
      by (exists r; split; [done|lia]).
    destruct (body r) as [data|raw]; cbn [json_loads];
      [|intros [= <-]; split; [left; unfold payload_error; auto|done]].
    destruct (_parse_recipe_detail str_of data) as [result|ex'] eqn:Hp.
    + by destruct (redis_setex_ok e).
    + intros [= <-]. split; [|done]. by eapply parse_recipe_detail_raises.
Qed.

Lemma recipe_lookups_raise_on_answered_payloads_only_witness :
  payload_error JSONDecodeError
  ∧ answered (Sample.answering Sample.not_json 0)
      (BASE_URL +:+ "/recipes/findByIngredients")
      (by_ingredients_params (Some "key") ["leek"] 10 1).
Proof.
  apply (proj1
    (recipe_lookups_raise_on_answered_payloads_only (Sample.answering Sample.not_json 0)
       Sample.empty_world (Some "key"))
    ["leek"] 10 1 JSONDecodeError).
  vm_compute. reflexivity.
Defined.

End RecipeErrorFacts.

(** ** The PATCH at its edges, and reading after writing *)
Module PatchFacts.
Import Grocery Items.

Lemma set_required_null {A} (set : A → GroceryItem.t → GroceryItem.t) entry o :
  null_in_required (set_required set entry o) = true
  ↔ null_in_required o = true ∨ entry = Some None.
Proof.
  destruct entry as [[v|]|]; cbn; split; auto; intros [H|H]; done.
Qed.

Lemma set_nullable_null {A} (set : option A → GroceryItem.t → GroceryItem.t) entry o :
  null_in_required (set_nullable set entry o) = null_in_required o.
Proof. by destruct entry. Qed.

(** The flush fails exactly when the body nulls a required column. *)
Lemma apply_update_null item_data item :
  null_in_required (apply_update item_data {| attrs := item; null_in_required := false |}) = true
  ↔ nulls_a_required_column item_data.
Proof.
  unfold apply_update, nulls_a_required_column.
  rewrite !set_nullable_null, set_required_null, !set_nullable_null, !set_required_null.
  cbn [null_in_required]. split.
  - intros [[[[[[[H|H]|H]|H]|H]|H]|H]|H]; auto 10. done.
  - intros [H|[H|[H|[H|[H|[H|H]]]]]]; auto 10.
Qed.

Lemma same_columns_refl row :
  response_constraints row = true → same_columns row row = true.
Proof.
  unfold response_constraints, same_columns. rewrite !andb_true_iff.
  intros [[[[[[[_ _] _] _] Hq] _] Hcs] _].
  rewrite !String.eqb_refl, Z.eqb_refl, (ReplayFacts.ltb_eqb_refl _ Hq), Bool.eqb_reflx.
  rewrite !(ReplayFacts.eq_opt_refl Z.eqb) by (intros; apply Z.eqb_refl).
  rewrite !(ReplayFacts.eq_opt_refl String.eqb) by (intros; apply String.eqb_refl).
  rewrite (ReplayFacts.eq_opt_refl PrimFloat.eqb); [done|].
  intros a Ha. rewrite Ha in Hcs. cbn in Hcs. apply andb_true_iff in Hcs as [Hcs _].
  by apply ReplayFacts.leb_eqb_refl.
Qed.

(** The nullable columns after the assignments of a PATCH: what the body
    gives, or the stored value. *)
Lemma apply_update_nullable item_data item :
  let row := attrs (apply_update item_data {| attrs := item; null_in_required := false |}) in
  GroceryItem.expiration_date row
    = default (GroceryItem.expiration_date item) (GroceryItemUpdate.expiration_date item_data)
  ∧ GroceryItem.predicted_expiration_date row
    = default (GroceryItem.predicted_expiration_date item)
        (GroceryItemUpdate.predicted_expiration_date item_data)
  ∧ GroceryItem.confidence_score row
    = default (GroceryItem.confidence_score item) (GroceryItemUpdate.confidence_score item_data)
  ∧ GroceryItem.barcode row
    = default (GroceryItem.barcode item) (GroceryItemUpdate.barcode item_data)
  ∧ GroceryItem.notes row
    = default (GroceryItem.notes item) (GroceryItemUpdate.notes item_data)
  ∧ GroceryItem.consumed_date row
    = default (GroceryItem.consumed_date item) (GroceryItemUpdate.consumed_date item_data).
Proof.
  cbn zeta. unfold apply_update.
  repeat split;
    repeat first
      [ rewrite SyncFacts.set_required_frame by (intros ? []; reflexivity)
      | rewrite SyncFacts.set_nullable_frame by (intros ? []; reflexivity) ].
  - destruct (GroceryItemUpdate.expiration_date item_data) as [v|];
      cbn [set_nullable attrs];
      repeat first
        [ rewrite SyncFacts.set_required_frame by (intros ? []; reflexivity)
        | rewrite SyncFacts.set_nullable_frame by (intros ? []; reflexivity) ];
      [|done].
    by destruct (attrs _).
  - destruct (GroceryItemUpdate.predicted_expiration_date item_data) as [v|];
      cbn [set_nullable attrs];
      repeat first
        [ rewrite SyncFacts.set_required_frame by (intros ? []; reflexivity)
        | rewrite SyncFacts.set_nullable_frame by (intros ? []; reflexivity) ];
      [|done].
    by destruct (attrs _).
  - destruct (GroceryItemUpdate.confidence_score item_data) as [v|];
      cbn [set_nullable attrs];
      repeat first
        [ rewrite SyncFacts.set_required_frame by (intros ? []; reflexivity)
        | rewrite SyncFacts.set_nullable_frame by (intros ? []; reflexivity) ];
      [|done].
    by destruct (attrs _).
  - destruct (GroceryItemUpdate.barcode item_data) as [v|];
      cbn [set_nullable attrs];
      repeat first
        [ rewrite SyncFacts.set_required_frame by (intros ? []; reflexivity)
        | rewrite SyncFacts.set_nullable_frame by (intros ? []; reflexivity) ];
      [|done].
    by destruct (attrs _).
  - destruct (GroceryItemUpdate.notes item_data) as [v|];
      cbn [set_nullable attrs];
      repeat first
        [ rewrite SyncFacts.set_required_frame by (intros ? []; reflexivity)
        | rewrite SyncFacts.set_nullable_frame by (intros ? []; reflexivity) ];
      [|done].
    by destruct (attrs _).
  - destruct (GroceryItemUpdate.consumed_date item_data) as [v|];
      cbn [set_nullable attrs];
      repeat first
        [ rewrite SyncFacts.set_required_frame by (intros ? []; reflexivity)
        | rewrite SyncFacts.set_nullable_frame by (intros ? []; reflexivity) ];
      [|done].
    by destruct (attrs _).
Qed.

(** The flush writes the nullable columns as they were assigned. *)
Lemma flushed_nullable db_now old new :
  let row := flushed db_now old new in
  GroceryItem.expiration_date row = GroceryItem.expiration_date new
  ∧ GroceryItem.predicted_expiration_date row = GroceryItem.predicted_expiration_date new
  ∧ (eq_opt PrimFloat.eqb (GroceryItem.confidence_score new) (GroceryItem.confidence_score new)
     = true →
     eq_opt PrimFloat.eqb (GroceryItem.confidence_score row) (GroceryItem.confidence_score new)
     = true)
  ∧ GroceryItem.barcode row = GroceryItem.barcode new
  ∧ GroceryItem.notes row = GroceryItem.notes new
  ∧ GroceryItem.consumed_date row = GroceryItem.consumed_date new.
Proof.
  cbn zeta. unfold flushed.
  destruct (same_columns old new) eqn:Hsame; [|done].
  unfold same_columns in Hsame. rewrite !andb_true_iff in Hsame.
  destruct Hsame as [[[[[[[[[[[[_ _] _] _] _] _] He] Hp] Hc] Hb] Hn] _] Hd].
  split; [by apply SyncFacts.eq_opt_Z|]. split; [by apply SyncFacts.eq_opt_Z|].
  split; [done|]. split; [by apply SyncFacts.eq_opt_string|].
  split; [by apply SyncFacts.eq_opt_string|by apply SyncFacts.eq_opt_Z].
Qed.

Section WithCaller.
Variable current_user : string.
Variable db_now : datetime.

Local Abbreviation select_item := (select_item current_user).
Local Abbreviation get_grocery := (get_grocery current_user).
Local Abbreviation update_grocery := (update_grocery current_user db_now).
Local Abbreviation patch_grocery := (patch_grocery current_user db_now).
Local Abbreviation mark_consumed := (mark_consumed current_user db_now).

(** X20.  The outcomes of a PATCH of a row of the caller.  A body that
    fails the constraints of [GroceryItemUpdate] is answered 422; text the
    store refuses (a NUL) fails the UPDATE; and the body fails it as well
    when it sets to [null] one of the fields whose column is NOT NULL
    ([name], [category], [storage_location], [quantity], [unit],
    [purchase_date], [is_consumed]): the schema lets that [null] through,
    the store refuses it, the handler ends in an [IntegrityError].  In the
    three cases the table is left as it was.  Any other body goes through,
    and a [null] it gives to a nullable field clears the column. *)
Theorem null_for_a_required_column_fails_the_patch tbl item_id item item_data :
  select_item tbl item_id = Some item →
  (update_constraints item_data = false →
     patch_grocery tbl item_id item_data = (Raise RequestValidationError, tbl))
  ∧ (update_constraints item_data = true → patch_taken item_data = false →
     patch_grocery tbl item_id item_data = (Raise DBAPIError, tbl))
  ∧ (update_constraints item_data = true → patch_taken item_data = true →
     nulls_a_required_column item_data →
     patch_grocery tbl item_id item_data = (Raise IntegrityError, tbl))
  ∧ (update_constraints item_data = true → patch_taken item_data = true →
     ¬ nulls_a_required_column item_data →
     ∃ row,
       patch_grocery tbl item_id item_data
       = (Ok (grocery_to_response item_id row), <[item_id := row]> tbl)
       ∧ nullable_fields_set item_data row).
Proof.
  intros Hsel. unfold Items.patch_grocery, Grocery.update_grocery. rewrite Hsel.
  split; [by intros ->|]. split; [by intros -> ->|].
  pose proof (apply_update_null item_data item) as Hnull.
  split; intros Hc -> Hn; rewrite Hc; cbn [negb]; cbn zeta.
  - apply Hnull in Hn. by rewrite Hn.
  - destruct (null_in_required _); [destruct Hn; by apply Hnull|].
    eexists. split; [done|].
    destruct (apply_update_nullable item_data item) as (He & Hp & Hcs & Hb & Hno & Hd).
    destruct (flushed_nullable db_now item
                (attrs (apply_update item_data {| attrs := item; null_in_required := false |})))
      as (He' & Hp' & Hcs' & Hb' & Hno' & Hd').
    unfold nullable_fields_set. rewrite He', Hp', Hb', Hno', Hd', He, Hp, Hb, Hno, Hd.
    repeat split; try (by intros v ->).
    intros v Hv. rewrite Hcs, Hv in Hcs'.
    assert (Hrefl : eq_opt PrimFloat.eqb v v = true); [|exact (Hcs' Hrefl)].
    apply ReplayFacts.eq_opt_refl. intros a ->.
    unfold update_constraints in Hc. rewrite Hv, !andb_true_iff in Hc.
    destruct Hc as [[[[_ _] _] Hconf] _]. cbn [given] in Hconf.
    apply andb_true_iff in Hconf as [Hconf _].
    by apply ReplayFacts.leb_eqb_refl.
Qed.

(** X21.  A PATCH with the body [{}] on a row of the caller that satisfies
    the response constraints changes nothing, [updated_at] included, and
    returns the row as it is stored. *)
Theorem empty_patch_changes_nothing tbl item_id item :
  select_item tbl item_id = Some item →
  response_constraints item = true →
  update_grocery tbl item_id nothing = (Ok (grocery_to_response item_id item), tbl).
Proof.
  intros Hsel Hc. unfold Grocery.update_grocery. rewrite Hsel. cbn.
  unfold flushed. rewrite (same_columns_refl item Hc).
  apply SyncFacts.select_item_Some in Hsel as [Hi _]. by rewrite insert_id.
Qed.

(** X22.  What a write returns, a read returns afterwards: after a PATCH
    or a consume that succeeded, [GET /groceries/{id}] returns the response
    of that call, which both handlers build from the row as refreshed. *)
Theorem written_items_are_read_back tbl item_id resp tbl' :
  (∀ item_data,
     update_grocery tbl item_id item_data = (Ok resp, tbl') →
     get_grocery tbl' item_id = Ok resp)
  ∧ (∀ now_utc,
     mark_consumed now_utc tbl item_id = (Ok resp, tbl') →
     get_grocery tbl' item_id = Ok resp).
Proof.
  assert (Hpatch : ∀ item_data,
            update_grocery tbl item_id item_data = (Ok resp, tbl') →
            get_grocery tbl' item_id = Ok resp).
  { intros item_data. unfold Grocery.update_grocery.
    destruct (select_item tbl item_id) as [item|] eqn:Hsel; [|done].
    destruct (patch_taken item_data); [|done]. cbn [negb]. cbn zeta.
    destruct (null_in_required _); [done|]. intros [= <- <-].
    apply SyncFacts.select_item_Some in Hsel as [_ Hown].
    unfold Items.get_grocery, Grocery.select_item. rewrite lookup_insert_eq.
    assert (GroceryItem.user_id
              (flushed db_now item
                 (attrs (apply_update item_data {| attrs := item; null_in_required := false |})))
            = current_user) as ->; [|by rewrite String.eqb_refl].
    unfold flushed. destruct (same_columns _ _); [done|]. cbn [GroceryItem.user_id].
    by destruct (SyncFacts.apply_update_unnamed item_data item) as [-> _]. }
  split; [exact Hpatch|].
  intros now_utc. rewrite ConsumeFacts.mark_consumed_update. apply Hpatch.
Qed.

End WithCaller.

Lemma null_for_a_required_column_fails_the_patch_witness :
  patch_grocery "alice" 50 Cases.fridge "m1" Cases.unname = (Raise IntegrityError, Cases.fridge).
Proof.
  refine (proj1 (proj2 (proj2
    (null_for_a_required_column_fails_the_patch "alice" 50 Cases.fridge "m1"
       (Cases.carton "alice") Cases.unname _))) _ _ _).
  - vm_compute. reflexivity.
  - reflexivity.
  - reflexivity.
  - left. reflexivity.
Defined.

Lemma empty_patch_changes_nothing_witness :
  update_grocery "alice" 50 Cases.fridge "m1" nothing
  = (Ok (grocery_to_response "m1" (Cases.carton "alice")), Cases.fridge).
Proof.
  apply (empty_patch_changes_nothing "alice" 50 Cases.fridge "m1" (Cases.carton "alice")).
  - vm_compute. reflexivity.
  - vm_compute. reflexivity.
Defined.

Lemma written_items_are_read_back_witness :
  get_grocery "alice"
    (update_grocery "alice" 50 Sample.pantry "x1" (Sample.rename "Oat milk")).2 "x1"
  = Ok (Cases.item_of
          (update_grocery "alice" 50 Sample.pantry "x1" (Sample.rename "Oat milk")).1).
Proof.
  refine (proj1 (written_items_are_read_back "alice" 50 Sample.pantry "x1"
    (Cases.item_of (update_grocery "alice" 50 Sample.pantry "x1" (Sample.rename "Oat milk")).1)
    (update_grocery "alice" 50 Sample.pantry "x1" (Sample.rename "Oat milk")).2)
    (Sample.rename "Oat milk") _).
  vm_compute. reflexivity.
Defined.

End PatchFacts.
